(** * Contract-analysis orchestration core: a shallow embedding

    The development follows the layout of the Python package:

    - [Exceptions]   src/services/exceptions.py and the library failures
                     the code distinguishes (httpx, builtins);
    - [Py]           the control-flow fragment of Python the sources use:
                     coroutines as state transformers that return or
                     raise, and [try / except / finally] with early
                     [return];
    - [Retry]        src/services/retry.py;
    - [AIClientMod]  src/services/ai_client.py;
    - [Json], [Schemas], [ClauseExtraction]
                     src/prompts/schemas.py and
                     src/prompts/clause_extraction.py;
    - [AnalysisServiceMod]  src/services/analysis_service.py;
    - [Worker]       src/workers/worker.py.

    Python [str] is modelled by [string], one [ascii] per code point
    (code points below 256); [int] by [Z]; [float] by [Q], the exact
    value of a finite float (NaN and the infinities are not modelled).
    Logging calls have no effect on any value the code computes and are
    left out.

    The services the code talks to are outside the repository.  What
    the provider's HTTP endpoint answers is part of the client's state
    ([AsyncClient]); whether a statement of the database, a command of
    Redis or a call on the queue goes through or raises is given by
    the classes [Database] and [Services], with the instances
    [reliable_database] and [reliable_services] for services that are
    up. *)

From Stdlib Require Import String Ascii ZArith QArith List Bool Lia.
From stdpp Require Import base option list gmap strings pretty.
Import ListNotations.

Local Open Scope string_scope.
Local Open Scope Z_scope.
Local Open Scope list_scope.

(* ===================================================================== *)
(** * Exceptions *)
(* ===================================================================== *)

Module Exceptions.

(** The exception classes the sources raise, catch or let through.
    Only the [Exception] hierarchy is modelled: signals deriving from
    [BaseException] alone (task cancellation, interpreter exit) are
    not failures of a call and are never raised by the modelled
    collaborators. *)
Inductive exn_class : Type :=
| Exception
| AnalysisError
| DocumentNotFoundError
| EmptyDocumentError
| AITimeoutError
| AIResponseValidationError
| HTTPError              (* httpx.HTTPError *)
| HTTPStatusError        (* httpx.HTTPStatusError *)
| RequestError           (* httpx.RequestError *)
| TransportError         (* httpx.TransportError *)
| TimeoutException       (* httpx.TimeoutException *)
| LockAcquisitionError   (* src/workers/worker.py *)
| LookupError
| KeyError
| IndexError
| TypeError
| ValueError
| JSONDecodeError
| AttributeError
| RuntimeError
| MultipleResultsFound   (* sqlalchemy.exc.MultipleResultsFound *)
| ArithmeticError
| OverflowError
| SQLAlchemyError        (* sqlalchemy.exc.SQLAlchemyError *)
| RedisError.            (* redis.exceptions.RedisError *)

#[global] Instance exn_class_eq_dec : EqDecision exn_class.
Proof. solve_decision. Defined.

(** Direct base class; [Exception] is the root of the model. *)
Definition base_class (c : exn_class) : option exn_class :=
  match c with
  | Exception => None
  | AnalysisError => Some Exception
  | DocumentNotFoundError | EmptyDocumentError
  | AITimeoutError | AIResponseValidationError => Some AnalysisError
  | HTTPError => Some Exception
  | HTTPStatusError | RequestError => Some HTTPError
  | TransportError => Some RequestError
  | TimeoutException => Some TransportError
  | LockAcquisitionError => Some Exception
  | LookupError => Some Exception
  | KeyError | IndexError => Some LookupError
  | TypeError | ValueError | AttributeError | RuntimeError
| MultipleResultsFound => Some Exception
  | ArithmeticError | SQLAlchemyError | RedisError => Some Exception
  | OverflowError => Some ArithmeticError
  | JSONDecodeError => Some ValueError
  end.

(** [issubclass c d]; the hierarchy is at most five levels deep. *)
Fixpoint issubclass_fuel (fuel : nat) (c d : exn_class) : bool :=
  if decide (c = d) then true
  else match fuel with
       | O => false
       | S fuel' =>
           match base_class c with
           | Some b => issubclass_fuel fuel' b d
           | None => false
           end
       end.

Definition issubclass (c d : exn_class) : bool := issubclass_fuel 5 c d.

(** A raised exception object: its class, [str(exc)], and the
    [raw_response] attribute that [AIResponseValidationError] adds. *)
Record exn : Type := mk_exn {
  exn_type : exn_class;
  exn_str : string;
  raw_response_of : option string
}.

Definition new_exn (c : exn_class) (message : string) : exn :=
  mk_exn c message None.

(** [AIResponseValidationError(message, raw_response=...)]. *)
Definition new_validation_error (message raw : string) : exn :=
  mk_exn AIResponseValidationError message (Some raw).

Definition isinstance (e : exn) (c : exn_class) : bool :=
  issubclass (exn_type e) c.

(** [except (C1, C2, ...)]: the exception is an instance of one of
    the listed classes. *)
Definition matches (classes : list exn_class) (e : exn) : bool :=
  existsb (isinstance e) classes.

End Exceptions.
Import Exceptions.

(* ===================================================================== *)
(** * Python control flow *)
(* ===================================================================== *)

Module Py.

(** The result of evaluating a call: a value or a raised exception. *)
Inductive result (A : Type) : Type :=
| Ok (a : A)
| Raise (e : exn).
Arguments Ok {A} a.
Arguments Raise {A} e.

(** A coroutine over a world [W]: awaiting it transforms the world
    and returns or raises. *)
Definition expr (W A : Type) : Type := W -> result A * W.

(** How a statement completes: it falls through to the next
    statement, executes [return r], or raises. *)
Inductive completion (R : Type) : Type :=
| Normal
| Return (r : R)
| Throw (e : exn).
Arguments Normal {R}.
Arguments Return {R} r.
Arguments Throw {R} e.

Definition stmt (W R : Type) : Type := W -> completion R * W.

Section Combinators.
Context {W R : Type}.

Definition skip : stmt W R := fun w => (Normal, w).
Definition return_ (r : R) : stmt W R := fun w => (Return r, w).
Definition raise_ (e : exn) : stmt W R := fun w => (Throw e, w).

(** [s1; s2] *)
Definition seq (s1 s2 : stmt W R) : stmt W R :=
  fun w =>
    match s1 w with
    | (Normal, w') => s2 w'
    | (c, w') => (c, w')
    end.

(** [x = await e; k x] *)
Definition await {A} (e : expr W A) (k : A -> stmt W R) : stmt W R :=
  fun w =>
    match e w with
    | (Ok a, w') => k a w'
    | (Raise x, w') => (Throw x, w')
    end.

(** A world update that cannot fail (an assignment, an append). *)
Definition exec (f : W -> W) : stmt W R := fun w => (Normal, f w).

(** An [except C as exc: ...] clause: the class test and the body. *)
Definition handler : Type := (exn -> bool) * (exn -> stmt W R).

Fixpoint find_handler (hs : list handler) (e : exn)
  : option (exn -> stmt W R) :=
  match hs with
  | [] => None
  | (test, body) :: hs' =>
      if test e then Some body else find_handler hs' e
  end.

(** [try: body / except ...: handlers / finally: fin].
    The first matching clause handles an exception of the body; an
    exception or [return] of a clause is not handled again.  The
    [finally] block runs on every way out of the body or the
    clause, also on [return]; when it falls through, the pending
    completion stands, otherwise its own completion replaces it. *)
Definition try_except_finally
    (body : stmt W R) (hs : list handler) (fin : stmt W R) : stmt W R :=
  fun w =>
    let '(c1, w1) :=
      match body w with
      | (Throw e, w') =>
          match find_handler hs e with
          | Some h => h e w'
          | None => (Throw e, w')
          end
      | other => other
      end in
    match fin w1 with
    | (Normal, w2) => (c1, w2)
    | (c2, w2) => (c2, w2)
    end.

(** [try / except] without [finally]. *)
Definition try_except (body : stmt W R) (hs : list handler) : stmt W R :=
  try_except_finally body hs skip.

End Combinators.

(** Calling an [async def] whose body is [body]: falling off the end
    returns [None]. *)
Definition call {W R} (body : stmt W R) : expr W (option R) :=
  fun w =>
    match body w with
    | (Normal, w') => (Ok None, w')
    | (Return r, w') => (Ok (Some r), w')
    | (Throw e, w') => (Raise e, w')
    end.

(** A computation without effect on the world. *)
Definition lift {W A} (r : result A) : expr W A := fun w => (r, w).

(** ** [repr] of a [str]

    Single quotes, unless the string holds one and no double quote;
    the backslash and the quote used are escaped; line feed, carriage
    return and tab are written [\n], [\r], [\t]; the other
    characters that are not printable (below 32, from 127 to 160, and
    173) are written [\xhh]. *)
Definition hex_digit (n : N) : ascii :=
  if (n <? 10)%N then ascii_of_N (48 + n) else ascii_of_N (87 + n).

Definition repr_char (q c : ascii) : string :=
  let n := N_of_ascii c in
  if Ascii.eqb c "\" then "\\"
  else if Ascii.eqb c q then String "\" (String q EmptyString)
  else if (n =? 10)%N then "\n"
  else if (n =? 13)%N then "\r"
  else if (n =? 9)%N then "\t"
  else if (n <? 32)%N || ((127 <=? n)%N && (n <=? 160)%N) || (n =? 173)%N then
    String "\" (String "x" (String (hex_digit (n / 16))
                               (String (hex_digit (n mod 16)) EmptyString)))
  else String c EmptyString.

Fixpoint holds (c : ascii) (s : string) : bool :=
  match s with
  | EmptyString => false
  | String c' r => Ascii.eqb c c' || holds c r
  end.

Fixpoint repr_chars (q : ascii) (s : string) : string :=
  match s with
  | EmptyString => EmptyString
  | String c r => repr_char q c +:+ repr_chars q r
  end.

Definition repr (s : string) : string :=
  let q := if holds "'" s && negb (holds "034" s) then "034"%char
           else "'"%char in
  String q (repr_chars q s +:+ String q EmptyString).

(** The event loop's [asyncio.sleep]. *)
Class EventLoop (W : Type) : Type := {
  asyncio_sleep : Q -> W -> W
}.

End Py.
Import Py.

Declare Scope stmt_scope.
Delimit Scope stmt_scope with stmt.
Notation "s1 ;;; s2" := (seq s1 s2)
  (at level 100, right associativity) : stmt_scope.
Notation "x <~ e ;;; k" := (await e (fun x => k))
  (at level 100, e at next level, right associativity) : stmt_scope.

(* ===================================================================== *)
(** * src/services/retry.py *)
(* ===================================================================== *)

Module Retry.

(** Default of the [retryable_exceptions] parameter. *)
Definition default_retryable_exceptions : list exn_class :=
  [AITimeoutError; HTTPStatusError].

(** The value of [base_delay * (2 ** attempt)].  [base_delay] is a
    float; the product of a float and a power of two is exact as long
    as it stays within the range of a float. *)
Definition backoff_delay (base_delay : Q) (attempt : nat) : Q :=
  Qmult base_delay (inject_Z (2 ^ Z.of_nat attempt)).

(** Evaluating [base_delay * (2 ** attempt)]: the int [2 ** attempt]
    is converted to a float for the product, and from [2 ** 1024] on
    it has none. *)
Definition compute_delay (base_delay : Q) (attempt : nat) : result Q :=
  if (attempt <? 1024)%nat then Ok (backoff_delay base_delay attempt)
  else Raise (new_exn OverflowError "int too large to convert to float").

(** The largest finite float, [(2 - 2^-52) * 2^1023]. *)
Definition float_max : Q := inject_Z (2 ^ 1024 - 2 ^ 971).

(** The delays of the attempts [0], ..., [n - 1] can be computed and
    are finite floats.  (A product beyond [float_max] is [inf] in
    Python, and a sleep of [inf] does not end; with the default
    [base_delay] of 1.0 the product is finite whenever it can be
    computed.) *)
Definition finite_delays (base_delay : Q) (n : nat) : bool :=
  forallb
    (fun attempt =>
       (attempt <? 1024)%nat
       && Qle_bool (- float_max) (backoff_delay base_delay attempt)
       && Qle_bool (backoff_delay base_delay attempt) float_max)
    (List.seq 0 n).

(** [raise last_exception]: raising [None] is a [TypeError]. *)
Definition raise_last {T} (last_exception : option exn) : result T :=
  match last_exception with
  | Some e => Raise e
  | None =>
      Raise (new_exn TypeError "exceptions must derive from BaseException")
  end.

Section RetryWithBackoff.
Context {W T : Type} `{EventLoop W}.

(** The [for attempt in range(max_retries)] loop, [remaining]
    iterations from index [attempt] on, then the final [raise]. *)
Fixpoint retry_loop (func : expr W T) (base_delay : Q)
    (retryable_exceptions : list exn_class)
    (remaining attempt : nat) (last_exception : option exn)
    (w : W) : result T * W :=
  match remaining with
  | O => (raise_last last_exception, w)
  | S remaining' =>
      match func w with
      | (Ok v, w') => (Ok v, w')
      | (Raise exc, w') =>
          if matches retryable_exceptions exc then
            match compute_delay base_delay attempt with
            | Ok delay =>
                retry_loop func base_delay retryable_exceptions
                  remaining' (S attempt) (Some exc) (asyncio_sleep delay w')
            | Raise overflow => (Raise overflow, w')
            end
          else (Raise exc, w')
      end
  end.

(** [range(max_retries)] is empty for [max_retries <= 0]. *)
Definition retry_with_backoff (func : expr W T) (max_retries : Z)
    (base_delay : Q) (retryable_exceptions : list exn_class)
  : expr W T :=
  retry_loop func base_delay retryable_exceptions
    (Z.to_nat max_retries) 0%nat None.

End RetryWithBackoff.

(** ** A callable under observation

    A deterministic callable started in a fixed state is determined
    by what its i-th invocation does.  [Probe] is such a callable
    together with the number of invocations so far and the delays
    slept, the way the test double [MockAIClient] counts its calls. *)
Record Probe (T : Type) : Type := mk_probe {
  behaviour : nat -> result T;
  call_count : nat;
  slept : list Q
}.
Arguments mk_probe {T}.
Arguments behaviour {T}.
Arguments call_count {T}.
Arguments slept {T}.

Definition probe_start {T} (f : nat -> result T) : Probe T :=
  mk_probe f 0%nat [].

Definition probe_call {T} : expr (Probe T) T :=
  fun p =>
    (behaviour p (call_count p),
     mk_probe (behaviour p) (S (call_count p)) (slept p)).

#[global] Instance probe_loop {T} : EventLoop (Probe T) := {
  asyncio_sleep d p := mk_probe (behaviour p) (call_count p) (slept p ++ [d])
}.

(** The delays of attempts [from], [from+1], ..., [from+n-1]. *)
Definition delays (base_delay : Q) (from n : nat) : list Q :=
  map (backoff_delay base_delay) (List.seq from n).

(** Invocation [i] of [f] fails with a retryable kind. *)
Definition retryable_failure {T} (retryable : list exn_class)
    (f : nat -> result T) (i : nat) : Prop :=
  exists e, f i = Raise e /\ matches retryable e = true.

(** Sample callables: two timeouts and then a completion; nothing but
    timeouts; a failure outside the retryable set. *)
Definition flaky (i : nat) : result string :=
  match i with
  | 0%nat => Raise (new_exn AITimeoutError "timeout 1")
  | 1%nat => Raise (new_exn AITimeoutError "timeout 2")
  | _ => Ok "done"
  end.

Definition always_timeout (i : nat) : result string :=
  Raise (new_exn AITimeoutError "timeout").

Definition broken (i : nat) : result string :=
  Raise (new_exn ValueError "boom").

End Retry.
Import Retry.

(* ===================================================================== *)
(** * Python values read from JSON *)
(* ===================================================================== *)

Module Json.

(** What [json.loads] returns: [None], [bool], [int], [float], [str],
    [list] and [dict] with string keys.  A [dict] is its item list in
    insertion order; [dict_get] reads the first item of a key and
    [dict_set] never adds a second one. *)
#[local] Unset Elimination Schemes.
Inductive json : Type :=
| JNull
| JBool (b : bool)
| JInt (n : Z)
| JFloat (q : Q)
| JStr (s : string)
| JList (items : list json)
| JDict (items : list (string * json)).
#[local] Set Elimination Schemes.

Fixpoint dict_get (k : string) (items : list (string * json)) : option json :=
  match items with
  | [] => None
  | (k', v) :: rest => if String.eqb k k' then Some v else dict_get k rest
  end.

(** [d[k] = v]: replaces the value of an existing key in place,
    appends a new key. *)
Fixpoint dict_set (k : string) (v : json) (items : list (string * json))
  : list (string * json) :=
  match items with
  | [] => [(k, v)]
  | (k', v') :: rest =>
      if String.eqb k k' then (k', v) :: rest
      else (k', v') :: dict_set k v rest
  end.

(** ** Characters and whitespace *)

Definition chr (n : nat) : ascii := ascii_of_nat n.

Definition quote : ascii := "034"%char.
Definition backslash : ascii := "092"%char.

(** Whitespace of the JSON grammar: space, tab, line feed, carriage
    return. *)
Definition is_json_ws (c : ascii) : bool :=
  (Ascii.eqb c " " || Ascii.eqb c "009" || Ascii.eqb c "010"
   || Ascii.eqb c "013")%char.

(** Drop the longest prefix of characters satisfying [p]. *)
Fixpoint lstrip_by (p : ascii -> bool) (s : string) : string :=
  match s with
  | EmptyString => EmptyString
  | String c r => if p c then lstrip_by p r else s
  end.

(** Drop the longest suffix of characters satisfying [p]. *)
Fixpoint rstrip_by (p : ascii -> bool) (s : string) : string :=
  match s with
  | EmptyString => EmptyString
  | String c r =>
      match rstrip_by p r with
      | EmptyString => if p c then EmptyString else String c EmptyString
      | r' => String c r'
      end
  end.

Definition strip_by (p : ascii -> bool) (s : string) : string :=
  rstrip_by p (lstrip_by p s).

Definition skip_ws : string -> string := lstrip_by is_json_ws.

(** Every character of [s] satisfies [p]. *)
Fixpoint all_p (p : ascii -> bool) (s : string) : bool :=
  match s with
  | EmptyString => true
  | String c r => p c && all_p p r
  end.

Fixpoint last_char (s : string) : option ascii :=
  match s with
  | EmptyString => None
  | String c EmptyString => Some c
  | String _ r => last_char r
  end.

(** Neither a list nor a dict. *)
Definition scalar (v : json) : Prop :=
  match v with
  | JList _ | JDict _ => False
  | _ => True
  end.

(** [rest] is what remains of [s] after some prefix of it. *)
Definition is_suffix (rest s : string) : Prop := exists pre, s = pre +:+ rest.

(** [s] ends, right before [rest], with a character satisfying [P]. *)
Definition closes (P : ascii -> Prop) (rest s : string) : Prop :=
  exists c, P c /\ is_suffix (String c rest) s.

Definition not_open_brace (c : ascii) : bool := negb (Ascii.eqb c "{").

(** ** Scanning *)

Definition is_digit (c : ascii) : bool :=
  let n := N_of_ascii c in ((48 <=? n) && (n <=? 57))%N.

Definition digit_value (c : ascii) : Z := Z.of_N (N_of_ascii c) - 48.

Definition hex_value (c : ascii) : option Z :=
  let n := Z.of_N (N_of_ascii c) in
  if (48 <=? n) && (n <=? 57) then Some (n - 48)
  else if (65 <=? n) && (n <=? 70) then Some (n - 55)
  else if (97 <=? n) && (n <=? 102) then Some (n - 87)
  else None.

(** The digits at the front of [s], and what follows them. *)
Fixpoint span_digits (s : string) : string * string :=
  match s with
  | String c r =>
      if is_digit c then
        let '(ds, rest) := span_digits r in (String c ds, rest)
      else (EmptyString, s)
  | EmptyString => (EmptyString, EmptyString)
  end.

Fixpoint digits_value (acc : Z) (ds : string) : Z :=
  match ds with
  | EmptyString => acc
  | String c r => digits_value (10 * acc + digit_value c) r
  end.

(** The character an escape letter stands for. *)
Definition unescape (c : ascii) : option ascii :=
  if Ascii.eqb c quote then Some quote
  else if Ascii.eqb c backslash then Some backslash
  else if Ascii.eqb c "/" then Some "/"%char
  else if Ascii.eqb c "b" then Some "008"%char
  else if Ascii.eqb c "f" then Some "012"%char
  else if Ascii.eqb c "n" then Some "010"%char
  else if Ascii.eqb c "r" then Some "013"%char
  else if Ascii.eqb c "t" then Some "009"%char
  else None.

(** The code point of a [\uXXXX] escape, when it is below 256. *)
Definition unicode_escape (h1 h2 h3 h4 : ascii) : option ascii :=
  match hex_value h1, hex_value h2, hex_value h3, hex_value h4 with
  | Some a, Some b, Some c, Some d =>
      let n := ((a * 16 + b) * 16 + c) * 16 + d in
      if n <? 256 then Some (ascii_of_N (Z.to_N n)) else None
  | _, _, _, _ => None
  end.

(** A string after its opening quote: the decoded characters up to the
    closing quote, and what follows it.  Control characters must be
    escaped. *)
Fixpoint scan_string (s : string) : option (string * string) :=
  match s with
  | EmptyString => None
  | String c r =>
      if Ascii.eqb c quote then Some (EmptyString, r)
      else if Ascii.eqb c backslash then
        match r with
        | String e r1 =>
            if Ascii.eqb e "u" then
              match r1 with
              | String h1 (String h2 (String h3 (String h4 r2))) =>
                  match unicode_escape h1 h2 h3 h4, scan_string r2 with
                  | Some u, Some (t, rest) => Some (String u t, rest)
                  | _, _ => None
                  end
              | _ => None
              end
            else
              match unescape e, scan_string r1 with
              | Some u, Some (t, rest) => Some (String u t, rest)
              | _, _ => None
              end
        | EmptyString => None
        end
      else if (N_of_ascii c <? 32)%N then None
      else
        match scan_string r with
        | Some (t, rest) => Some (String c t, rest)
        | None => None
        end
  end.

(** [m * 10^e] *)
Definition decimal (m e : Z) : Q :=
  if 0 <=? e then inject_Z (m * 10 ^ e)
  else Qmake m (Z.to_pos (10 ^ (- e))).

(** The fraction part [.digits], if one starts [s]. *)
Definition scan_frac (s : string) : option (string * string) :=
  match s with
  | String c r =>
      if Ascii.eqb c "." then
        match span_digits r with
        | (EmptyString, _) => None
        | (ds, rest) => Some (ds, rest)
        end
      else None
  | EmptyString => None
  end.

(** The exponent part [e|E, sign, digits], if one starts [s]. *)
Definition scan_exp (s : string) : option (Z * string) :=
  match s with
  | String c r =>
      if Ascii.eqb c "e" || Ascii.eqb c "E" then
        let '(negative, r1) :=
          match r with
          | String sg r' =>
              if Ascii.eqb sg "-" then (true, r')
              else if Ascii.eqb sg "+" then (false, r')
              else (false, r)
          | EmptyString => (false, r)
          end in
        match span_digits r1 with
        | (EmptyString, _) => None
        | (ds, rest) =>
            let n := digits_value 0 ds in
            Some ((if negative then - n else n), rest)
        end
      else None
  | EmptyString => None
  end.

(** A number: an integer literal is an [int], a literal with a
    fraction or an exponent a [float]. *)
Definition scan_number (s : string) : option (json * string) :=
  let '(negative, s1) :=
    match s with
    | String c r => if Ascii.eqb c "-" then (true, r) else (false, s)
    | EmptyString => (false, s)
    end in
  let int_part :=
    match s1 with
    | String c r =>
        if Ascii.eqb c "0" then Some (String c EmptyString, r)
        else if is_digit c then Some (span_digits s1)
        else None
    | EmptyString => None
    end in
  match int_part with
  | None => None
  | Some (ds, r1) =>
      let sign (n : Z) := if negative then - n else n in
      let '(frac, r2) :=
        match scan_frac r1 with
        | Some (fs, rest) => (Some fs, rest)
        | None => (None, r1)
        end in
      let '(ex, r3) :=
        match scan_exp r2 with
        | Some (e, rest) => (Some e, rest)
        | None => (None, r2)
        end in
      match frac, ex with
      | None, None => Some (JInt (sign (digits_value 0 ds)), r3)
      | _, _ =>
          let fs := match frac with Some fs => fs | None => EmptyString end in
          let e := match ex with Some e => e | None => 0 end in
          let m := digits_value (digits_value 0 ds) fs in
          Some (JFloat (decimal (sign m) (e - Z.of_nat (String.length fs))), r3)
      end
  end.

(** [s] with the prefix [lit] removed, if it starts with it. *)
Fixpoint drop_prefix (lit s : string) : option string :=
  match lit, s with
  | EmptyString, _ => Some s
  | String a lit', String b s' =>
      if Ascii.eqb a b then drop_prefix lit' s' else None
  | String _ _, EmptyString => None
  end.

Definition scan_literal (s : string) : option (json * string) :=
  match drop_prefix "null" s with
  | Some r => Some (JNull, r)
  | None =>
  match drop_prefix "true" s with
  | Some r => Some (JBool true, r)
  | None =>
  match drop_prefix "false" s with
  | Some r => Some (JBool false, r)
  | None => scan_number s
  end end end.

(** ** The decoder

    One value at the front of [s] and what follows it.  [fuel] bounds
    the chain of nested and successive values; every link consumes a
    character, so the length of the text is enough.  The literals
    [NaN], [Infinity] and [-Infinity], which Python accepts beyond the
    JSON grammar, and escapes of code points from 256 on are not
    decoded. *)
Fixpoint scan_value (fuel : nat) (s : string) : option (json * string) :=
  match fuel with
  | O => None
  | S fuel' =>
      match s with
      | EmptyString => None
      | String c r =>
          if Ascii.eqb c "{" then
            match skip_ws r with
            | String c1 r1 =>
                if Ascii.eqb c1 "}" then Some (JDict [], r1)
                else scan_members fuel' (String c1 r1) []
            | EmptyString => None
            end
          else if Ascii.eqb c "[" then
            match skip_ws r with
            | String c1 r1 =>
                if Ascii.eqb c1 "]" then Some (JList [], r1)
                else scan_elements fuel' (String c1 r1) []
            | EmptyString => None
            end
          else if Ascii.eqb c quote then
            match scan_string r with
            | Some (t, rest) => Some (JStr t, rest)
            | None => None
            end
          else scan_literal s
      end
  end
with scan_members (fuel : nat) (s : string) (acc : list (string * json))
  : option (json * string) :=
  match fuel with
  | O => None
  | S fuel' =>
      match s with
      | String c r =>
          if Ascii.eqb c quote then
            match scan_string r with
            | Some (key, r1) =>
                match skip_ws r1 with
                | String c2 r2 =>
                    if Ascii.eqb c2 ":" then
                      match scan_value fuel' (skip_ws r2) with
                      | Some (v, r3) =>
                          match skip_ws r3 with
                          | String c4 r4 =>
                              if Ascii.eqb c4 "," then
                                scan_members fuel' (skip_ws r4)
                                  (dict_set key v acc)
                              else if Ascii.eqb c4 "}" then
                                Some (JDict (dict_set key v acc), r4)
                              else None
                          | EmptyString => None
                          end
                      | None => None
                      end
                    else None
                | EmptyString => None
                end
            | None => None
            end
          else None
      | EmptyString => None
      end
  end
with scan_elements (fuel : nat) (s : string) (acc : list json)
  : option (json * string) :=
  match fuel with
  | O => None
  | S fuel' =>
      match scan_value fuel' s with
      | Some (v, r1) =>
          match skip_ws r1 with
          | String c2 r2 =>
              if Ascii.eqb c2 "," then
                scan_elements fuel' (skip_ws r2) (acc ++ [v])
              else if Ascii.eqb c2 "]" then Some (JList (acc ++ [v]), r2)
              else None
          | EmptyString => None
          end
      | None => None
      end
  end.

(** [json.loads(s)]: one value with JSON whitespace around it and
    nothing else; [None] stands for [JSONDecodeError]. *)
Definition json_loads (s : string) : option json :=
  let t := strip_by is_json_ws s in
  match scan_value (S (String.length t)) t with
  | Some (v, EmptyString) => Some v
  | _ => None
  end.

(** Sample texts are written with apostrophes where JSON has
    quotation marks. *)
Fixpoint json_text (s : string) : string :=
  match s with
  | EmptyString => EmptyString
  | String c r =>
      String (if Ascii.eqb c "'" then quote else c) (json_text r)
  end.

End Json.
Import Json.

(* ===================================================================== *)
(** * src/models/enums.py *)
(* ===================================================================== *)

Module Enums.

Inductive AnalysisStatus : Type :=
| PENDING | PROCESSING | COMPLETED | FAILED | TIMED_OUT.

Inductive ClauseType : Type :=
| PENALTY | AUTO_RENEWAL | CONFIDENTIALITY | TERMINATION | LIABILITY
| INDEMNIFICATION | GOVERNING_LAW | PAYMENT_TERMS | FORCE_MAJEURE | OTHER.

Inductive RiskLevel : Type :=
| LOW | MEDIUM | HIGH | CRITICAL.

#[global] Instance AnalysisStatus_eq_dec : EqDecision AnalysisStatus.
Proof. solve_decision. Defined.

Definition ClauseType_members : list ClauseType :=
  [PENALTY; AUTO_RENEWAL; CONFIDENTIALITY; TERMINATION; LIABILITY;
   INDEMNIFICATION; GOVERNING_LAW; PAYMENT_TERMS; FORCE_MAJEURE; OTHER].

Definition RiskLevel_members : list RiskLevel := [LOW; MEDIUM; HIGH; CRITICAL].

(** [member.value] *)
Definition ClauseType_value (m : ClauseType) : string :=
  match m with
  | PENALTY => "PENALTY"
  | AUTO_RENEWAL => "AUTO_RENEWAL"
  | CONFIDENTIALITY => "CONFIDENTIALITY"
  | TERMINATION => "TERMINATION"
  | LIABILITY => "LIABILITY"
  | INDEMNIFICATION => "INDEMNIFICATION"
  | GOVERNING_LAW => "GOVERNING_LAW"
  | PAYMENT_TERMS => "PAYMENT_TERMS"
  | FORCE_MAJEURE => "FORCE_MAJEURE"
  | OTHER => "OTHER"
  end.

Definition RiskLevel_value (m : RiskLevel) : string :=
  match m with
  | LOW => "LOW"
  | MEDIUM => "MEDIUM"
  | HIGH => "HIGH"
  | CRITICAL => "CRITICAL"
  end.

(** [ClauseType(value)]: the member with that value, or [ValueError]. *)
Definition ClauseType_of (value : string) : option ClauseType :=
  List.find (fun m => String.eqb (ClauseType_value m) value) ClauseType_members.

Definition RiskLevel_of (value : string) : option RiskLevel :=
  List.find (fun m => String.eqb (RiskLevel_value m) value) RiskLevel_members.

End Enums.
Import Enums.

(* ===================================================================== *)
(** * src/prompts/schemas.py *)
(* ===================================================================== *)

Module Schemas.

(** [{member.value for member in ClauseType}] *)
Definition _VALID_CLAUSE_TYPES : list string :=
  map ClauseType_value ClauseType_members.

Definition _VALID_RISK_LEVELS : list string :=
  map RiskLevel_value RiskLevel_members.

Definition str_in (v : string) (values : list string) : bool :=
  existsb (String.eqb v) values.

(** ** Validation errors *)

Inductive loc_item : Type :=
| LField (name : string)
| LIndex (i : nat).

(** The error types of the validators the schema uses, under
    pydantic's names. *)
Inductive error_type : Type :=
| missing
| bool_type
| bool_parsing
| string_type
| string_too_short
| int_type
| int_parsing
| int_parsing_size
| int_from_float
| float_type
| float_parsing
| list_type
| model_type
| greater_than_equal
| less_than_equal
| value_error (message : string).

Record error_details : Type := mk_error {
  err_loc : list loc_item;
  err_type : error_type
}.

(** The outcome of a validator: the validated value, or the line
    errors collected. *)
Definition validation (A : Type) : Type := A + list error_details.

Definition valid {A} (a : A) : validation A := inl a.
Definition invalid {A} (t : error_type) : validation A := inr [mk_error [] t].

(** An error found below [item] is reported at [item :: loc]. *)
Definition at_loc {A} (item : loc_item) (r : validation A) : validation A :=
  match r with
  | inl a => inl a
  | inr errs =>
      inr (map (fun e => mk_error (item :: err_loc e) (err_type e)) errs)
  end.

Definition errors_of {A} (r : validation A) : list error_details :=
  match r with
  | inl _ => []
  | inr errs => errs
  end.

(** A check run on a value that passed the checks before it. *)
Definition and_then {A B} (r : validation A) (f : A -> validation B)
  : validation B :=
  match r with
  | inl a => f a
  | inr errs => inr errs
  end.

(** Validators run side by side, as the fields of a model are: the
    value is built when all succeed, otherwise the errors of all are
    collected in order. *)
Definition both {A B} (rf : validation (A -> B)) (ra : validation A)
  : validation B :=
  match rf, ra with
  | inl f, inl a => inl (f a)
  | _, _ => inr (errors_of rf ++ errors_of ra)
  end.

(** ** The validation library

    What pydantic leaves to Python's number parsing and to its own
    message formatting: the conversion of a string given for a number
    (lax mode), and [str] of a [ValidationError]. *)
Class PydanticCore : Type := {
  str_as_int : string -> option Z;
  str_as_float : string -> option Q;
  validation_error_str : list error_details -> string
}.

Section Validators.
Context `{PydanticCore}.

Definition ascii_lower (c : ascii) : ascii :=
  let n := N_of_ascii c in
  if ((65 <=? n) && (n <=? 90))%N then ascii_of_N (n + 32) else c.

Fixpoint lower (s : string) : string :=
  match s with
  | EmptyString => EmptyString
  | String c r => String (ascii_lower c) (lower r)
  end.

(** A float given for an int: it must have no fractional part and
    lie strictly between [-2^63] and [2^63]. *)
Definition float_as_int (q : Q) : validation Z :=
  if Z.rem (Qnum q) (Zpos (Qden q)) =? 0 then
    let n := Z.quot (Qnum q) (Zpos (Qden q)) in
    if (- 2 ^ 63 <? n) && (n <? 2 ^ 63) then valid n
    else invalid int_parsing_size
  else invalid int_from_float.

Definition int_as_bool (n : Z) : validation bool :=
  if n =? 0 then valid false
  else if n =? 1 then valid true
  else invalid bool_parsing.

(** [bool], lax mode: a bool, 0 or 1, or one of the accepted words. *)
Definition validate_bool (v : json) : validation bool :=
  match v with
  | JBool b => valid b
  | JStr s =>
      let w := lower s in
      if str_in w ["0"; "off"; "f"; "false"; "n"; "no"] then valid false
      else if str_in w ["1"; "on"; "t"; "true"; "y"; "yes"] then valid true
      else invalid bool_parsing
  | JInt n => int_as_bool n
  | JFloat q =>
      match float_as_int q with
      | inl n => int_as_bool n
      | inr _ => invalid bool_parsing
      end
  | _ => invalid bool_type
  end.

(** [str]: only a string. *)
Definition validate_str (v : json) : validation string :=
  match v with
  | JStr s => valid s
  | _ => invalid string_type
  end.

(** [int], lax mode. *)
Definition validate_int (v : json) : validation Z :=
  match v with
  | JInt n => valid n
  | JBool b => valid (if b then 1 else 0)
  | JFloat q => float_as_int q
  | JStr s =>
      match str_as_int s with
      | Some n => valid n
      | None => invalid int_parsing
      end
  | _ => invalid int_type
  end.

(** [float], lax mode: a float, an int, a bool (as 0.0 or 1.0) or a
    string that reads as a number. *)
Definition validate_float (v : json) : validation Q :=
  match v with
  | JFloat q => valid q
  | JInt n => valid (inject_Z n)
  | JBool b => valid (if b then 1%Q else 0%Q)
  | JStr s =>
      match str_as_float s with
      | Some q => valid q
      | None => invalid float_parsing
      end
  | _ => invalid float_type
  end.

(** [Field(min_length=1)] *)
Definition min_length_1 (s : string) : validation string :=
  if (1 <=? String.length s)%nat then valid s else invalid string_too_short.

(** [Field(ge=0.0, le=1.0)] *)
Definition ge_0_le_1 (q : Q) : validation Q :=
  if negb (Qle_bool 0 q) then invalid greater_than_equal
  else if negb (Qle_bool q 1) then invalid less_than_equal
  else valid q.

(** [Field(ge=0)] *)
Definition ge_0 (n : Z) : validation Z :=
  if 0 <=? n then valid n else invalid greater_than_equal.

(** [T | None] *)
Definition nullable {A} (f : json -> validation A) (v : json)
  : validation (option A) :=
  match v with
  | JNull => valid None
  | _ => and_then (f v) (fun a => valid (Some a))
  end.

(** [list[T]]: every item is validated and the errors of all items are
    collected, each under its index. *)
Fixpoint validate_items {A} (f : json -> validation A) (i : nat)
    (items : list json) : validation (list A) :=
  match items with
  | [] => valid []
  | x :: rest =>
      both (both (valid cons) (at_loc (LIndex i) (f x)))
           (validate_items f (S i) rest)
  end.

Definition validate_list {A} (f : json -> validation A) (v : json)
  : validation (list A) :=
  match v with
  | JList items => validate_items f 0 items
  | _ => invalid list_type
  end.

(** A required field of a model. *)
Definition required {A} (name : string) (f : json -> validation A)
    (fields : list (string * json)) : validation A :=
  match dict_get name fields with
  | Some v => at_loc (LField name) (f v)
  | None => inr [mk_error [LField name] missing]
  end.

(** A field with a default. *)
Definition optional {A} (name : string) (default : A)
    (f : json -> validation A) (fields : list (string * json))
  : validation A :=
  match dict_get name fields with
  | Some v => at_loc (LField name) (f v)
  | None => valid default
  end.

(** ** [class ClauseExtraction(BaseModel)] *)

Record ClauseExtraction : Type := mk_clause_extraction {
  clause_type : string;
  risk_level : string;
  title : string;
  summary : string;
  original_text : string;
  page_number : option Z;
  confidence_score : Q
}.

(** [@field_validator("clause_type")] *)
Definition validate_clause_type (v : string) : validation string :=
  if str_in v _VALID_CLAUSE_TYPES then valid v
  else invalid (value_error "Invalid clause_type").

(** [@field_validator("risk_level")] *)
Definition validate_risk_level (v : string) : validation string :=
  if str_in v _VALID_RISK_LEVELS then valid v
  else invalid (value_error "Invalid risk_level").

(** Fields are validated in declaration order; the errors of all
    fields are collected. *)
Definition validate_ClauseExtraction (v : json) : validation ClauseExtraction :=
  match v with
  | JDict fields =>
      let r1 := required "clause_type"
                  (fun x => and_then (validate_str x) validate_clause_type) fields in
      let r2 := required "risk_level"
                  (fun x => and_then (validate_str x) validate_risk_level) fields in
      let r3 := required "title"
                  (fun x => and_then (validate_str x) min_length_1) fields in
      let r4 := required "summary"
                  (fun x => and_then (validate_str x) min_length_1) fields in
      let r5 := required "original_text"
                  (fun x => and_then (validate_str x) min_length_1) fields in
      let r6 := optional "page_number" None (nullable validate_int) fields in
      let r7 := required "confidence_score"
                  (fun x => and_then (validate_float x) ge_0_le_1) fields in
      both (both (both (both (both (both (both
        (valid mk_clause_extraction) r1) r2) r3) r4) r5) r6) r7
  | _ => invalid model_type
  end.

(** ** [class ExtractionMetadata(BaseModel)] *)

Record ExtractionMetadata : Type := mk_extraction_metadata {
  contract_type : string;
  parties_involved : list string;
  effective_date : option string;
  total_clauses_found : Z
}.

Definition validate_ExtractionMetadata (v : json)
  : validation ExtractionMetadata :=
  match v with
  | JDict fields =>
      let r1 := required "contract_type" validate_str fields in
      let r2 := required "parties_involved" (validate_list validate_str) fields in
      let r3 := optional "effective_date" None (nullable validate_str) fields in
      let r4 := required "total_clauses_found"
                  (fun x => and_then (validate_int x) ge_0) fields in
      both (both (both (both (valid mk_extraction_metadata) r1) r2) r3) r4
  | _ => invalid model_type
  end.

(** ** [class AIExtractionResponse(BaseModel)] *)

Record AIExtractionResponse : Type := mk_extraction_response {
  is_contract : bool;
  language : string;
  clauses : list ClauseExtraction;
  metadata : ExtractionMetadata
}.

(** [@model_validator(mode="after")]: runs on the model built from
    fields that all validated. *)
Definition check_clauses_consistent_with_contract_flag
    (self : AIExtractionResponse) : validation AIExtractionResponse :=
  if negb (is_contract self) && negb (Nat.eqb (length (clauses self)) 0) then
    invalid (value_error
      "Document marked as non-contract but clauses were returned.")
  else valid self.

Definition validate_fields (fields : list (string * json))
  : validation AIExtractionResponse :=
  let r1 := required "is_contract" validate_bool fields in
  let r2 := required "language" validate_str fields in
  let r3 := required "clauses" (validate_list validate_ClauseExtraction) fields in
  let r4 := required "metadata" validate_ExtractionMetadata fields in
  both (both (both (both (valid mk_extraction_response) r1) r2) r3) r4.

(** [AIExtractionResponse.model_validate(data)] *)
Definition model_validate (data : json) : validation AIExtractionResponse :=
  match data with
  | JDict fields =>
      and_then (validate_fields fields)
        check_clauses_consistent_with_contract_flag
  | _ => invalid model_type
  end.

End Validators.

(** ** Vocabulary of the properties *)

Definition is_invalid {A} (r : validation A) : bool :=
  match r with
  | inl _ => false
  | inr _ => true
  end.

(** The error of the cross-field rule. *)
Definition cross_field_error : error_details :=
  mk_error [] (value_error
    "Document marked as non-contract but clauses were returned.").

(** [v] is the JSON number [q]. *)
Definition json_number (v : json) (q : Q) : Prop :=
  v = JFloat q \/ exists n, v = JInt n /\ q = inject_Z n.

Definition text_fields : list string := ["title"; "summary"; "original_text"].

(** A clause entry that breaks one of the field constraints. *)
Inductive field_violation (entry : list (string * json)) : Prop :=
| confidence_out_of_range v q :
    dict_get "confidence_score" entry = Some v ->
    json_number v q ->
    (Qlt q 0 \/ Qlt 1 q) ->
    field_violation entry
| clause_type_not_member s :
    dict_get "clause_type" entry = Some (JStr s) ->
    ~ In s _VALID_CLAUSE_TYPES ->
    field_violation entry
| risk_level_not_member s :
    dict_get "risk_level" entry = Some (JStr s) ->
    ~ In s _VALID_RISK_LEVELS ->
    field_violation entry
| text_field_empty name :
    In name text_fields ->
    dict_get name entry = Some (JStr EmptyString) ->
    field_violation entry.

(** The fields of a clause entry meet every constraint, and [c] is the
    typed clause they stand for. *)
Record conforming_fields (fields : list (string * json))
    (c : ClauseExtraction) : Prop := {
  conf_clause_type :
    dict_get "clause_type" fields = Some (JStr (clause_type c))
    /\ In (clause_type c) _VALID_CLAUSE_TYPES;
  conf_risk_level :
    dict_get "risk_level" fields = Some (JStr (risk_level c))
    /\ In (risk_level c) _VALID_RISK_LEVELS;
  conf_title :
    dict_get "title" fields = Some (JStr (title c))
    /\ title c <> EmptyString;
  conf_summary :
    dict_get "summary" fields = Some (JStr (summary c))
    /\ summary c <> EmptyString;
  conf_original_text :
    dict_get "original_text" fields = Some (JStr (original_text c))
    /\ original_text c <> EmptyString;
  conf_page_number :
    match page_number c with
    | Some n => dict_get "page_number" fields = Some (JInt n)
    | None => dict_get "page_number" fields = None
              \/ dict_get "page_number" fields = Some JNull
    end;
  conf_confidence_score :
    (exists v, dict_get "confidence_score" fields = Some v
               /\ json_number v (confidence_score c))
    /\ Qle 0 (confidence_score c) /\ Qle (confidence_score c) 1
}.

Definition conforming (entry : json) (c : ClauseExtraction) : Prop :=
  exists fields, entry = JDict fields /\ conforming_fields fields c.

End Schemas.
Import Schemas.

(* ===================================================================== *)
(** * src/services/ai_client.py *)
(* ===================================================================== *)

Module AIClientMod.

(** A chat message, [{"role": ..., "content": ...}]. *)
Record message : Type := mk_message {
  role : string;
  content : string
}.

Definition message_to_json (m : message) : json :=
  JDict [("role", JStr (role m)); ("content", JStr (content m))].

(** [class AIClient(abc.ABC)]: the one abstract operation, over the
    state of the client object. *)
Class AIClient (C : Type) : Type := {
  complete : list message -> string -> expr C string
}.

(** ** The HTTP connection ([httpx.AsyncClient])

    What a [post] does is decided by the network: it raises, or a
    response arrives.  [responses] gives the outcome of the i-th
    request of the connection; [requests] logs what was posted. *)
Record Response : Type := mk_response {
  status_code : Z;
  status_error_text : string;   (* [str] of the error [raise_for_status] raises *)
  json_body : option json       (* [response.json()], if the body decodes *)
}.

Inductive post_outcome : Type :=
| PostRaises (e : exn)
| PostResponds (r : Response).

Record AsyncClient : Type := mk_async_client {
  responses : nat -> post_outcome;
  requests : list (string * json)
}.

(** [await self._client.post(path, json=body)] *)
Definition post (path : string) (body : json) : expr AsyncClient Response :=
  fun c =>
    let c' := mk_async_client (responses c) (requests c ++ [(path, body)]) in
    match responses c (length (requests c)) with
    | PostRaises e => (Raise e, c')
    | PostResponds r => (Ok r, c')
    end.

(** [response.raise_for_status()]: every status outside 2xx raises
    [httpx.HTTPStatusError]. *)
Definition raise_for_status (r : Response) : result Response :=
  if (200 <=? status_code r) && (status_code r <? 300) then Ok r
  else Raise (new_exn HTTPStatusError (status_error_text r)).

(** [type(obj).__name__] *)
Definition type_name (obj : json) : string :=
  match obj with
  | JNull => "NoneType"
  | JBool _ => "bool"
  | JInt _ => "int"
  | JFloat _ => "float"
  | JStr _ => "str"
  | JList _ => "list"
  | JDict _ => "dict"
  end.

Definition not_subscriptable (obj : json) : exn :=
  new_exn TypeError ("'" +:+ type_name obj +:+ "' object is not subscriptable").

(** [obj[key]] for a string key; [str] of a [KeyError] is the [repr]
    of the key. *)
Definition getitem_key (obj : json) (key : string) : result json :=
  match obj with
  | JDict items =>
      match dict_get key items with
      | Some v => Ok v
      | None => Raise (new_exn KeyError (repr key))
      end
  | JList _ => Raise (new_exn TypeError "list indices must be integers or slices, not str")
  | JStr _ => Raise (new_exn TypeError "string indices must be integers, not 'str'")
  | _ => Raise (not_subscriptable obj)
  end.

(** [obj[0]] *)
Definition getitem_0 (obj : json) : result json :=
  match obj with
  | JList (x :: _) => Ok x
  | JList [] => Raise (new_exn IndexError "list index out of range")
  | JStr (String c _) => Ok (JStr (String c EmptyString))
  | JStr EmptyString => Raise (new_exn IndexError "string index out of range")
  | JDict _ => Raise (new_exn KeyError "0")
  | _ => Raise (not_subscriptable obj)
  end.

Definition then_ {A B} (r : result A) (f : A -> result B) : result B :=
  match r with
  | Ok a => f a
  | Raise e => Raise e
  end.

(** The function is annotated [-> str].  A completion that is not a
    [str] fails at its first use, [raw_response.strip()], with an
    [AttributeError]; the model raises it where the value is returned.
    (Both places are under the same handlers of the Orchestrator, and
    an [AttributeError] is not retried.) *)
Definition as_str (v : json) : result string :=
  match v with
  | JStr s => Ok s
  | _ => Raise (new_exn AttributeError
                  ("'" +:+ type_name v +:+ "' object has no attribute 'strip'"))
  end.

(** [data = response.json()] *)
Definition response_json (r : Response) : result json :=
  match json_body r with
  | Some data => Ok data
  | None => Raise (new_exn JSONDecodeError "Expecting value")
  end.

(** The [try: post; raise_for_status / except httpx.TimeoutException]
    block shared by both clients. *)
Definition post_checked (provider path : string) (body : json)
  : expr AsyncClient Response :=
  fun c =>
    match post path body c with
    | (Ok response, c') =>
        match raise_for_status response with
        | Ok r => (Ok r, c')
        | Raise exc =>
            if isinstance exc TimeoutException then
              (Raise (new_exn AITimeoutError
                        (provider +:+ " request timed out: " +:+ exn_str exc)), c')
            else (Raise exc, c')
        end
    | (Raise exc, c') =>
        if isinstance exc TimeoutException then
          (Raise (new_exn AITimeoutError
                    (provider +:+ " request timed out: " +:+ exn_str exc)), c')
        else (Raise exc, c')
    end.

(** ** [class AnthropicClient(AIClient)] *)

(** The [for msg in messages] loop of [complete]. *)
Fixpoint split_messages (messages : list message) (system : string)
    (non_system : list message) : string * list message :=
  match messages with
  | [] => (system, non_system)
  | msg :: rest =>
      if String.eqb (role msg) "system" then
        split_messages rest (content msg) non_system
      else
        split_messages rest system (non_system ++ [msg])
  end.

(** The request body: [system] is set only [if system:]. *)
Definition anthropic_body (messages : list message) (model : string) : json :=
  let '(system, non_system) := split_messages messages EmptyString [] in
  let body :=
    [("model", JStr model);
     ("max_tokens", JInt 4096);
     ("messages", JList (map message_to_json non_system))] in
  JDict (if (0 <? String.length system)%nat
         then dict_set "system" (JStr system) body
         else body).

Definition anthropic_complete (messages : list message) (model : string)
  : expr AsyncClient string :=
  fun c =>
    match post_checked "Anthropic" "/v1/messages"
            (anthropic_body messages model) c with
    | (Ok response, c') =>
        (then_ (response_json response) (fun data =>
         then_ (getitem_key data "content") (fun x =>
         then_ (getitem_0 x) (fun y =>
         then_ (getitem_key y "text") as_str))), c')
    | (Raise e, c') => (Raise e, c')
    end.

(** ** [class OpenAIClient(AIClient)] *)

Definition openai_body (messages : list message) (model : string) : json :=
  JDict [("model", JStr model);
         ("messages", JList (map message_to_json messages))].

Definition openai_complete (messages : list message) (model : string)
  : expr AsyncClient string :=
  fun c =>
    match post_checked "OpenAI" "/v1/chat/completions"
            (openai_body messages model) c with
    | (Ok response, c') =>
        (then_ (response_json response) (fun data =>
         then_ (getitem_key data "choices") (fun x =>
         then_ (getitem_0 x) (fun y =>
         then_ (getitem_key y "message") (fun z =>
         then_ (getitem_key z "content") as_str)))), c')
    | (Raise e, c') => (Raise e, c')
    end.

(** The two providers are told apart by the type of the client object. *)
Record AnthropicClient : Type := mk_anthropic { anthropic_client : AsyncClient }.
Record OpenAIClient : Type := mk_openai { openai_client : AsyncClient }.

#[global] Instance AnthropicClient_AIClient : AIClient AnthropicClient := {
  complete messages model self :=
    let '(r, c) := anthropic_complete messages model (anthropic_client self) in
    (r, mk_anthropic c)
}.

#[global] Instance OpenAIClient_AIClient : AIClient OpenAIClient := {
  complete messages model self :=
    let '(r, c) := openai_complete messages model (openai_client self) in
    (r, mk_openai c)
}.

(** ** [class MockAIClient(AIClient)] (tests/conftest.py) *)

Record MockAIClient : Type := mk_mock {
  _responses : list (result string);
  mock_call_count : nat
}.

#[global] Instance MockAIClient_AIClient : AIClient MockAIClient := {
  complete messages model self :=
    match _responses self with
    | resp :: rest => (resp, mk_mock rest (S (mock_call_count self)))
    | [] => (Raise (new_exn IndexError "pop from empty list"),
             mk_mock [] (S (mock_call_count self)))
    end
}.

(** ** Vocabulary of the properties *)

(** A response outside 2xx. *)
Definition status_outside_2xx (resp : Response) : Prop :=
  status_code resp < 200 \/ 300 <= status_code resp.

Definition is_system (m : message) : bool := String.eqb (role m) "system".

Definition is_not_system (m : message) : bool := negb (is_system m).

(** The content of the last system-role message, the empty
    string if there is none. *)
Definition last_system_content (messages : list message) : string :=
  List.last (map content (List.filter is_system messages)) EmptyString.

(** [needle in hay] *)
Fixpoint occurs_in (needle hay : string) : bool :=
  match drop_prefix needle hay with
  | Some _ => true
  | None =>
      match hay with
      | EmptyString => false
      | String _ rest => occurs_in needle rest
      end
  end.

(** A prompt with two system-role messages. *)
Definition two_system_messages : list message :=
  [mk_message "system" "Be terse.";
   mk_message "system" "Answer in French.";
   mk_message "user" "Hello"].

End AIClientMod.
Import AIClientMod.

(* ===================================================================== *)
(** * src/models *)
(* ===================================================================== *)

(** Primary keys ([uuid.UUID]) and timestamps. *)
Definition uuid : Type := Z.
Definition datetime : Type := Z.

Module Document.
Record t : Type := mk {
  id : uuid;
  tenant_id : uuid;
  extracted_text : option string
}.
End Document.

Module AnalysisTemplate.
Record t : Type := mk {
  id : uuid;
  tenant_id : uuid;
  prompt_override : option string
}.
End AnalysisTemplate.

Module Analysis.
Record t : Type := mk {
  id : option uuid;              (* server default, set by the flush *)
  document_id : uuid;
  tenant_id : uuid;
  template_id : option uuid;
  status : AnalysisStatus;
  model_provider : string;
  model_name : string;
  started_at : option datetime;
  completed_at : option datetime;
  error_message : option string;
  retry_count : Z
}.
End Analysis.

Module Clause.
Record t : Type := mk {
  id : option uuid;
  analysis_id : option uuid;
  clause_type : ClauseType;
  risk_level : RiskLevel;
  title : string;
  summary : string;
  original_text : string;
  page_number : option Z;
  confidence_score : Q
}.
End Clause.

(* ===================================================================== *)
(** * src/prompts/clause_extraction.py *)
(* ===================================================================== *)

Module ClauseExtraction.

(** The module constant [SYSTEM_PROMPT], a text of some 120 lines whose
    wording no definition depends on. *)
Class PromptText : Type := { SYSTEM_PROMPT : string }.

Definition nl : string := String "010" EmptyString.

(** Truth value of a [str | None]. *)
Definition truthy (s : option string) : bool :=
  match s with
  | Some t => (0 <? String.length t)%nat
  | None => false
  end.

Definition build_extraction_prompt `{PromptText} (document_text : string)
    (template : option AnalysisTemplate.t) : list message :=
  let system_content :=
    match template with
    | Some t =>
        match AnalysisTemplate.prompt_override t with
        | Some p => if (0 <? String.length p)%nat then p else SYSTEM_PROMPT
        | None => SYSTEM_PROMPT
        end
    | None => SYSTEM_PROMPT
    end in
  [mk_message "system" system_content;
   mk_message "user" ("Analyze this document:" +:+ nl +:+ nl +:+ document_text)].

(** ** Text handling *)

(** [str.isspace] per character, which is also [\s] of [re] on [str]:
    code points 9-13, 28-32, 133 and 160 among those below 256. *)
Definition is_space (c : ascii) : bool :=
  let n := N_of_ascii c in
  (((9 <=? n) && (n <=? 13)) || ((28 <=? n) && (n <=? 32))
   || (n =? 133) || (n =? 160))%N.

(** [s.strip()] *)
Definition strip (s : string) : string := strip_by is_space s.

(** [s.startswith(prefix)] *)
Definition startswith (s prefix : string) : bool :=
  match drop_prefix prefix s with
  | Some _ => true
  | None => false
  end.

Fixpoint all_space (s : string) : bool :=
  match s with
  | EmptyString => true
  | String c r => is_space c && all_space r
  end.

(** [re.sub] of [r"^```(?:json)?\s*\n?"] by the empty string: the
    pattern matches at the start only; the greedy [\s*] takes all the
    whitespace there is, after which the optional line feed finds
    none. *)
Definition sub_opening_fence (text : string) : string :=
  match drop_prefix "```" text with
  | None => text
  | Some r =>
      let r1 := match drop_prefix "json" r with Some r' => r' | None => r end in
      let r2 := lstrip_by is_space r1 in
      match drop_prefix nl r2 with Some r3 => r3 | None => r2 end
  end.

(** The pattern [\n?```\s*$] matches at the front of [s]: an optional
    line feed, the fence, then whitespace up to the end. *)
Definition closing_fence_here (s : string) : bool :=
  match drop_prefix (nl +:+ "```") s with
  | Some r => all_space r
  | None => false
  end
  ||
  match drop_prefix "```" s with
  | Some r => all_space r
  | None => false
  end.

(** [re.sub] of [r"\n?```\s*$"] by the empty string: a match reaches
    the end of the text, so the leftmost one is the only one
    replaced. *)
Fixpoint sub_closing_fence (text : string) : string :=
  if closing_fence_here text then EmptyString
  else match text with
       | EmptyString => EmptyString
       | String c r => String c (sub_closing_fence r)
       end.

(** The longest prefix of [s] that ends with a closing brace. *)
Fixpoint up_to_last_brace (s : string) : option string :=
  match s with
  | EmptyString => None
  | String c r =>
      match up_to_last_brace r with
      | Some t => Some (String c t)
      | None => if Ascii.eqb c "}" then Some (String c EmptyString) else None
      end
  end.

(** [re.search(r"\{[\s\S]*\}", text)]: from the first opening brace to
    the last closing brace after it; [match.group()]. *)
Fixpoint search_braces (text : string) : option string :=
  match text with
  | EmptyString => None
  | String c r =>
      if Ascii.eqb c "{" then up_to_last_brace text
      else search_braces r
  end.

(** The text that is parsed: stripped, and without fences if it
    starts with one. *)
Definition unfenced (raw_response : string) : string :=
  let text := strip raw_response in
  if startswith text "```"
  then sub_closing_fence (sub_opening_fence text)
  else text.

(** The two parsing attempts; [None] is the initial [data = None]. *)
Definition parse_attempts (text : string) : option json :=
  match json_loads text with
  | Some data => Some data
  | None =>
      match search_braces text with
      | Some m => json_loads m
      | None => None
      end
  end.

Definition parse_failed (raw_response : string) : exn :=
  new_validation_error "Failed to parse AI response as JSON." raw_response.

Definition schema_failed `{PydanticCore} (errs : list error_details)
    (raw_response : string) : exn :=
  new_validation_error
    ("AI response failed schema validation: " +:+ validation_error_str errs)
    raw_response.

(** The last statement of [validate_ai_response]:
    [AIExtractionResponse.model_validate(data)], with a
    [pydantic.ValidationError] raised again as the schema-validation
    failure that carries the raw text. *)
Definition validate_payload `{PydanticCore} (raw_response : string)
    (data : json) : result AIExtractionResponse :=
  match model_validate data with
  | inl validated => Ok validated
  | inr errs => Raise (schema_failed errs raw_response)
  end.

Definition validate_ai_response `{PydanticCore} (raw_response : string)
  : result AIExtractionResponse :=
  match parse_attempts (unfenced raw_response) with
  | Some (JDict fields) => validate_payload raw_response (JDict fields)
  | _ => Raise (parse_failed raw_response)
  end.

(** ** Vocabulary of the properties *)

Fixpoint all_json_ws (s : string) : bool :=
  match s with
  | EmptyString => true
  | String c r => is_json_ws c && all_json_ws r
  end.

(** The shape of a JSON object text: an opening brace, a body, a
    closing brace, with JSON whitespace allowed before and after. *)
Definition object_text (J : string) : Prop :=
  exists a body b,
    J = a +:+ String "{" (body +:+ String "}" b)
    /\ all_json_ws a = true
    /\ all_json_ws b = true.

(** [J] in a markdown code fence: the opening fence line with its
    language tag, the text, the closing fence on a line of its own. *)
Definition fenced (tag J : string) : string :=
  "```" +:+ tag +:+ nl +:+ J +:+ nl +:+ "```".

End ClauseExtraction.
Import ClauseExtraction.

(* ===================================================================== *)
(** * src/services/analysis_service.py *)
(* ===================================================================== *)

Module AnalysisServiceMod.

(** ** The database session ([AsyncSession])

    Tables are lists of rows.  The session keeps the objects handed to
    [add], in order; an object is known by its position there, and an
    attribute assigned after [add] is assigned to the object the
    session holds.  [committed] records what each [commit] wrote.
    The [SELECT] statements go through; [scalar_one_or_none] refuses
    several rows; what a flush, a commit and a refresh meet is the
    database's to decide ([Database] below). *)
Inductive db_object : Type :=
| AnalysisObj (a : Analysis.t)
| ClauseObj (c : Clause.t).

Record AsyncSession : Type := mk_session {
  documents : list Document.t;
  analysis_templates : list AnalysisTemplate.t;
  added_objects : list db_object;
  next_uuid : uuid;
  flush_count : nat;
  committed : list (list db_object)
}.

(** The database behind the session is outside the repository: the
    statements of a flush, a commit or a refresh go through, or the
    awaited call raises (a constraint or a column type refuses a row,
    the connection is lost).  Which, the database decides from the
    session it is given: [None] says the call goes through.  A call
    that raises leaves the session as it was. *)
Class Database : Type := {
  flush_failure : AsyncSession -> option exn;
  commit_failure : AsyncSession -> option exn;
  refresh_failure : AsyncSession -> option exn
}.

(** A database that accepts every statement. *)
#[global] Instance reliable_database : Database := {
  flush_failure _ := None;
  commit_failure _ := None;
  refresh_failure _ := None
}.

(** The world an invocation runs in: the session, the client object,
    the cell [attempt_counter], the clock and the delays slept. *)
Record World (C : Type) : Type := mk_world {
  db : AsyncSession;
  ai : C;
  attempt_counter : Z;
  clock : nat -> datetime;
  clock_reads : nat;
  sleeps : list Q
}.
Arguments mk_world {C}.
Arguments db {C}.
Arguments ai {C}.
Arguments attempt_counter {C}.
Arguments clock {C}.
Arguments clock_reads {C}.
Arguments sleeps {C}.

#[global] Instance World_loop {C} : EventLoop (World C) := {
  asyncio_sleep d w :=
    mk_world (db w) (ai w) (attempt_counter w) (clock w) (clock_reads w)
      (sleeps w ++ [d])
}.

Section Service.
Context {C : Type} `{AIClient C} `{PydanticCore} `{PromptText} `{Database}.

Definition with_db (f : AsyncSession -> AsyncSession) (w : World C) : World C :=
  mk_world (f (db w)) (ai w) (attempt_counter w) (clock w) (clock_reads w)
    (sleeps w).

Definition set_attempt_counter (n : Z) (w : World C) : World C :=
  mk_world (db w) (ai w) n (clock w) (clock_reads w) (sleeps w).

(** [datetime.now(timezone.utc)] *)
Definition now : expr (World C) datetime :=
  fun w =>
    (Ok (clock w (clock_reads w)),
     mk_world (db w) (ai w) (attempt_counter w) (clock w)
       (S (clock_reads w)) (sleeps w)).

(** [result.scalar_one_or_none()] *)
Definition scalar_one_or_none {A} (rows : list A) : result (option A) :=
  match rows with
  | [] => Ok None
  | [row] => Ok (Some row)
  | _ => Raise (new_exn MultipleResultsFound
                  "Multiple rows were found when one or none was required")
  end.

(** [select(Document).where(Document.id == document_id,
                            Document.tenant_id == tenant_id)]
    followed by [scalar_one_or_none()]. *)
Definition find_document (document_id tenant_id : uuid) (s : AsyncSession)
  : result (option Document.t) :=
  scalar_one_or_none
    (List.filter
       (fun d => (Document.id d =? document_id)
                 && (Document.tenant_id d =? tenant_id))
       (documents s)).

Definition select_document (document_id tenant_id : uuid)
  : expr (World C) (option Document.t) :=
  fun w => (find_document document_id tenant_id (db w), w).

(** The template lookup, made only [if template_id is not None]. *)
Definition find_template (template_id : option uuid) (tenant_id : uuid)
    (s : AsyncSession) : result (option AnalysisTemplate.t) :=
  match template_id with
  | Some tid =>
      scalar_one_or_none
        (List.filter
           (fun t => (AnalysisTemplate.id t =? tid)
                     && (AnalysisTemplate.tenant_id t =? tenant_id))
           (analysis_templates s))
  | None => Ok None
  end.

Definition select_template (template_id : option uuid) (tenant_id : uuid)
  : expr (World C) (option AnalysisTemplate.t) :=
  fun w => (find_template template_id tenant_id (db w), w).

(** [self._db.add(obj)]; the result is the position of the object. *)
Definition db_add (obj : db_object) : expr (World C) nat :=
  fun w =>
    (Ok (length (added_objects (db w))),
     with_db (fun s =>
       mk_session (documents s) (analysis_templates s)
         (added_objects s ++ [obj]) (next_uuid s) (flush_count s)
         (committed s)) w).

(** The primary key a flush gives an object that has none. *)
Definition with_id (obj : db_object) (key : uuid) : db_object :=
  match obj with
  | AnalysisObj a =>
      AnalysisObj
        (Analysis.mk (Some key) (Analysis.document_id a) (Analysis.tenant_id a)
           (Analysis.template_id a) (Analysis.status a)
           (Analysis.model_provider a) (Analysis.model_name a)
           (Analysis.started_at a) (Analysis.completed_at a)
           (Analysis.error_message a) (Analysis.retry_count a))
  | ClauseObj c =>
      ClauseObj
        (Clause.mk (Some key) (Clause.analysis_id c) (Clause.clause_type c)
           (Clause.risk_level c) (Clause.title c) (Clause.summary c)
           (Clause.original_text c) (Clause.page_number c)
           (Clause.confidence_score c))
  end.

Definition object_id (obj : db_object) : option uuid :=
  match obj with
  | AnalysisObj a => Analysis.id a
  | ClauseObj c => Clause.id c
  end.

Fixpoint assign_ids (objs : list db_object) (next : uuid)
  : list db_object * uuid :=
  match objs with
  | [] => ([], next)
  | obj :: rest =>
      match object_id obj with
      | Some _ =>
          let '(rest', next') := assign_ids rest next in (obj :: rest', next')
      | None =>
          let '(rest', next') := assign_ids rest (next + 1) in
          (with_id obj next :: rest', next')
      end
  end.

Definition flush_session (s : AsyncSession) : AsyncSession :=
  let '(objs, next) := assign_ids (added_objects s) (next_uuid s) in
  mk_session (documents s) (analysis_templates s) objs next
    (S (flush_count s)) (committed s).

(** [await self._db.flush()] *)
Definition db_flush : expr (World C) unit :=
  fun w =>
    match flush_failure (db w) with
    | Some exc => (Raise exc, w)
    | None => (Ok tt, with_db flush_session w)
    end.

(** What a commit does to the session: it flushes, then writes. *)
Definition commit_session (s : AsyncSession) : AsyncSession :=
  let s' := flush_session s in
  mk_session (documents s') (analysis_templates s') (added_objects s')
    (next_uuid s') (flush_count s')
    (committed s' ++ [added_objects s']).

(** [await self._db.commit()] *)
Definition db_commit : expr (World C) unit :=
  fun w =>
    match commit_failure (db w) with
    | Some exc => (Raise exc, w)
    | None => (Ok tt, with_db commit_session w)
    end.

(** [await self._db.refresh(analysis)] *)
Definition db_refresh (analysis : nat) : expr (World C) unit :=
  fun w =>
    match refresh_failure (db w) with
    | Some exc => (Raise exc, w)
    | None => (Ok tt, w)
    end.

(** Reading the object behind [analysis]. *)
Definition get_analysis (analysis : nat) : expr (World C) Analysis.t :=
  fun w =>
    match added_objects (db w) !! analysis with
    | Some (AnalysisObj a) => (Ok a, w)
    | _ => (Raise (new_exn RuntimeError "not an Analysis"), w)
    end.

Definition on_analysis (f : Analysis.t -> Analysis.t) (obj : db_object)
  : db_object :=
  match obj with
  | AnalysisObj a => AnalysisObj (f a)
  | ClauseObj c => ClauseObj c
  end.

(** Assigning attributes of the object behind [analysis]. *)
Definition set_analysis (analysis : nat) (f : Analysis.t -> Analysis.t)
    (w : World C) : World C :=
  with_db (fun s =>
    mk_session (documents s) (analysis_templates s)
      (alter (on_analysis f) analysis (added_objects s))
      (next_uuid s) (flush_count s) (committed s)) w.

Definition set_status (st : AnalysisStatus) (a : Analysis.t) : Analysis.t :=
  Analysis.mk (Analysis.id a) (Analysis.document_id a) (Analysis.tenant_id a)
    (Analysis.template_id a) st (Analysis.model_provider a)
    (Analysis.model_name a) (Analysis.started_at a) (Analysis.completed_at a)
    (Analysis.error_message a) (Analysis.retry_count a).

Definition set_completed_at (t : datetime) (a : Analysis.t) : Analysis.t :=
  Analysis.mk (Analysis.id a) (Analysis.document_id a) (Analysis.tenant_id a)
    (Analysis.template_id a) (Analysis.status a) (Analysis.model_provider a)
    (Analysis.model_name a) (Analysis.started_at a) (Some t)
    (Analysis.error_message a) (Analysis.retry_count a).

Definition set_error_message (m : string) (a : Analysis.t) : Analysis.t :=
  Analysis.mk (Analysis.id a) (Analysis.document_id a) (Analysis.tenant_id a)
    (Analysis.template_id a) (Analysis.status a) (Analysis.model_provider a)
    (Analysis.model_name a) (Analysis.started_at a) (Analysis.completed_at a)
    (Some m) (Analysis.retry_count a).

Definition set_retry_count (n : Z) (a : Analysis.t) : Analysis.t :=
  Analysis.mk (Analysis.id a) (Analysis.document_id a) (Analysis.tenant_id a)
    (Analysis.template_id a) (Analysis.status a) (Analysis.model_provider a)
    (Analysis.model_name a) (Analysis.started_at a) (Analysis.completed_at a)
    (Analysis.error_message a) n.

(** [ClauseType(value)] and [RiskLevel(value)] *)
Definition ClauseType_call (value : string) : result ClauseType :=
  match ClauseType_of value with
  | Some m => Ok m
  | None => Raise (new_exn ValueError
                     (repr value +:+ " is not a valid ClauseType"))
  end.

Definition RiskLevel_call (value : string) : result RiskLevel :=
  match RiskLevel_of value with
  | Some m => Ok m
  | None => Raise (new_exn ValueError
                     (repr value +:+ " is not a valid RiskLevel"))
  end.

(** ** [AnalysisService.analyze_document] *)

Definition default_model_provider : string := "anthropic".
Definition default_model_name : string := "claude-sonnet-4-5-20250514".

(** [Analysis(document_id=..., ..., status=PROCESSING, ...)]; the
    columns not given take their defaults. *)
Definition new_analysis (document : Document.t)
    (template : option AnalysisTemplate.t) (model_provider model_name : string)
    (started_at : datetime) : Analysis.t :=
  Analysis.mk None (Document.id document) (Document.tenant_id document)
    (match template with
     | Some t => Some (AnalysisTemplate.id t)
     | None => None
     end)
    PROCESSING model_provider model_name (Some started_at) None None 0.

(** The closure [_call_ai]; [document_text] is
    [document.extracted_text], a non-empty string at this point. *)
Definition _call_ai (document_text : string)
    (template : option AnalysisTemplate.t) (model_name : string)
  : expr (World C) string :=
  fun w =>
    let w1 := set_attempt_counter (attempt_counter w + 1) w in
    let messages := build_extraction_prompt document_text template in
    let '(r, c) := complete messages model_name (ai w1) in
    (r, mk_world (db w1) c (attempt_counter w1) (clock w1) (clock_reads w1)
          (sleeps w1)).

(** [for clause_data in validated.clauses: ... self._db.add(clause)] *)
Fixpoint add_clauses (analysis : nat) (cs : list ClauseExtraction)
  : stmt (World C) Analysis.t :=
  match cs with
  | [] => skip
  | clause_data :: rest =>
      (a <~ get_analysis analysis ;;;
       ct <~ lift (ClauseType_call (Schemas.clause_type clause_data)) ;;;
       rl <~ lift (RiskLevel_call (Schemas.risk_level clause_data)) ;;;
       _ <~ db_add (ClauseObj
              (Clause.mk None (Analysis.id a) ct rl
                 (Schemas.title clause_data) (Schemas.summary clause_data)
                 (Schemas.original_text clause_data)
                 (Schemas.page_number clause_data)
                 (Schemas.confidence_score clause_data))) ;;;
       add_clauses analysis rest)%stmt
  end.

(** The body of the [try]. *)
Definition ai_call_and_persist (analysis : nat) (document_text : string)
    (template : option AnalysisTemplate.t) (model_name : string)
  : stmt (World C) Analysis.t :=
  (raw_response <~ retry_with_backoff
                     (_call_ai document_text template model_name)
                     3 1%Q default_retryable_exceptions ;;;
   validated <~ lift (validate_ai_response raw_response) ;;;
   add_clauses analysis (clauses validated) ;;;
   exec (set_analysis analysis (set_status COMPLETED)) ;;;
   t <~ now ;;;
   exec (set_analysis analysis (set_completed_at t)))%stmt.

(** The three [except] clauses, in order. *)
Definition failure_handlers (analysis : nat)
  : list (@handler (World C) Analysis.t) :=
  [ ((fun exc => isinstance exc AITimeoutError),
     (fun exc =>
        exec (set_analysis analysis (set_status TIMED_OUT)) ;;;
        exec (set_analysis analysis (set_error_message (exn_str exc)))))%stmt;
    ((fun exc => isinstance exc AIResponseValidationError),
     (fun exc =>
        exec (set_analysis analysis (set_status FAILED)) ;;;
        exec (set_analysis analysis (set_error_message (exn_str exc)))))%stmt;
    ((fun exc => isinstance exc Exception),
     (fun exc =>
        exec (set_analysis analysis (set_status FAILED)) ;;;
        exec (set_analysis analysis (set_error_message (exn_str exc)))))%stmt ].

(** The [finally] block. *)
Definition finalize (analysis : nat) : stmt (World C) Analysis.t :=
  (exec (fun w =>
           set_analysis analysis
             (set_retry_count (Z.max (attempt_counter w - 1) 0)) w) ;;;
   _ <~ db_commit ;;;
   skip)%stmt.

Definition analyze_document (document_id tenant_id : uuid)
    (template_id : option uuid) (model_provider model_name : string)
  : expr (World C) (option Analysis.t) :=
  call
    (document <~ select_document document_id tenant_id ;;;
     match document with
     | None =>
         raise_ (new_exn DocumentNotFoundError
                   ("Document " +:+ pretty document_id
                    +:+ " not found for tenant " +:+ pretty tenant_id))
     | Some document =>
         match Document.extracted_text document with
         | Some (String c rest) =>
             let document_text := String c rest in
             template <~ select_template template_id tenant_id ;;;
             started_at <~ now ;;;
             analysis <~ db_add (AnalysisObj
               (new_analysis document template model_provider model_name
                  started_at)) ;;;
             _ <~ db_flush ;;;
             exec (set_attempt_counter 0) ;;;
             try_except_finally
               (ai_call_and_persist analysis document_text template model_name)
               (failure_handlers analysis)
               (finalize analysis) ;;;
             _ <~ db_refresh analysis ;;;
             a <~ get_analysis analysis ;;;
             return_ a
         | _ =>
             raise_ (new_exn EmptyDocumentError
                       ("Document " +:+ pretty document_id
                        +:+ " has no extracted text"))
         end
     end)%stmt.

(** ** Vocabulary of the properties *)

(** The world in which the first flush is awaited: the clock read
    and the new Analysis added to the session. *)
Definition created (w : World C) (document : Document.t)
    (template : option AnalysisTemplate.t) (model_provider model_name : string)
  : World C :=
  let '(_, w1) := now w in
  let '(_, w2) :=
    db_add (AnalysisObj
              (new_analysis document template model_provider model_name
                 (clock w (clock_reads w)))) w1 in
  w2.

(** The world in which the [try] statement starts: the clock read,
    the new Analysis added and flushed, the counter at zero. *)
Definition started (w : World C) (document : Document.t)
    (template : option AnalysisTemplate.t) (model_provider model_name : string)
  : World C :=
  set_attempt_counter 0
    (with_db flush_session (created w document template model_provider
                              model_name)).

(** The world a commit leaves. *)
Definition committed_world (w : World C) : World C :=
  with_db commit_session w.

(** The way out of the [finally] block and of the function, from the
    world [w] in which the commit is awaited: a failure of the commit
    or of the refresh goes to the caller, otherwise the Analysis [a]
    is returned. *)
Definition way_out (a : Analysis.t) (w : World C)
  : result (option Analysis.t) * World C :=
  match commit_failure (db w) with
  | Some exc => (Raise exc, w)
  | None =>
      match refresh_failure (db (committed_world w)) with
      | Some exc => (Raise exc, committed_world w)
      | None => (Ok (Some a), committed_world w)
      end
  end.

(** The object has a primary key. *)
Definition has_id (obj : db_object) : Prop := is_Some (object_id obj).

(** The session while an analysis runs: the objects that were there
    before, the Analysis, the clauses added for it. *)
Definition session_with (s : AsyncSession) (pre : list db_object)
    (a : Analysis.t) (rows : list Clause.t) : AsyncSession :=
  mk_session (documents s) (analysis_templates s)
    (pre ++ AnalysisObj a :: map ClauseObj rows)
    (next_uuid s) (flush_count s) (committed s).

Definition world_with (w : World C) (s : AsyncSession) : World C :=
  mk_world s (ai w) (attempt_counter w) (clock w) (clock_reads w) (sleeps w).

(** The Analysis as the first flush leaves it. *)
Definition flushed_analysis (document : Document.t)
    (template : option AnalysisTemplate.t) (model_provider model_name : string)
    (started_at : datetime) (key : uuid) : Analysis.t :=
  Analysis.mk (Some key) (Document.id document) (Document.tenant_id document)
    (match template with
     | Some t => Some (AnalysisTemplate.id t)
     | None => None
     end)
    PROCESSING model_provider model_name (Some started_at) None None 0.

(** The world after one more reading of the clock. *)
Definition tick (w : World C) : World C :=
  mk_world (db w) (ai w) (attempt_counter w) (clock w) (S (clock_reads w))
    (sleeps w).

(** The stored clause [row] is the validated entry [entry], owned by
    the Analysis [a]. *)
Definition clause_of (a : Analysis.t) (entry : ClauseExtraction)
    (row : Clause.t) : Prop :=
  Clause.analysis_id row = Analysis.id a
  /\ ClauseType_value (Clause.clause_type row) = Schemas.clause_type entry
  /\ RiskLevel_value (Clause.risk_level row) = Schemas.risk_level entry
  /\ Clause.title row = Schemas.title entry
  /\ Clause.summary row = Schemas.summary entry
  /\ Clause.original_text row = Schemas.original_text entry
  /\ Clause.page_number row = Schemas.page_number entry
  /\ Clause.confidence_score row = Schemas.confidence_score entry.

(** What the session holds from position [from] on. *)
Definition added_since (from : nat) (w : World C) : list db_object :=
  drop from (added_objects (db w)).

(** The branch taken, read off the outcome [r] of the retried call:
    the terminal status, the error message, the completion time and
    the objects added for the Analysis [a]. *)
Definition branch_taken (r : result string) (completed : datetime)
    (a : Analysis.t) (objs : list db_object) : Prop :=
  match r with
  | Ok raw_response =>
      match validate_ai_response raw_response with
      | Ok validated =>
          Analysis.status a = COMPLETED
          /\ Analysis.completed_at a = Some completed
          /\ Analysis.error_message a = None
          /\ exists rows,
               objs = AnalysisObj a :: map ClauseObj rows
               /\ Forall2 (clause_of a) (clauses validated) rows
      | Raise exc =>
          Analysis.status a = FAILED
          /\ Analysis.completed_at a = None
          /\ Analysis.error_message a = Some (exn_str exc)
          /\ objs = [AnalysisObj a]
      end
  | Raise exc =>
      Analysis.status a
      = (if isinstance exc AITimeoutError then TIMED_OUT else FAILED)
      /\ Analysis.completed_at a = None
      /\ Analysis.error_message a = Some (exn_str exc)
      /\ objs = [AnalysisObj a]
  end.

End Service.

End AnalysisServiceMod.
Import AnalysisServiceMod.

(* ===================================================================== *)
(** * src/workers/worker.py *)
(* ===================================================================== *)

Module Worker.

(** A queued job, [{"document_id", "tenant_id", "message_id"}]. *)
Record Job : Type := mk_job {
  document_id : uuid;
  tenant_id : uuid;
  message_id : string
}.

(** The calls the worker makes on the queue. *)
Inductive queue_call : Type :=
| Ack (job : Job)
| Requeue (job : Job) (delay : Z).

(** The commands the worker sends to Redis. *)
Inductive redis_command : Type :=
| SetNx (key value : string)
| Delete (key : string).

(** The worker's world: the Redis key space (expiry is not modelled),
    the locks currently held by any worker, the calls made on the
    queue so far, the invocations of the Orchestrator so far, and the
    world [S] the Orchestrator runs in. *)
Record WorkerWorld (S : Type) : Type := mk_worker_world {
  redis_keys : gmap string string;
  held_locks : gset string;
  queue_calls : list queue_call;
  analyze_calls : list (uuid * uuid);
  service_world : S
}.
Arguments mk_worker_world {S}.
Arguments redis_keys {S}.
Arguments held_locks {S}.
Arguments queue_calls {S}.
Arguments analyze_calls {S}.
Arguments service_world {S}.

(** Redis and the queue are services outside the repository: a
    command or a call goes through, or it raises (a lost connection,
    a timeout).  Which, the service decides: [None] says it goes
    through.  A command that raises has not been carried out; a call
    on the queue that raises has still been made. *)
Class Services (S : Type) : Type := {
  redis_failure : redis_command -> WorkerWorld S -> option exn;
  queue_failure : queue_call -> WorkerWorld S -> option exn
}.

(** Services that are up: every command and every call goes through. *)
#[global] Instance reliable_services {S : Type} : Services S := {
  redis_failure _ _ := None;
  queue_failure _ _ := None
}.

Section AnalysisWorker.
Context {S : Type} `{Services S}.

(** What the block under the lock does with the job: open a session,
    build [AnalysisService] and await [service.analyze_document]. *)
Variable analyze_document : uuid -> uuid -> expr S (option Analysis.t).

(** [await self._redis.set(key, value, nx=True, ex=...)]: sets the key
    and returns [True] if it is absent, else returns [None]. *)
Definition redis_set_nx (key value : string) : expr (WorkerWorld S) bool :=
  fun w =>
    match redis_failure (SetNx key value) w with
    | Some exc => (Raise exc, w)
    | None =>
        match redis_keys w !! key with
        | Some _ => (Ok false, w)
        | None =>
            (Ok true,
             mk_worker_world (<[key := value]> (redis_keys w)) (held_locks w)
               (queue_calls w) (analyze_calls w) (service_world w))
        end
    end.

(** [await self._redis.delete(key)] *)
Definition redis_delete (key : string) : expr (WorkerWorld S) unit :=
  fun w =>
    match redis_failure (Delete key) w with
    | Some exc => (Raise exc, w)
    | None =>
        (Ok tt,
         mk_worker_world (delete key (redis_keys w)) (held_locks w)
           (queue_calls w) (analyze_calls w) (service_world w))
    end.

Definition queue_do (c : queue_call) : expr (WorkerWorld S) unit :=
  fun w =>
    (match queue_failure c w with
     | Some exc => Raise exc
     | None => Ok tt
     end,
     mk_worker_world (redis_keys w) (held_locks w) (queue_calls w ++ [c])
       (analyze_calls w) (service_world w)).

(** [await self._queue.ack(job)] *)
Definition queue_ack (job : Job) : expr (WorkerWorld S) unit :=
  queue_do (Ack job).

(** [await self._queue.requeue(job, delay=...)] *)
Definition queue_requeue (job : Job) (delay : Z) : expr (WorkerWorld S) unit :=
  queue_do (Requeue job delay).

(** The world after the call [c] on the queue has been made. *)
Definition called (c : queue_call) (w : WorkerWorld S) : WorkerWorld S :=
  mk_worker_world (redis_keys w) (held_locks w) (queue_calls w ++ [c])
    (analyze_calls w) (service_world w).

(** The world after the key has been set. *)
Definition marked (key : string) (w : WorkerWorld S) : WorkerWorld S :=
  mk_worker_world (<[key := "1"]> (redis_keys w)) (held_locks w)
    (queue_calls w) (analyze_calls w) (service_world w).

Definition set_locks (locks : gset string) (w : WorkerWorld S) : WorkerWorld S :=
  mk_worker_world (redis_keys w) locks (queue_calls w) (analyze_calls w)
    (service_world w).

(** [async with self._redis.lock(key, timeout=...)]: entering raises
    [LockAcquisitionError] when the lock is held; the lock is released
    on every way out of the block. *)
Definition async_with_lock {R} (key : string) (body : stmt (WorkerWorld S) R)
  : stmt (WorkerWorld S) R :=
  fun w =>
    if decide (key ∈ held_locks w) then
      (Throw (new_exn LockAcquisitionError "lock is held"), w)
    else
      let '(c, w') := body (set_locks ({[key]} ∪ held_locks w) w) in
      (c, set_locks (held_locks w' ∖ {[key]}) w').

(** The invocation of the Orchestrator, noted in [analyze_calls]. *)
Definition run_analysis (document_id tenant_id : uuid)
  : expr (WorkerWorld S) (option Analysis.t) :=
  fun w =>
    let '(r, s) := analyze_document document_id tenant_id (service_world w) in
    (r, mk_worker_world (redis_keys w) (held_locks w) (queue_calls w)
          (analyze_calls w ++ [(document_id, tenant_id)]) s).

(** [analysis.id, analysis.status], read for the log line. *)
Definition read_outcome (analysis : option Analysis.t)
  : result (option uuid * AnalysisStatus) :=
  match analysis with
  | Some a => Ok (Analysis.id a, Analysis.status a)
  | None => Raise (new_exn AttributeError
                     "'NoneType' object has no attribute 'id'")
  end.

Definition dedup_key_of (job : Job) : string :=
  "analysis:processed:" +:+ message_id job.

Definition lock_key_of (job : Job) : string :=
  "analysis:lock:" +:+ pretty (document_id job).

(** [AnalysisWorker._process_job] *)
Definition _process_job (job : Job) : stmt (WorkerWorld S) unit :=
  let dedup_key := dedup_key_of job in
  (already_processed <~ redis_set_nx dedup_key "1" ;;;
   if negb already_processed then
     (_ <~ queue_ack job ;;;
      return_ tt)
   else
     let lock_key := lock_key_of job in
     try_except_finally
       (async_with_lock lock_key
          (analysis <~ run_analysis (document_id job) (tenant_id job) ;;;
           _ <~ lift (read_outcome analysis) ;;;
           skip))
       [ ((fun exc => isinstance exc LockAcquisitionError),
          (fun _ =>
             _ <~ queue_requeue job 30 ;;;
             return_ tt));
         ((fun exc => isinstance exc Exception),
          (fun _ =>
             _ <~ redis_delete dedup_key ;;;
             skip)) ]
       (_ <~ queue_ack job ;;;
        skip))%stmt.

End AnalysisWorker.

(** ** A job whose document is being processed elsewhere *)

Definition contended_job : Job := mk_job 11 22 "msg-1".

Definition contended_world : WorkerWorld unit :=
  mk_worker_world ∅ {[lock_key_of contended_job]} [] [] tt.

(** An Orchestrator that is never reached in the samples. *)
Definition no_service (d t : uuid) : expr unit (option Analysis.t) :=
  lift (Ok None).

End Worker.

(* ===================================================================== *)
(** * tests/conftest.py: sample data *)
(* ===================================================================== *)

Module Conftest.

(** [json.dumps] of the fixture dictionaries. *)
Definition VALID_AI_RESPONSE : string := json_text
  ("{'is_contract': true, 'language': 'English', 'clauses': ["
   +:+ "{'clause_type': 'AUTO_RENEWAL', 'risk_level': 'HIGH', "
   +:+ "'title': 'Auto-Renewal Clause', "
   +:+ "'summary': 'Contract auto-renews annually.', "
   +:+ "'original_text': 'This agreement shall automatically renew.', "
   +:+ "'page_number': 1, 'confidence_score': 0.95}, "
   +:+ "{'clause_type': 'LIABILITY', 'risk_level': 'CRITICAL', "
   +:+ "'title': 'Limitation of Liability', "
   +:+ "'summary': 'Provider liability is capped.', "
   +:+ "'original_text': 'In no event shall liability exceed fees paid.', "
   +:+ "'page_number': 2, 'confidence_score': 0.92}, "
   +:+ "{'clause_type': 'TERMINATION', 'risk_level': 'MEDIUM', "
   +:+ "'title': 'Termination for Convenience', "
   +:+ "'summary': 'Either party may terminate with 30 days notice.', "
   +:+ "'original_text': 'Either party may terminate upon 30 days written notice.', "
   +:+ "'page_number': 3, 'confidence_score': 0.88}], "
   +:+ "'metadata': {'contract_type': 'Service Agreement', "
   +:+ "'parties_involved': ['Acme Corp', 'Beta LLC'], "
   +:+ "'effective_date': '2024-01-01', 'total_clauses_found': 3}}").

Definition NON_CONTRACT_RESPONSE : string := json_text
  ("{'is_contract': false, 'language': 'English', 'clauses': [], "
   +:+ "'metadata': {'contract_type': 'N/A', 'parties_involved': [], "
   +:+ "'effective_date': null, 'total_clauses_found': 0}}").

Definition MALFORMED_JSON : string := json_text
  "{'clauses': [{'clause_type': 'AUTO_RENEWAL'".

(** The payload of [test_confidence_out_of_bounds]
    (tests/test_prompt_validation.py). *)
Definition CONFIDENCE_OUT_OF_BOUNDS : string := json_text
  ("{'is_contract': true, 'language': 'English', 'clauses': ["
   +:+ "{'clause_type': 'LIABILITY', 'risk_level': 'HIGH', "
   +:+ "'title': 'Overbounded', 'summary': 'Confidence too high', "
   +:+ "'original_text': 'Some text here', 'page_number': 1, "
   +:+ "'confidence_score': 1.5}], "
   +:+ "'metadata': {'contract_type': 'Test', 'parties_involved': ['A'], "
   +:+ "'effective_date': null, 'total_clauses_found': 1}}").

(** A well-formed clause in a payload marked as no contract. *)
Definition NON_CONTRACT_WITH_CLAUSE : string := json_text
  ("{'is_contract': false, 'language': 'English', 'clauses': ["
   +:+ "{'clause_type': 'LIABILITY', 'risk_level': 'HIGH', "
   +:+ "'title': 'Cap', 'summary': 'Liability is capped.', "
   +:+ "'original_text': 'Liability shall not exceed fees.', "
   +:+ "'confidence_score': 0.9}], "
   +:+ "'metadata': {'contract_type': 'N/A', 'parties_involved': [], "
   +:+ "'effective_date': null, 'total_clauses_found': 1}}").

(** The typed clauses of [VALID_AI_RESPONSE]. *)
Definition VALID_CLAUSES : list ClauseExtraction :=
  [mk_clause_extraction "AUTO_RENEWAL" "HIGH" "Auto-Renewal Clause"
     "Contract auto-renews annually."
     "This agreement shall automatically renew." (Some 1) (95 # 100);
   mk_clause_extraction "LIABILITY" "CRITICAL" "Limitation of Liability"
     "Provider liability is capped."
     "In no event shall liability exceed fees paid." (Some 2) (92 # 100);
   mk_clause_extraction "TERMINATION" "MEDIUM" "Termination for Convenience"
     "Either party may terminate with 30 days notice."
     "Either party may terminate upon 30 days written notice." (Some 3)
     (88 # 100)].

(** The same fixtures as the dictionaries [model_validate] is given. *)
Definition clause_entry (clause_type risk_level title summary original_text
    : string) (page_number : Z) (confidence_score : Q) : json :=
  JDict [("clause_type", JStr clause_type);
         ("risk_level", JStr risk_level);
         ("title", JStr title);
         ("summary", JStr summary);
         ("original_text", JStr original_text);
         ("page_number", JInt page_number);
         ("confidence_score", JFloat confidence_score)].

Definition VALID_PAYLOAD : list (string * json) :=
  [("is_contract", JBool true);
   ("language", JStr "English");
   ("clauses",
    JList [clause_entry "AUTO_RENEWAL" "HIGH" "Auto-Renewal Clause"
             "Contract auto-renews annually."
             "This agreement shall automatically renew." 1 (95 # 100);
           clause_entry "LIABILITY" "CRITICAL" "Limitation of Liability"
             "Provider liability is capped."
             "In no event shall liability exceed fees paid." 2 (92 # 100);
           clause_entry "TERMINATION" "MEDIUM" "Termination for Convenience"
             "Either party may terminate with 30 days notice."
             "Either party may terminate upon 30 days written notice." 3
             (88 # 100)]);
   ("metadata",
    JDict [("contract_type", JStr "Service Agreement");
           ("parties_involved", JList [JStr "Acme Corp"; JStr "Beta LLC"]);
           ("effective_date", JStr "2024-01-01");
           ("total_clauses_found", JInt 3)])].

Definition OUT_OF_BOUNDS_PAYLOAD : list (string * json) :=
  [("is_contract", JBool true);
   ("language", JStr "English");
   ("clauses",
    JList [clause_entry "LIABILITY" "HIGH" "Overbounded"
             "Confidence too high" "Some text here" 1 (15 # 10)]);
   ("metadata",
    JDict [("contract_type", JStr "Test");
           ("parties_involved", JList [JStr "A"]);
           ("effective_date", JNull);
           ("total_clauses_found", JInt 1)])].

(** The [clauses] of a payload. *)
Definition entries_of (data : list (string * json)) : list json :=
  match dict_get "clauses" data with
  | Some (JList cs) => cs
  | _ => []
  end.

(** The items of the dictionary a sample text decodes to. *)
Definition items_of (text : string) : list (string * json) :=
  match json_loads text with
  | Some (JDict items) => items
  | _ => []
  end.

Definition clauses_of (text : string) : list json :=
  match dict_get "clauses" (items_of text) with
  | Some (JList cs) => cs
  | _ => []
  end.

(** A validation library for running the samples: strings are not
    taken for numbers, and an error list prints as its length in
    strokes. *)
#[global] Instance plain_core : PydanticCore := {
  str_as_int _ := None;
  str_as_float _ := None;
  validation_error_str errs :=
    fold_right (fun _ acc => String "|" acc) EmptyString errs
}.

#[global] Instance short_prompt : PromptText := {
  SYSTEM_PROMPT := "You are a legal document analysis assistant."
}.

(** [_make_document] and the session fixture
    (tests/test_analysis_service.py). *)
Definition make_document (extracted_text : option string) : Document.t :=
  Document.mk 11 22 extracted_text.

Definition mock_db_session (rows : list Document.t) : AsyncSession :=
  mk_session rows [] [] 1000 0 [].

Definition mock_world (rows : list Document.t)
    (responses : list (result string)) : World MockAIClient :=
  mk_world (mock_db_session rows) (mk_mock responses 0) 0
    (fun i => 1700000000 + Z.of_nat i) 0 [].

Definition timeout (message : string) : result string :=
  Raise (new_exn AITimeoutError message).

(** A document with text, and the worlds of [test_retry_then_success],
    [test_document_not_found] and [test_empty_document]. *)
Definition contract : Document.t := make_document (Some "Some contract text").

Definition retry_then_success_world : World MockAIClient :=
  mock_world [contract]
    [timeout "timeout 1"; timeout "timeout 2"; Ok VALID_AI_RESPONSE].

Definition no_document_world : World MockAIClient :=
  mock_world [] [Ok VALID_AI_RESPONSE].

(** The document of tenant 22, asked for by tenant 23. *)
Definition other_tenant : uuid := 23.

Definition empty_document_world : World MockAIClient :=
  mock_world [make_document (Some EmptyString)] [Ok VALID_AI_RESPONSE].

(** A provider that answers 400, 404, 400, ... *)
Definition bad_request : Response := mk_response 400 "Client error '400 Bad Request'" None.
Definition not_found : Response := mk_response 404 "Client error '404 Not Found'" None.

Definition refusing_client : AsyncClient :=
  mk_async_client
    (fun i => PostResponds (if Nat.odd i then not_found else bad_request)) [].

Definition refusing_world : World AnthropicClient :=
  mk_world (mock_db_session [contract]) (mk_anthropic refusing_client) 0
    (fun i => 1700000000 + Z.of_nat i) 0 [].

End Conftest.

(* ===================================================================== *)
(** * src/workers/worker.py: the main loop *)
(* ===================================================================== *)

Module WorkerLoop.
Import Worker.

(** What one [await self._queue.dequeue(timeout=1.0)] gives: a job,
    [None] when the timeout passes, or a failure of the queue. *)
Inductive dequeued : Type :=
| Delivered (job : Job)
| TimedOut
| DequeueFails (e : exn).

(** One pass of the [while] loop as its environment shapes it: what
    the dequeue gives, and whether SIGTERM or SIGINT arrives while the
    pass runs.  The handler runs between two steps of the pass; where
    exactly makes no difference, the event being read at the head of
    the loop only. *)
Record pass : Type := mk_pass {
  delivery : dequeued;
  signalled : bool
}.

(** The worker object and its surroundings: the world of
    [_process_job], [self._shutdown_event], the number of passes made
    and the one-second pauses taken after unexpected errors. *)
Record LoopWorld (S : Type) : Type := mk_loop_world {
  worker_world : WorkerWorld S;
  shutdown_event : bool;
  passes_made : nat;
  pauses : list Q
}.
Arguments mk_loop_world {S}.
Arguments worker_world {S}.
Arguments shutdown_event {S}.
Arguments passes_made {S}.
Arguments pauses {S}.

Section Start.
Context {S : Type} `{Services S}.
Variable analyze_document : uuid -> uuid -> expr S (option Analysis.t).
Variable environment : nat -> pass.

(** [_request_shutdown]: the signal handler sets the event and
    cancels nothing. *)
Definition _request_shutdown (w : LoopWorld S) : LoopWorld S :=
  mk_loop_world (worker_world w) true (passes_made w) (pauses w).

(** The body of the [while] loop: dequeue; on [None] go round again;
    otherwise await [_process_job] in its task; an exception of the
    body is logged and followed by [asyncio.sleep(1)]. *)
Definition loop_body (w : LoopWorld S) : LoopWorld S :=
  let p := environment (passes_made w) in
  let w1 :=
    mk_loop_world (worker_world w) (shutdown_event w)
      (Datatypes.S (passes_made w)) (pauses w) in
  let w2 := if signalled p then _request_shutdown w1 else w1 in
  match delivery p with
  | TimedOut => w2
  | Delivered job =>
      match _process_job analyze_document job (worker_world w2) with
      | (Throw _, ww) =>
          mk_loop_world ww (shutdown_event w2) (passes_made w2)
            (pauses w2 ++ [1%Q])
      | (_, ww) =>
          mk_loop_world ww (shutdown_event w2) (passes_made w2) (pauses w2)
      end
  | DequeueFails _ =>
      mk_loop_world (worker_world w2) (shutdown_event w2) (passes_made w2)
        (pauses w2 ++ [1%Q])
  end.

(** [AnalysisWorker.start]: [while not self._shutdown_event.is_set()].
    The loop has no bound of its own; [fuel] bounds the passes, and
    [None] says it ran out before the event was set. *)
Fixpoint start (fuel : nat) (w : LoopWorld S) : option (LoopWorld S) :=
  if shutdown_event w then Some w
  else match fuel with
       | O => None
       | Datatypes.S fuel' => start fuel' (loop_body w)
       end.

End Start.

(** ** Vocabulary of the properties *)

(** The jobs acknowledged, in order. *)
Fixpoint acknowledged (calls : list queue_call) : list Job :=
  match calls with
  | [] => []
  | Ack job :: rest => job :: acknowledged rest
  | Requeue _ _ :: rest => acknowledged rest
  end.

(** The jobs the queue hands out in the passes [from], ...,
    [from + n - 1]. *)
Fixpoint delivered_jobs (environment : nat -> pass) (from n : nat) : list Job :=
  match n with
  | O => []
  | Datatypes.S n' =>
      match delivery (environment from) with
      | Delivered job => job :: delivered_jobs environment (Datatypes.S from) n'
      | _ => delivered_jobs environment (Datatypes.S from) n'
      end
  end.

(** Three passes: a job, a job during which the signal arrives, and a
    job that is never taken. *)
Definition first_job : Job := mk_job 11 22 "msg-1".
Definition second_job : Job := mk_job 12 22 "msg-2".
Definition third_job : Job := mk_job 13 22 "msg-3".

Definition interrupted (i : nat) : pass :=
  match i with
  | 0%nat => mk_pass (Delivered first_job) false
  | 1%nat => mk_pass (Delivered second_job) true
  | _ => mk_pass (Delivered third_job) false
  end.

Definition idle_worker : LoopWorld unit :=
  mk_loop_world (mk_worker_world ∅ ∅ [] [] tt) false 0 [].

(** A key space in which [first_job] has been seen. *)
Definition seen_world : WorkerWorld unit :=
  mk_worker_world {[dedup_key_of first_job := "1"]} ∅ [] [] tt.

Definition fresh_world : WorkerWorld unit :=
  mk_worker_world ∅ ∅ [] [] tt.

(** The job of [contended_world] comes back after the other worker
    has released the lock: its marker is still set. *)
Definition redelivery_world : WorkerWorld unit :=
  mk_worker_world {[dedup_key_of contended_job := "1"]} ∅ [] [] tt.

(** An Orchestrator that fails. *)
Definition failing_service (d t : uuid) : expr unit (option Analysis.t) :=
  lift (Raise (new_exn DocumentNotFoundError "Document not found")).

End WorkerLoop.
Import WorkerLoop.

(* ===================================================================== *)
(** * demo.py: printing a validated response *)
(* ===================================================================== *)

Module Demo.

(** [s.split()]: the maximal runs of characters that are not
    whitespace, left to right.  [word] is the run being read. *)
Fixpoint split_run (word s : string) : list string :=
  match s with
  | EmptyString =>
      match word with
      | EmptyString => []
      | _ => [word]
      end
  | String c r =>
      if is_space c then
        match word with
        | EmptyString => split_run EmptyString r
        | _ => word :: split_run EmptyString r
        end
      else split_run (word +:+ String c EmptyString) r
  end.

Definition split (s : string) : list string := split_run EmptyString s.

(** [sep.join(parts)] *)
Fixpoint join (sep : string) (parts : list string) : string :=
  match parts with
  | [] => EmptyString
  | [part] => part
  | part :: rest => part +:+ sep +:+ join sep rest
  end.

(** Truth value of a [str]. *)
Definition nonempty (s : string) : bool :=
  match s with
  | EmptyString => false
  | _ => true
  end.

(** One turn of [for w in words]; the state is [(lines, line)]. *)
Definition wrap_word (state : list string * string) (w : string)
  : list string * string :=
  let '(lines, line) := state in
  if nonempty line && (64 <? String.length line + String.length w + 1)%nat then
    (lines ++ [line], w)
  else
    (lines, if nonempty line then line +:+ " " +:+ w else w).

(** The word-wrap of [print_results]: the loop over the words, then
    [if line: lines.append(line)]. *)
Definition wrap (words : list string) : list string :=
  let '(lines, line) := fold_left wrap_word words ([], EmptyString) in
  if nonempty line then lines ++ [line] else lines.

(** What [print_results] prints for the summary of one clause: the
    first line after the label, the others indented under it.
    [lines[0]] raises when there is no line. *)
Definition print_summary (summary : string) : result (list string) :=
  match wrap (split summary) with
  | [] => Raise (new_exn IndexError "list index out of range")
  | first :: rest =>
      Ok (("      Summary:    " +:+ first)
            :: map (fun ln => "                  " +:+ ln) rest)
  end.

(** [risk_counts[clause.risk_level] =
       risk_counts.get(clause.risk_level, 0) + 1] *)
Definition count_risk (risk_counts : gmap string Z) (clause : ClauseExtraction)
  : gmap string Z :=
  <[Schemas.risk_level clause :=
      default 0 (risk_counts !! Schemas.risk_level clause) + 1]> risk_counts.

Definition risk_counts_of (clauses : list ClauseExtraction) : gmap string Z :=
  fold_left count_risk clauses ∅.

(** The rows of the risk summary, [(level, count)]: one for each of
    the four levels whose count is not zero, in the order printed. *)
Definition risk_summary (clauses : list ClauseExtraction) : list (string * Z) :=
  let risk_counts := risk_counts_of clauses in
  flat_map
    (fun level =>
       let count := default 0 (risk_counts !! level) in
       if count =? 0 then [] else [(level, count)])
    ["CRITICAL"; "HIGH"; "MEDIUM"; "LOW"].

(** [len(result.clauses)], printed as the total. *)
Definition total_analysed (clauses : list ClauseExtraction) : Z :=
  Z.of_nat (length clauses).

(** ** Vocabulary of the properties *)

(** The clauses counted in the rows of the summary. *)
Definition rows_total (rows : list (string * Z)) : Z :=
  fold_right (fun row acc => snd row + acc) 0 rows.

(** The lines of a state of the loop, the one being filled
    included. *)
Definition flushed (state : list string * string) : list string :=
  if nonempty (snd state) then fst state ++ [snd state] else fst state.

(** The state of the loop after at least one word: the line being
    filled is not empty. *)
Definition filling (state : list string * string) : Prop :=
  nonempty (snd state) = true \/ fst state = [].

(** A line that fits the column, or is one word of the text. *)
Definition fits (words : list string) (line : string) : Prop :=
  nonempty line = true
  /\ ((String.length line <= 64)%nat \/ In line words).

(** The clauses of a level. *)
Fixpoint with_level (level : string) (clauses : list ClauseExtraction) : Z :=
  match clauses with
  | [] => 0
  | clause :: rest =>
      (if String.eqb (Schemas.risk_level clause) level then 1 else 0)
      + with_level level rest
  end.

(** A response whose one clause has a blank summary. *)
Definition BLANK_SUMMARY_RESPONSE : string := json_text
  ("{'is_contract': true, 'language': 'English', 'clauses': ["
   +:+ "{'clause_type': 'OTHER', 'risk_level': 'LOW', "
   +:+ "'title': 'Notices', 'summary': ' ', "
   +:+ "'original_text': 'Notices are sent by mail.', "
   +:+ "'confidence_score': 0.5}], "
   +:+ "'metadata': {'contract_type': 'Lease', 'parties_involved': [], "
   +:+ "'effective_date': null, 'total_clauses_found': 1}}").

End Demo.
Import Demo.

(* ===================================================================== *)
(** * src/models/clause.py: the table's check constraint *)
(* ===================================================================== *)

Module ClauseTable.

(** [CheckConstraint("confidence_score >= 0.0 AND confidence_score <= 1.0",
    name="ck_clauses_confidence_score_range")] *)
Definition ck_clauses_confidence_score_range (row : Clause.t) : bool :=
  Qle_bool 0 (Clause.confidence_score row)
  && Qle_bool (Clause.confidence_score row) 1.

End ClauseTable.
Import ClauseTable.

(* ===================================================================== *)
(** * Further vocabulary and samples *)
(* ===================================================================== *)

Module Scenarios.
Import Conftest.

(** The time slept in all: the sum of the delays. *)
Definition total_delay (ds : list Q) : Q := fold_right Qplus 0%Q ds.

(** A callable that times out once and then fails for good. *)
Definition timeout_then_broken (i : nat) : result string :=
  match i with
  | 0%nat => Raise (new_exn AITimeoutError "timeout")
  | _ => Raise (new_exn ValueError "boom")
  end.

(** A connection on which every request times out, and one that is
    refused. *)
Definition read_timeout : exn := new_exn TimeoutException "The read operation timed out".
Definition connect_error : exn := new_exn TransportError "All connection attempts failed".

Definition timing_out_client : AsyncClient :=
  mk_async_client (fun _ => PostRaises read_timeout) [].

(** Well-formed answers of the two providers carrying [text]. *)
Definition anthropic_answer (text : string) : json :=
  JDict [("id", JStr "msg_1");
         ("content", JList [JDict [("type", JStr "text"); ("text", JStr text)]]);
         ("stop_reason", JStr "end_turn")].

Definition openai_answer (text : string) : json :=
  JDict [("id", JStr "chatcmpl-1");
         ("choices",
          JList [JDict [("index", JInt 0);
                        ("message", JDict [("role", JStr "assistant");
                                           ("content", JStr text)])]])].

Definition answering_client (data : json) : AsyncClient :=
  mk_async_client (fun _ => PostResponds (mk_response 200 EmptyString (Some data))) [].

Definition greeting : list message :=
  [mk_message "system" "Be terse."; mk_message "user" "Hello"].

(** A template with a prompt of its own. *)
Definition custom_template : AnalysisTemplate.t :=
  AnalysisTemplate.mk 7 22 (Some "Extract only the penalty clauses.").

(** What the schema promises of a typed clause. *)
Record well_formed_clause (c : ClauseExtraction) : Prop := {
  wf_clause_type : In (Schemas.clause_type c) _VALID_CLAUSE_TYPES;
  wf_risk_level : In (Schemas.risk_level c) _VALID_RISK_LEVELS;
  wf_title : Schemas.title c <> EmptyString;
  wf_summary : Schemas.summary c <> EmptyString;
  wf_original_text : Schemas.original_text c <> EmptyString;
  wf_confidence_score :
    Qle 0 (Schemas.confidence_score c) /\ Qle (Schemas.confidence_score c) 1
}.

(** The field names of the three models. *)
Definition response_fields : list string :=
  ["is_contract"; "language"; "clauses"; "metadata"].

Definition clause_fields : list string :=
  ["clause_type"; "risk_level"; "title"; "summary"; "original_text";
   "page_number"; "confidence_score"].

Definition metadata_fields : list string :=
  ["contract_type"; "parties_involved"; "effective_date"; "total_clauses_found"].

(** A character some JSON value starts with. *)
Definition starts_value (c : ascii) : bool :=
  is_digit c
  || existsb (Ascii.eqb c) ["{"; "["; quote; "-"; "n"; "t"; "f"]%char.

Definition not_close_brace (c : ascii) : bool := negb (Ascii.eqb c "}").

(** A character prose may start with: not whitespace, not the start
    of a JSON value, not a backtick. *)
Definition starts_prose (c : ascii) : bool :=
  negb (is_space c) && negb (starts_value c) && negb (Ascii.eqb c "`").

(** The non-contract sample inside a JSON array. *)
Definition wrapped_in_array : string :=
  "[" +:+ NON_CONTRACT_RESPONSE +:+ "]".

(** The session of the tests with a template that belongs to tenant
    99, and worlds over it. *)
Definition foreign_template : AnalysisTemplate.t :=
  AnalysisTemplate.mk 7 99 (Some "Extract only the penalty clauses.").

Definition world_of (responses : list (result string)) : World MockAIClient :=
  mk_world (mk_session [contract] [foreign_template] [] 1000 0 [])
    (mk_mock responses 0) 0 (fun i => 1700000000 + Z.of_nat i) 0 [].

Definition status_503 : exn :=
  new_exn HTTPStatusError "Server error '503 Service Unavailable'".

(** PostgreSQL on the column [title = String(255)] of the table
    [clauses] (models/clause.py): a row whose title has more than 255
    characters is refused when it is written, unless what is over the
    length is spaces.  Every other statement goes through. *)
Definition title_too_long (obj : db_object) : bool :=
  match obj with
  | ClauseObj c =>
      (255 <? String.length (rstrip_by (Ascii.eqb " ") (Clause.title c)))%nat
  | AnalysisObj _ => false
  end.

Definition value_too_long : exn :=
  new_exn SQLAlchemyError "value too long for type character varying(255)".

Definition title_column (s : AsyncSession) : option exn :=
  if existsb title_too_long (added_objects s) then Some value_too_long
  else None.

Definition postgres_columns : Database := {|
  flush_failure := title_column;
  commit_failure := title_column;
  refresh_failure := fun _ => None
|}.

Fixpoint repeated (c : ascii) (n : nat) : string :=
  match n with
  | O => EmptyString
  | S n' => String c (repeated c n')
  end.

(** A completion that meets the schema, with a title of 256
    characters. *)
Definition LONG_TITLE_RESPONSE : string := json_text
  ("{'is_contract': true, 'language': 'English', 'clauses': ["
   +:+ "{'clause_type': 'OTHER', 'risk_level': 'LOW', "
   +:+ "'title': '" +:+ repeated "A" 256 +:+ "', "
   +:+ "'summary': 'Notices are sent by mail.', "
   +:+ "'original_text': 'Notices shall be sent by registered mail.', "
   +:+ "'confidence_score': 0.5}], "
   +:+ "'metadata': {'contract_type': 'Lease', 'parties_involved': [], "
   +:+ "'effective_date': null, 'total_clauses_found': 1}}").

End Scenarios.
Import Scenarios.

(* ===================================================================== *)
(** * Properties *)
(* ===================================================================== *)

Module ExceptionFacts.

Lemma issubclass_refl c : issubclass c c = true.
Proof. unfold issubclass; simpl. destruct (decide (c = c)); congruence. Qed.

Lemma isinstance_Exception e : isinstance e Exception = true.
Proof. destruct e as [c m r]. destruct c; reflexivity. Qed.

End ExceptionFacts.

(* --------------------------------------------------------------------- *)
(** ** [try] statements *)
(* --------------------------------------------------------------------- *)

Module PyFacts.

Section Try.
Context {W R : Type}.
Variables (body fin : stmt W R) (hs : list (@handler W R)).

(** The body falls through: the [finally] block runs and the
    statement falls through. *)
Lemma try_body_normal w w1 w2 :
  body w = (Normal, w1) ->
  fin w1 = (Normal, w2) ->
  try_except_finally body hs fin w = (Normal, w2).
Proof. intros Hb Hf. unfold try_except_finally. now rewrite Hb, Hf. Qed.

(** The body raises and a clause handles it: the [finally] block runs
    after the clause, whatever the clause does; if it falls through,
    the completion of the clause stands. *)
Lemma try_handled w e w1 h c w2 w3 :
  body w = (Throw e, w1) ->
  find_handler hs e = Some h ->
  h e w1 = (c, w2) ->
  fin w2 = (Normal, w3) ->
  try_except_finally body hs fin w = (c, w3).
Proof.
  intros Hb Hh Hc Hf. unfold try_except_finally.
  now rewrite Hb, Hh, Hc, Hf.
Qed.

(** No clause matches: the [finally] block runs and the exception
    goes on. *)
Lemma try_unhandled w e w1 w2 :
  body w = (Throw e, w1) ->
  find_handler hs e = None ->
  fin w1 = (Normal, w2) ->
  try_except_finally body hs fin w = (Throw e, w2).
Proof.
  intros Hb Hh Hf. unfold try_except_finally. now rewrite Hb, Hh, Hf.
Qed.

(** The body returns: the [finally] block still runs. *)
Lemma try_body_return w r w1 w2 :
  body w = (Return r, w1) ->
  fin w1 = (Normal, w2) ->
  try_except_finally body hs fin w = (Return r, w2).
Proof. intros Hb Hf. unfold try_except_finally. now rewrite Hb, Hf. Qed.

End Try.

End PyFacts.

(* --------------------------------------------------------------------- *)
(** ** The retry policy *)
(* --------------------------------------------------------------------- *)

Module RetryFacts.
Import Retry.

Section Loop.
Context {T : Type}.
Variables (base_delay : Q) (retryable : list exn_class).

Lemma retry_loop_S (func : expr (Probe T) T) remaining attempt last w :
  retry_loop func base_delay retryable (S remaining) attempt last w =
  match func w with
  | (Ok v, w') => (Ok v, w')
  | (Raise exc, w') =>
      if matches retryable exc then
        match compute_delay base_delay attempt with
        | Ok delay =>
            retry_loop func base_delay retryable remaining (S attempt)
              (Some exc) (asyncio_sleep delay w')
        | Raise overflow => (Raise overflow, w')
        end
      else (Raise exc, w')
  end.
Proof. reflexivity. Qed.

Lemma compute_delay_lt attempt :
  (attempt < 1024)%nat ->
  compute_delay base_delay attempt = Ok (backoff_delay base_delay attempt).
Proof.
  intros Hlt. unfold compute_delay.
  now destruct (Nat.ltb_spec attempt 1024); [|lia].
Qed.

Lemma compute_delay_ge attempt :
  (1024 <= attempt)%nat ->
  compute_delay base_delay attempt
  = Raise (new_exn OverflowError "int too large to convert to float").
Proof.
  intros Hge. unfold compute_delay.
  now destruct (Nat.ltb_spec attempt 1024); [lia|].
Qed.

Lemma finite_delays_bound n :
  finite_delays base_delay n = true -> (n <= 1024)%nat.
Proof.
  unfold finite_delays. intros Hall.
  destruct (le_lt_dec n 1024) as [Hle | Hgt]; [exact Hle|].
  rewrite forallb_forall in Hall.
  specialize (Hall 1024%nat ltac:(apply in_seq; lia)).
  apply andb_true_iff in Hall as [Hall _].
  apply andb_true_iff in Hall as [Hall _].
  apply Nat.ltb_lt in Hall. lia.
Qed.

Lemma probe_call_eq (f : nat -> result T) calls zs :
  probe_call (mk_probe f calls zs) = (f calls, mk_probe f (S calls) zs).
Proof. reflexivity. Qed.

Lemma probe_sleep_eq (f : nat -> result T) calls zs d :
  asyncio_sleep d (mk_probe f calls zs) = mk_probe f calls (zs ++ [d]).
Proof. reflexivity. Qed.

Lemma delays_S from n :
  delays base_delay from (S n) =
  backoff_delay base_delay from :: delays base_delay (S from) n.
Proof. reflexivity. Qed.

(** [k] retryable failures followed by a success, seen from inside
    the loop. *)
Lemma retry_loop_recovers (f : nat -> result T) (v : T) :
  forall (k remaining attempt calls : nat) (last : option exn) (zs : list Q),
    (forall i, (i < k)%nat -> retryable_failure retryable f (calls + i)) ->
    f (calls + k)%nat = Ok v ->
    (k < remaining)%nat ->
    (attempt + k <= 1024)%nat ->
    retry_loop probe_call base_delay retryable remaining attempt last
      (mk_probe f calls zs)
    = (Ok v, mk_probe f (S (calls + k)) (zs ++ delays base_delay attempt k)).
Proof.
  induction k as [|k IH];
    intros remaining attempt calls last zs Hfail Hok Hlt Hfloat.
  - destruct remaining as [|r]; [lia|].
    rewrite Nat.add_0_r in *.
    rewrite retry_loop_S, probe_call_eq, Hok.
    unfold delays; simpl. now rewrite app_nil_r.
  - destruct remaining as [|r]; [lia|].
    destruct (Hfail 0%nat ltac:(lia)) as (e & He & Hm).
    rewrite Nat.add_0_r in He.
    rewrite retry_loop_S, probe_call_eq, He, Hm.
    rewrite compute_delay_lt by lia. rewrite probe_sleep_eq.
    rewrite (IH r (S attempt) (S calls) (Some e)
               (zs ++ [backoff_delay base_delay attempt])).
    + rewrite delays_S, <- app_assoc. simpl. repeat f_equal; lia.
    + intros i Hi. replace (S calls + i)%nat with (calls + S i)%nat by lia.
      apply Hfail; lia.
    + now replace (S calls + k)%nat with (calls + S k)%nat by lia.
    + lia.
    + lia.
Qed.

(** Retryable failures on every iteration that is left: the loop runs
    dry and the last failure caught is raised. *)
Lemma retry_loop_exhausts (f : nat -> result T) :
  forall (remaining attempt calls : nat) (last : option exn) (zs : list Q),
    (forall i, (i < remaining)%nat -> retryable_failure retryable f (calls + i)) ->
    (attempt + remaining <= 1024)%nat ->
    exists r,
      retry_loop probe_call base_delay retryable remaining attempt last
        (mk_probe f calls zs)
      = (r, mk_probe f (calls + remaining)
              (zs ++ delays base_delay attempt remaining))
      /\ (remaining = 0%nat -> r = raise_last last)
      /\ ((0 < remaining)%nat ->
          exists e, f (calls + remaining - 1)%nat = Raise e
                    /\ matches retryable e = true /\ r = Raise e).
Proof.
  induction remaining as [|r IH]; intros attempt calls last zs Hfail Hfloat.
  - exists (raise_last last). simpl. rewrite Nat.add_0_r, app_nil_r.
    split; [reflexivity|]. split; [reflexivity|lia].
  - destruct (Hfail 0%nat ltac:(lia)) as (e & He & Hm).
    rewrite Nat.add_0_r in He.
    destruct (IH (S attempt) (S calls) (Some e)
                (zs ++ [backoff_delay base_delay attempt])) as (r' & Hrun & H0 & Hpos).
    { intros i Hi. replace (S calls + i)%nat with (calls + S i)%nat by lia.
      apply Hfail; lia. }
    { lia. }
    exists r'. rewrite retry_loop_S, probe_call_eq, He, Hm.
    rewrite compute_delay_lt by lia. rewrite probe_sleep_eq.
    rewrite Hrun, delays_S, <- app_assoc. simpl.
    split; [repeat f_equal; lia|]. split; [lia|]. intros _.
    destruct r as [|r0].
    + exists e. rewrite (H0 eq_refl). simpl.
      replace (calls + 1 - 1)%nat with calls by lia. auto.
    + destruct (Hpos ltac:(lia)) as (e' & He' & Hm' & ->).
      exists e'. replace (calls + S (S r0) - 1)%nat with (S calls + S r0 - 1)%nat by lia.
      auto.
Qed.

(** [j] retryable failures followed by a failure outside the
    retryable set. *)
Lemma retry_loop_propagates (f : nat -> result T) (e : exn) :
  forall (j remaining attempt calls : nat) (last : option exn) (zs : list Q),
    (forall i, (i < j)%nat -> retryable_failure retryable f (calls + i)) ->
    f (calls + j)%nat = Raise e ->
    matches retryable e = false ->
    (j < remaining)%nat ->
    (attempt + j <= 1024)%nat ->
    retry_loop probe_call base_delay retryable remaining attempt last
      (mk_probe f calls zs)
    = (Raise e, mk_probe f (S (calls + j)) (zs ++ delays base_delay attempt j)).
Proof.
  induction j as [|j IH];
    intros remaining attempt calls last zs Hfail He Hno Hlt Hfloat.
  - destruct remaining as [|r]; [lia|].
    rewrite Nat.add_0_r in *.
    rewrite retry_loop_S, probe_call_eq, He, Hno.
    unfold delays; simpl. now rewrite app_nil_r.
  - destruct remaining as [|r]; [lia|].
    destruct (Hfail 0%nat ltac:(lia)) as (e0 & He0 & Hm).
    rewrite Nat.add_0_r in He0.
    rewrite retry_loop_S, probe_call_eq, He0, Hm.
    rewrite compute_delay_lt by lia. rewrite probe_sleep_eq.
    rewrite (IH r (S attempt) (S calls) (Some e0)
               (zs ++ [backoff_delay base_delay attempt])).
    + rewrite delays_S, <- app_assoc. simpl. repeat f_equal; lia.
    + intros i Hi. replace (S calls + i)%nat with (calls + S i)%nat by lia.
      apply Hfail; lia.
    + now replace (S calls + j)%nat with (calls + S j)%nat by lia.
    + assumption.
    + lia.
    + lia.
Qed.

(** Retryable failures up to attempt 1024, with more attempts
    allowed: the delay of attempt 1024 cannot be computed, and the
    [OverflowError] of the product leaves the handler and the loop. *)
Lemma retry_loop_overflows (f : nat -> result T) :
  forall (k remaining attempt calls : nat) (last : option exn) (zs : list Q),
    (forall i, (i <= k)%nat -> retryable_failure retryable f (calls + i)) ->
    (k < remaining)%nat ->
    (attempt + k = 1024)%nat ->
    retry_loop probe_call base_delay retryable remaining attempt last
      (mk_probe f calls zs)
    = (Raise (new_exn OverflowError "int too large to convert to float"),
       mk_probe f (S (calls + k)) (zs ++ delays base_delay attempt k)).
Proof.
  induction k as [|k IH];
    intros remaining attempt calls last zs Hfail Hlt Hfloat.
  - destruct remaining as [|r]; [lia|].
    destruct (Hfail 0%nat ltac:(lia)) as (e & He & Hm).
    rewrite Nat.add_0_r in *.
    rewrite retry_loop_S, probe_call_eq, He, Hm.
    rewrite compute_delay_ge by lia.
    unfold delays; simpl. now rewrite app_nil_r.
  - destruct remaining as [|r]; [lia|].
    destruct (Hfail 0%nat ltac:(lia)) as (e0 & He0 & Hm).
    rewrite Nat.add_0_r in He0.
    rewrite retry_loop_S, probe_call_eq, He0, Hm.
    rewrite compute_delay_lt by lia. rewrite probe_sleep_eq.
    rewrite (IH r (S attempt) (S calls) (Some e0)
               (zs ++ [backoff_delay base_delay attempt])).
    + rewrite delays_S, <- app_assoc. simpl. repeat f_equal; lia.
    + intros i Hi. replace (S calls + i)%nat with (calls + S i)%nat by lia.
      apply Hfail; lia.
    + lia.
    + lia.
Qed.

End Loop.

(** ** The loop over any world

    [I n w]: the callable has been invoked [n] times and the world is
    [w].  If invoking and sleeping keep [I], the loop ends with between
    one and [remaining] further invocations, and with exactly
    [remaining] of them when it raises a retryable failure. *)
Section Invariant.
Context {W T : Type} `{EventLoop W}.
Variables (func : expr W T) (base_delay : Q) (retryable : list exn_class).
Variable I : nat -> W -> Prop.
Hypothesis func_step :
  forall n w r w', I n w -> func w = (r, w') -> I (S n) w'.
Hypothesis sleep_step :
  forall n w d, I n w -> I n (asyncio_sleep d w).

Lemma retry_loop_invariant :
  forall remaining attempt last n w r w',
    (attempt + remaining <= 1024)%nat ->
    I n w ->
    retry_loop func base_delay retryable remaining attempt last w = (r, w') ->
    exists m,
      I (n + m) w'
      /\ (m <= remaining)%nat
      /\ ((0 < remaining)%nat -> (0 < m)%nat)
      /\ (forall e, r = Raise e -> matches retryable e = true ->
          (0 < remaining)%nat -> m = remaining).
Proof.
  induction remaining as [|k IH]; intros attempt last n w r w' Hfloat Hn Hrun.
  - simpl in Hrun. injection Hrun as <- <-. exists 0%nat.
    rewrite Nat.add_0_r. repeat split; auto; lia.
  - cbn [retry_loop] in Hrun.
    destruct (func w) as [[v | exc] w1] eqn:Hcall.
    + injection Hrun as <- <-. exists 1%nat.
      replace (n + 1)%nat with (S n) by lia.
      repeat split; eauto; try lia. discriminate.
    + destruct (matches retryable exc) eqn:Hm.
      * unfold compute_delay in Hrun.
        destruct (Nat.ltb_spec attempt 1024) as [_ | Hge]; [|lia].
        destruct (IH (S attempt) (Some exc) (S n) _ _ _ ltac:(lia)
                    (sleep_step _ _ _ (func_step _ _ _ _ Hn Hcall)) Hrun)
          as (m & Hm1 & Hle & Hpos & Hall).
        exists (S m). replace (n + S m)%nat with (S n + m)%nat by lia.
        repeat split; auto; try lia.
        intros e -> He _. destruct k as [|k'].
        -- simpl in Hrun. lia.
        -- rewrite (Hall e eq_refl He); lia.
      * injection Hrun as <- <-. exists 1%nat.
        replace (n + 1)%nat with (S n) by lia.
        repeat split; eauto; try lia.
        intros e [= ->] He. congruence.
Qed.

End Invariant.

(** With [max_retries <= 0] the loop body never runs: the callable is
    not invoked and [raise None] fails with a [TypeError]. *)
Lemma retry_with_backoff_no_attempts {T} (f : nat -> result T)
    (max_retries : Z) (base_delay : Q) (retryable : list exn_class) :
  max_retries <= 0 ->
  retry_with_backoff probe_call max_retries base_delay retryable (probe_start f)
  = (Raise (new_exn TypeError "exceptions must derive from BaseException"),
     probe_start f).
Proof.
  intros Hle. unfold retry_with_backoff.
  replace (Z.to_nat max_retries) with 0%nat by lia. reflexivity.
Qed.

(** C3. A callable whose first [k] invocations fail with retryable
    kinds, and delays that are finite floats (for the default base
    delay this says no more than that at most 1024 delays are
    computed).  If invocation [k] succeeds and [k < max_retries], the
    wrapper returns that success after exactly [k + 1] invocations
    (sleeping the [k] backoff delays in between).  If instead
    [k >= max_retries] (with at least one attempt allowed), the wrapper
    invokes the callable exactly [max_retries] times and raises the
    very exception object of the last attempt: no other exception is
    manufactured for exhaustion. *)
Theorem retry_with_backoff_retryable_failures {T}
    (f : nat -> result T) (k : nat)
    (max_retries : Z) (base_delay : Q) (retryable : list exn_class)
    (Hfail : forall i, (i < k)%nat -> retryable_failure retryable f i) :
  (forall v, f k = Ok v -> Z.of_nat k < max_retries ->
     finite_delays base_delay k = true ->
     retry_with_backoff probe_call max_retries base_delay retryable
       (probe_start f)
     = (Ok v, mk_probe f (S k) (delays base_delay 0 k)))
  /\
  (0 < max_retries <= Z.of_nat k ->
     finite_delays base_delay (Z.to_nat max_retries) = true ->
     exists e,
       f (Z.to_nat max_retries - 1)%nat = Raise e
       /\ matches retryable e = true
       /\ retry_with_backoff probe_call max_retries base_delay retryable
            (probe_start f)
          = (Raise e,
             mk_probe f (Z.to_nat max_retries)
               (delays base_delay 0 (Z.to_nat max_retries)))).
Proof.
  split.
  - intros v Hok Hlt Hfloat. apply finite_delays_bound in Hfloat.
    unfold retry_with_backoff, probe_start.
    rewrite (retry_loop_recovers base_delay retryable f v k); simpl; auto; lia.
  - intros [Hpos Hle] Hfloat. apply finite_delays_bound in Hfloat.
    unfold retry_with_backoff, probe_start.
    destruct (retry_loop_exhausts base_delay retryable f
                (Z.to_nat max_retries) 0 0 None [])
      as (r & Hrun & _ & Hlast).
    { intros i Hi. simpl. apply Hfail. lia. }
    { simpl. exact Hfloat. }
    destruct (Hlast ltac:(lia)) as (e & He & Hm & ->).
    exists e. simpl in *. auto.
Qed.

(** C3, as the claim has it, fails beyond the range of a float.  With
    1026 attempts allowed and a callable that always times out, the
    delay of attempt 1024 cannot be computed: the wrapper ends after
    1025 invocations, not 1026, and what it raises is the
    [OverflowError] of the product, not the last timeout. *)
Lemma overflow_ends_the_retries :
  (forall i, (i < 1026)%nat ->
     retryable_failure default_retryable_exceptions always_timeout i)
  /\ fst (retry_with_backoff probe_call 1026 1%Q default_retryable_exceptions
            (probe_start always_timeout))
     = Raise (new_exn OverflowError "int too large to convert to float")
  /\ call_count
       (snd (retry_with_backoff probe_call 1026 1%Q
               default_retryable_exceptions (probe_start always_timeout)))
     = 1025%nat
  /\ ~ (exists e p,
          matches default_retryable_exceptions e = true
          /\ retry_with_backoff probe_call 1026 1%Q
               default_retryable_exceptions (probe_start always_timeout)
             = (Raise e, p)
          /\ call_count p = 1026%nat).
Proof.
  assert (forall i : nat,
            retryable_failure default_retryable_exceptions always_timeout i)
    as Hfail.
  { intros i. exists (new_exn AITimeoutError "timeout"). split; reflexivity. }
  assert (retry_with_backoff probe_call 1026 1%Q default_retryable_exceptions
            (probe_start always_timeout)
          = (Raise (new_exn OverflowError "int too large to convert to float"),
             mk_probe always_timeout 1025 (delays 1%Q 0 1024))) as Hrun.
  { unfold retry_with_backoff, probe_start.
    rewrite (retry_loop_overflows 1%Q default_retryable_exceptions
               always_timeout 1024);
      [reflexivity | intros i _; apply Hfail | lia | reflexivity]. }
  split; [intros i _; apply Hfail|].
  rewrite Hrun. cbn [fst snd call_count].
  split; [reflexivity|]. split; [reflexivity|].
  intros (e & p & _ & [= _ <-] & Hcount). cbn [call_count] in Hcount. lia.
Qed.

(** C4. A callable whose first invocation fails with a kind outside
    the retryable set: the wrapper raises that very exception after
    exactly one invocation and without sleeping. *)
Theorem retry_with_backoff_non_retryable {T}
    (f : nat -> result T) (e : exn)
    (max_retries : Z) (base_delay : Q) (retryable : list exn_class)
    (Hfirst : f 0%nat = Raise e)
    (Hkind : matches retryable e = false)
    (Hmax : 0 < max_retries) :
  retry_with_backoff probe_call max_retries base_delay retryable (probe_start f)
  = (Raise e, mk_probe f 1 []).
Proof.
  unfold retry_with_backoff, probe_start.
  rewrite (retry_loop_propagates base_delay retryable f e 0); simpl; auto; lia.
Qed.

Lemma retry_with_backoff_retryable_failures_witness :
  retry_with_backoff probe_call 3 1%Q default_retryable_exceptions
    (probe_start flaky)
  = (Ok "done", mk_probe flaky 3 (delays 1%Q 0 2))
  /\
  exists e,
    always_timeout 2%nat = Raise e
    /\ matches default_retryable_exceptions e = true
    /\ retry_with_backoff probe_call 3 1%Q default_retryable_exceptions
         (probe_start always_timeout)
       = (Raise e, mk_probe always_timeout 3 (delays 1%Q 0 3)).
Proof.
  split.
  - apply (proj1 (retry_with_backoff_retryable_failures flaky 2 3 1%Q
                    default_retryable_exceptions
                    (fun i Hi =>
                       match i as n return
                         (n < 2)%nat ->
                         retryable_failure default_retryable_exceptions flaky n
                       with
                       | 0%nat => fun _ => ex_intro _ _ (conj eq_refl eq_refl)
                       | 1%nat => fun _ => ex_intro _ _ (conj eq_refl eq_refl)
                       | S (S n) => fun H => ltac:(exfalso; lia)
                       end Hi))); [reflexivity | lia | reflexivity].
  - apply (proj2 (retry_with_backoff_retryable_failures always_timeout 3 3 1%Q
                    default_retryable_exceptions
                    (fun i _ => ex_intro _ _ (conj eq_refl eq_refl))));
      [lia | reflexivity].
Defined.

Lemma retry_with_backoff_non_retryable_witness :
  retry_with_backoff probe_call 3 1%Q default_retryable_exceptions
    (probe_start broken)
  = (Raise (new_exn ValueError "boom"), mk_probe broken 1 []).
Proof.
  apply retry_with_backoff_non_retryable; [reflexivity | reflexivity | lia].
Defined.

End RetryFacts.

(* --------------------------------------------------------------------- *)
(** ** The response validator *)
(* --------------------------------------------------------------------- *)

Module SchemaFacts.

Section Facts.
Context `{PydanticCore}.

Lemma both_invalid {A B} (rf : validation (A -> B)) (ra : validation A) :
  is_invalid (both rf ra) = is_invalid rf || is_invalid ra.
Proof. destruct rf, ra; reflexivity. Qed.

Lemma both_inl_inv {A B} (rf : validation (A -> B)) (ra : validation A) b :
  both rf ra = inl b -> exists f a, rf = inl f /\ ra = inl a /\ b = f a.
Proof. destruct rf, ra; simpl; intros [=]; eauto. Qed.

Lemma at_loc_invalid {A} item (r : validation A) :
  is_invalid (at_loc item r) = is_invalid r.
Proof. destruct r; reflexivity. Qed.

Lemma at_loc_inl {A} item (r : validation A) a :
  at_loc item r = inl a <-> r = inl a.
Proof. destruct r; simpl; split; congruence. Qed.

Lemma invalid_inr {A} (r : validation A) :
  is_invalid r = true -> exists errs, r = inr errs.
Proof. destruct r; simpl; [discriminate | eauto]. Qed.

Lemma required_found {A} name (f : json -> validation A) fields v :
  dict_get name fields = Some v ->
  required name f fields = at_loc (LField name) (f v).
Proof. unfold required. now intros ->. Qed.

Lemma str_in_In v values : str_in v values = true <-> In v values.
Proof.
  unfold str_in. rewrite existsb_exists. split.
  - intros (x & Hx & Heq). apply String.eqb_eq in Heq. now subst.
  - intros Hin. exists v. split; [assumption | apply String.eqb_refl].
Qed.

Lemma str_in_not_In v values : ~ In v values -> str_in v values = false.
Proof.
  intros Hn. destruct (str_in v values) eqn:E; [|reflexivity].
  apply str_in_In in E. contradiction.
Qed.

Lemma validate_float_number v q :
  json_number v q -> validate_float v = inl q.
Proof. intros [-> | (n & -> & ->)]; reflexivity. Qed.

Lemma ge_0_le_1_outside q :
  Qlt q 0 \/ Qlt 1 q -> is_invalid (ge_0_le_1 q) = true.
Proof.
  intros Hout. unfold ge_0_le_1.
  destruct (Qle_bool 0 q) eqn:E0; [|reflexivity]. simpl.
  destruct (Qle_bool q 1) eqn:E1; [|reflexivity]. simpl.
  apply Qle_bool_iff in E0, E1.
  destruct Hout as [Hlt | Hlt]; exfalso; eapply Qlt_not_le; eauto.
Qed.

Lemma ge_0_le_1_inside q :
  Qle 0 q -> Qle q 1 -> ge_0_le_1 q = inl q.
Proof.
  intros H0 H1. unfold ge_0_le_1.
  apply Qle_bool_iff in H0, H1. now rewrite H0, H1.
Qed.

Lemma min_length_1_nonempty s : s <> EmptyString -> min_length_1 s = inl s.
Proof. destruct s; [congruence | reflexivity]. Qed.

(** A clause entry with a violated constraint does not validate. *)
Lemma violation_invalid entry :
  field_violation entry ->
  is_invalid (validate_ClauseExtraction (JDict entry)) = true.
Proof.
  intros Hv. unfold validate_ClauseExtraction. cbv zeta.
  rewrite !both_invalid.
  destruct Hv as [v q Hget Hnum Hout | s Hget Hnot | s Hget Hnot | name Hin Hget].
  - rewrite (required_found "confidence_score" _ _ _ Hget), at_loc_invalid.
    rewrite (validate_float_number _ _ Hnum). simpl.
    rewrite (ge_0_le_1_outside _ Hout). apply orb_true_r.
  - rewrite (required_found "clause_type" _ _ _ Hget), at_loc_invalid. simpl.
    unfold validate_clause_type. now rewrite (str_in_not_In _ _ Hnot).
  - rewrite (required_found "risk_level" _ _ _ Hget), at_loc_invalid. simpl.
    unfold validate_risk_level. rewrite (str_in_not_In _ _ Hnot). simpl.
    rewrite !orb_true_r. reflexivity.
  - unfold text_fields in Hin. simpl in Hin.
    destruct Hin as [<- | [<- | [<- | []]]];
      rewrite (required_found _ _ _ _ Hget), at_loc_invalid; simpl;
      rewrite ?orb_true_r; reflexivity.
Qed.

(** A list validates exactly when each of its items does. *)
Lemma validate_items_cons {A} (f : json -> validation A) i x rest :
  validate_items f i (x :: rest)
  = both (both (valid cons) (at_loc (LIndex i) (f x)))
         (validate_items f (S i) rest).
Proof. reflexivity. Qed.

Lemma validate_items_invalid {A} (f : json -> validation A) items :
  forall i,
    is_invalid (validate_items f i items)
    = existsb (fun x => is_invalid (f x)) items.
Proof.
  induction items as [|x rest IH]; intros i; [reflexivity|].
  rewrite validate_items_cons, !both_invalid, at_loc_invalid, IH.
  reflexivity.
Qed.

Lemma validate_items_Forall2 {A} (f : json -> validation A) items values :
  Forall2 (fun x a => f x = inl a) items values ->
  forall i, validate_items f i items = inl values.
Proof.
  induction 1 as [|x a items values Hx _ IH]; intros i; [reflexivity|].
  now rewrite validate_items_cons, Hx, IH.
Qed.

Lemma validate_items_length {A} (f : json -> validation A) items :
  forall i values,
    validate_items f i items = inl values -> length values = length items.
Proof.
  induction items as [|x rest IH]; intros i values.
  - now intros [= <-].
  - rewrite validate_items_cons.
    intros Hb. apply both_inl_inv in Hb as (g & tl & Hg & Htl & ->).
    apply both_inl_inv in Hg as (g0 & a & Hg0 & _ & ->).
    injection Hg0 as <-. simpl. f_equal. eauto.
Qed.

Lemma conforming_validates entry c :
  conforming entry c -> validate_ClauseExtraction entry = inl c.
Proof.
  intros (fields & -> & [[Ht Htin] [Hr Hrin] [Hti Htine] [Hs Hsne] [Ho Hone] Hp
            [(v & Hc & Hnum) [Hc0 Hc1]]]).
  unfold validate_ClauseExtraction. cbv zeta.
  rewrite (required_found _ _ _ _ Ht), (required_found _ _ _ _ Hr),
    (required_found _ _ _ _ Hti), (required_found _ _ _ _ Hs),
    (required_found _ _ _ _ Ho), (required_found _ _ _ _ Hc).
  simpl. unfold validate_clause_type, validate_risk_level.
  rewrite (proj2 (str_in_In _ _) Htin), (proj2 (str_in_In _ _) Hrin).
  rewrite (min_length_1_nonempty _ Htine), (min_length_1_nonempty _ Hsne),
    (min_length_1_nonempty _ Hone).
  rewrite (validate_float_number _ _ Hnum). simpl.
  rewrite (ge_0_le_1_inside _ Hc0 Hc1). simpl.
  assert (optional "page_number" None (nullable validate_int) fields
          = inl (page_number c)) as ->.
  { unfold optional. destruct (page_number c) as [n|].
    - now rewrite Hp.
    - destruct Hp as [-> | ->]; reflexivity. }
  simpl. now destruct c.
Qed.

Lemma validate_list_clauses_invalid cs i entry :
  nth_error cs i = Some (JDict entry) ->
  field_violation entry ->
  is_invalid (validate_list validate_ClauseExtraction (JList cs)) = true.
Proof.
  intros Hnth Hv. unfold validate_list.
  rewrite validate_items_invalid. apply existsb_exists.
  exists (JDict entry). split.
  - eapply nth_error_In; eauto.
  - now apply violation_invalid.
Qed.

Lemma validate_ai_response_schema_failure raw fields errs :
  parse_attempts (unfenced raw) = Some (JDict fields) ->
  model_validate (JDict fields) = inr errs ->
  validate_ai_response raw = Raise (schema_failed errs raw).
Proof.
  intros Hparse Hmv. unfold validate_ai_response, validate_payload. now rewrite Hparse, Hmv.
Qed.

Lemma validate_ai_response_success raw fields validated :
  parse_attempts (unfenced raw) = Some (JDict fields) ->
  model_validate (JDict fields) = inl validated ->
  validate_ai_response raw = Ok validated.
Proof.
  intros Hparse Hmv. unfold validate_ai_response, validate_payload. now rewrite Hparse, Hmv.
Qed.

Lemma model_validate_fields_invalid fields :
  is_invalid (validate_fields fields) = true ->
  exists errs, model_validate (JDict fields) = inr errs.
Proof.
  intros Hinv. apply invalid_inr in Hinv as (errs & Herrs).
  exists errs. unfold model_validate. now rewrite Herrs.
Qed.

Lemma validate_fields_inl fields r :
  validate_fields fields = inl r ->
  required "is_contract" validate_bool fields = inl (is_contract r)
  /\ required "language" validate_str fields = inl (language r)
  /\ required "clauses" (validate_list validate_ClauseExtraction) fields
     = inl (clauses r)
  /\ required "metadata" validate_ExtractionMetadata fields = inl (metadata r).
Proof.
  unfold validate_fields. cbv zeta. intros Hvf.
  apply both_inl_inv in Hvf as (f4 & m & Hvf & Hm & ->).
  apply both_inl_inv in Hvf as (f3 & cl & Hvf & Hcl & ->).
  apply both_inl_inv in Hvf as (f2 & l & Hvf & Hl & ->).
  apply both_inl_inv in Hvf as (f1 & b & Hf1 & Hb & ->).
  injection Hf1 as <-. simpl. auto.
Qed.

(** C7. A payload whose [is_contract] validates to false and whose
    [clauses] is a non-empty array is rejected: [model_validate]
    returns errors and [validate_ai_response] raises the
    schema-validation failure built from them, for the raw text it was
    parsed from.  When all four fields validate on their own (so every
    clause entry is well-formed), the one error is the cross-field
    rule's. *)
Theorem non_contract_with_clauses_is_rejected
    (raw : string) (fields : list (string * json))
    (flag entry : json) (others : list json)
    (Hparse : parse_attempts (unfenced raw) = Some (JDict fields))
    (Hflag : dict_get "is_contract" fields = Some flag)
    (Hfalse : validate_bool flag = inl false)
    (Hclauses : dict_get "clauses" fields = Some (JList (entry :: others))) :
  exists errs,
    model_validate (JDict fields) = inr errs
    /\ validate_ai_response raw = Raise (schema_failed errs raw)
    /\ (forall r, validate_fields fields = inl r -> errs = [cross_field_error]).
Proof.
  assert (exists errs, model_validate (JDict fields) = inr errs
            /\ (forall r, validate_fields fields = inl r ->
                 errs = [cross_field_error])) as (errs & Hmv & Hone).
  { unfold model_validate.
    destruct (validate_fields fields) as [r | errs] eqn:Hvf.
    - destruct (validate_fields_inl _ _ Hvf) as (Hb & _ & Hcl & _).
      rewrite (required_found _ _ _ _ Hflag), at_loc_inl, Hfalse in Hb.
      injection Hb as Hb.
      rewrite (required_found _ _ _ _ Hclauses), at_loc_inl in Hcl.
      apply validate_items_length in Hcl.
      exists [cross_field_error]. split; [|reflexivity].
      simpl. unfold check_clauses_consistent_with_contract_flag.
      rewrite <- Hb, Hcl. reflexivity.
    - exists errs. split; [reflexivity | discriminate]. }
  exists errs. split; [assumption|]. split; [|assumption].
  now apply (validate_ai_response_schema_failure raw fields errs).
Qed.

(** C8.  The payload is the dictionary [data] given to
    [model_validate], with a [clauses] list.  A clause entry whose
    [confidence_score] is a number outside [0, 1], whose [clause_type]
    or [risk_level] is a string outside its enumeration (of 10 and of
    4 values), or whose [title], [summary] or [original_text] is the
    empty string makes the validation of the whole payload fail, and
    the failure is raised as the schema-validation error.  Entries
    that meet all field constraints validate to the typed clauses they
    stand for, and with them the payload does, once its other fields
    validate and the cross-field rule holds. *)
Theorem clause_field_constraints
    (raw : string) (data : list (string * json)) (cs : list json)
    (Hclauses : dict_get "clauses" data = Some (JList cs)) :
  (length _VALID_CLAUSE_TYPES = 10%nat /\ length _VALID_RISK_LEVELS = 4%nat)
  /\
  (forall i entry,
     nth_error cs i = Some (JDict entry) ->
     field_violation entry ->
     exists errs,
       model_validate (JDict data) = inr errs
       /\ validate_payload raw (JDict data) = Raise (schema_failed errs raw))
  /\
  (forall extracted,
     Forall2 conforming cs extracted ->
     validate_list validate_ClauseExtraction (JList cs) = inl extracted
     /\ forall flag b l meta m,
          dict_get "is_contract" data = Some flag ->
          validate_bool flag = inl b ->
          dict_get "language" data = Some (JStr l) ->
          dict_get "metadata" data = Some meta ->
          validate_ExtractionMetadata meta = inl m ->
          b = true \/ cs = [] ->
          validate_payload raw (JDict data)
          = Ok (mk_extraction_response b l extracted m)).
Proof.
  split; [split; reflexivity|]. split.
  - intros i entry Hnth Hv.
    destruct (model_validate_fields_invalid data) as (errs & Hmv).
    { unfold validate_fields. cbv zeta. rewrite !both_invalid.
      rewrite (required_found "clauses" _ _ _ Hclauses), at_loc_invalid.
      rewrite (validate_list_clauses_invalid cs i entry Hnth Hv).
      now rewrite orb_true_r. }
    exists errs. split; [assumption|].
    unfold validate_payload. now rewrite Hmv.
  - intros extracted Hconf.
    assert (validate_list validate_ClauseExtraction (JList cs) = inl extracted)
      as Hlist.
    { unfold validate_list. apply validate_items_Forall2.
      eapply Forall2_impl; [exact Hconf|].
      intros x c Hc. now apply conforming_validates. }
    split; [assumption|].
    intros flag b l meta m Hflag Hb Hl Hmeta Hm Hcross.
    unfold validate_payload.
    replace (model_validate (JDict data))
      with (@inl AIExtractionResponse (list error_details)
              (mk_extraction_response b l extracted m)); [reflexivity|].
    symmetry. unfold model_validate, validate_fields. cbv zeta.
    rewrite (required_found _ _ _ _ Hflag), Hb.
    rewrite (required_found _ _ _ _ Hl).
    rewrite (required_found _ _ _ _ Hclauses), Hlist.
    rewrite (required_found _ _ _ _ Hmeta), Hm. simpl.
    unfold check_clauses_consistent_with_contract_flag. simpl.
    destruct Hcross as [-> | ->]; [reflexivity|].
    apply Forall2_nil_inv_l in Hconf. subst extracted.
    now rewrite andb_false_r.
Qed.

(** *** What a validated response guarantees *)

Lemma validate_items_inl {A} (f : json -> validation A) items :
  forall i values,
    validate_items f i items = inl values ->
    Forall (fun a => exists x, f x = inl a) values.
Proof.
  induction items as [|x rest IH]; intros i values.
  - intros [= <-]. constructor.
  - rewrite validate_items_cons. intros Hb.
    apply both_inl_inv in Hb as (g & tl & Hg & Htl & ->).
    apply both_inl_inv in Hg as (g0 & a & Hg0 & Ha & ->).
    injection Hg0 as <-. apply at_loc_inl in Ha.
    constructor; eauto.
Qed.

Lemma required_inl {A} name (f : json -> validation A) fields a :
  required name f fields = inl a ->
  exists v, dict_get name fields = Some v /\ f v = inl a.
Proof.
  unfold required. destruct (dict_get name fields) as [v|]; [|discriminate].
  intros Ha. apply at_loc_inl in Ha. eauto.
Qed.

Lemma and_then_inl {A B} (r : validation A) (f : A -> validation B) b :
  and_then r f = inl b -> exists a, r = inl a /\ f a = inl b.
Proof. destruct r; simpl; [eauto | discriminate]. Qed.

Lemma ClauseType_of_member s :
  str_in s _VALID_CLAUSE_TYPES = true ->
  exists m, ClauseType_of s = Some m /\ ClauseType_value m = s.
Proof.
  intros Hin. apply str_in_In in Hin. simpl in Hin.
  repeat (destruct Hin as [<- | Hin]; [eexists; split; reflexivity|]).
  destruct Hin.
Qed.

Lemma RiskLevel_of_member s :
  str_in s _VALID_RISK_LEVELS = true ->
  exists m, RiskLevel_of s = Some m /\ RiskLevel_value m = s.
Proof.
  intros Hin. apply str_in_In in Hin. simpl in Hin.
  repeat (destruct Hin as [<- | Hin]; [eexists; split; reflexivity|]).
  destruct Hin.
Qed.

Lemma validate_ClauseExtraction_members x c :
  validate_ClauseExtraction x = inl c ->
  (exists m, ClauseType_of (clause_type c) = Some m
             /\ ClauseType_value m = clause_type c)
  /\ (exists m, RiskLevel_of (risk_level c) = Some m
                /\ RiskLevel_value m = risk_level c).
Proof.
  destruct x; try discriminate. unfold validate_ClauseExtraction. cbv zeta.
  intros Hb.
  apply both_inl_inv in Hb as (g7 & a7 & Hb & _ & ->).
  apply both_inl_inv in Hb as (g6 & a6 & Hb & _ & ->).
  apply both_inl_inv in Hb as (g5 & a5 & Hb & _ & ->).
  apply both_inl_inv in Hb as (g4 & a4 & Hb & _ & ->).
  apply both_inl_inv in Hb as (g3 & a3 & Hb & _ & ->).
  apply both_inl_inv in Hb as (g2 & a2 & Hb & H2 & ->).
  apply both_inl_inv in Hb as (g1 & a1 & Hb & H1 & ->).
  injection Hb as <-. simpl.
  apply required_inl in H1 as (v1 & _ & H1).
  apply and_then_inl in H1 as (s1 & _ & H1).
  apply required_inl in H2 as (v2 & _ & H2).
  apply and_then_inl in H2 as (s2 & _ & H2).
  unfold validate_clause_type in H1. unfold validate_risk_level in H2.
  destruct (str_in s1 _VALID_CLAUSE_TYPES) eqn:E1; [|discriminate].
  destruct (str_in s2 _VALID_RISK_LEVELS) eqn:E2; [|discriminate].
  injection H1 as <-. injection H2 as <-.
  split; [now apply ClauseType_of_member | now apply RiskLevel_of_member].
Qed.

Lemma model_validate_members data validated :
  model_validate data = inl validated ->
  Forall (fun c =>
            (exists m, ClauseType_of (clause_type c) = Some m
                       /\ ClauseType_value m = clause_type c)
            /\ (exists m, RiskLevel_of (risk_level c) = Some m
                          /\ RiskLevel_value m = risk_level c))
         (clauses validated).
Proof.
  destruct data; try discriminate. unfold model_validate. intros Hmv.
  apply and_then_inl in Hmv as (r & Hvf & Hcheck).
  unfold check_clauses_consistent_with_contract_flag in Hcheck.
  destruct (negb (is_contract r) && negb (length (clauses r) =? 0)%nat);
    [discriminate|].
  injection Hcheck as <-.
  destruct (validate_fields_inl _ _ Hvf) as (_ & _ & Hcl & _).
  apply required_inl in Hcl as (v & _ & Hcl).
  destruct v; try discriminate. unfold validate_list in Hcl.
  apply validate_items_inl in Hcl.
  eapply Forall_impl; [exact Hcl|].
  intros c (x & Hx). now apply (validate_ClauseExtraction_members x).
Qed.

Lemma validate_ai_response_members raw validated :
  validate_ai_response raw = Ok validated ->
  Forall (fun c =>
            (exists m, ClauseType_of (clause_type c) = Some m
                       /\ ClauseType_value m = clause_type c)
            /\ (exists m, RiskLevel_of (risk_level c) = Some m
                          /\ RiskLevel_value m = risk_level c))
         (clauses validated).
Proof.
  unfold validate_ai_response, validate_payload.
  destruct (parse_attempts (unfenced raw)) as [[]|]; try discriminate.
  destruct (model_validate (JDict items)) eqn:Hmv; [|discriminate].
  intros [= <-]. now apply (model_validate_members (JDict items)).
Qed.

(** The validator raises nothing but its own failure kind. *)
Lemma validate_ai_response_raises raw exc :
  validate_ai_response raw = Raise exc ->
  exn_type exc = AIResponseValidationError.
Proof.
  unfold validate_ai_response, validate_payload.
  destruct (parse_attempts (unfenced raw)) as [[]|];
    try (intros [= <-]; reflexivity).
  destruct (model_validate (JDict items)); [discriminate|].
  intros [= <-]. reflexivity.
Qed.

End Facts.

Import Conftest.

Lemma non_contract_with_clauses_is_rejected_witness :
  exists errs,
    model_validate (JDict (items_of NON_CONTRACT_WITH_CLAUSE)) = inr errs
    /\ validate_ai_response NON_CONTRACT_WITH_CLAUSE
       = Raise (schema_failed errs NON_CONTRACT_WITH_CLAUSE)
    /\ (forall r, validate_fields (items_of NON_CONTRACT_WITH_CLAUSE) = inl r ->
         errs = [cross_field_error]).
Proof.
  apply (non_contract_with_clauses_is_rejected
           NON_CONTRACT_WITH_CLAUSE (items_of NON_CONTRACT_WITH_CLAUSE)
           (JBool false)
           (hd JNull (clauses_of NON_CONTRACT_WITH_CLAUSE))
           (tl (clauses_of NON_CONTRACT_WITH_CLAUSE)));
    vm_compute; reflexivity.
Defined.

Lemma valid_sample_conforms :
  Forall2 conforming (entries_of VALID_PAYLOAD) VALID_CLAUSES.
Proof.
  repeat first
    [ apply List.Forall2_nil
    | apply List.Forall2_cons;
      [ eexists; split; [reflexivity|];
        constructor; simpl;
        repeat match goal with
               | |- _ /\ _ => split
               | |- exists _, _ => eexists
               | |- json_number _ _ => left; reflexivity
               | |- _ \/ _ => repeat (first [left; reflexivity | right])
               | |- _ <> _ => discriminate
               | |- Qle _ _ => vm_compute; discriminate
               | |- _ = _ => reflexivity
               end
      | ] ].
Qed.

Lemma clause_field_constraints_witness :
  (exists errs,
     model_validate (JDict OUT_OF_BOUNDS_PAYLOAD) = inr errs
     /\ validate_payload CONFIDENCE_OUT_OF_BOUNDS (JDict OUT_OF_BOUNDS_PAYLOAD)
        = Raise (schema_failed errs CONFIDENCE_OUT_OF_BOUNDS))
  /\
  (exists validated,
     validate_payload VALID_AI_RESPONSE (JDict VALID_PAYLOAD) = Ok validated
     /\ clauses validated = VALID_CLAUSES).
Proof.
  split.
  - destruct (clause_field_constraints
                CONFIDENCE_OUT_OF_BOUNDS OUT_OF_BOUNDS_PAYLOAD
                (entries_of OUT_OF_BOUNDS_PAYLOAD) eq_refl)
      as (_ & Hreject & _).
    refine (Hreject 0%nat
              (match hd JNull (entries_of OUT_OF_BOUNDS_PAYLOAD) with
               | JDict entry => entry
               | _ => []
               end) eq_refl _).
    apply (confidence_out_of_range _ (JFloat (15 # 10)) (15 # 10));
      [reflexivity | left; reflexivity | right; reflexivity].
  - destruct (clause_field_constraints
                VALID_AI_RESPONSE VALID_PAYLOAD (entries_of VALID_PAYLOAD)
                eq_refl)
      as (_ & _ & Haccept).
    destruct (Haccept VALID_CLAUSES valid_sample_conforms) as (_ & Hok).
    eexists. split.
    + apply (Hok (JBool true) true "English"
               (JDict [("contract_type", JStr "Service Agreement");
                       ("parties_involved",
                        JList [JStr "Acme Corp"; JStr "Beta LLC"]);
                       ("effective_date", JStr "2024-01-01");
                       ("total_clauses_found", JInt 3)]));
        try reflexivity. now left.
    + reflexivity.
Defined.

End SchemaFacts.

(* --------------------------------------------------------------------- *)
(** ** The Orchestrator *)
(* --------------------------------------------------------------------- *)

Module ServiceFacts.
Import RetryFacts SchemaFacts.

(** *** Primary keys given by a flush *)

Lemma assign_ids_app l1 l2 n :
  assign_ids (l1 ++ l2) n
  = let '(l1', n1) := assign_ids l1 n in
    let '(l2', n2) := assign_ids l2 n1 in
    (l1' ++ l2', n2).
Proof.
  revert n. induction l1 as [|obj l1 IH]; intros n; simpl.
  - now destruct (assign_ids l2 n).
  - destruct (object_id obj); rewrite IH;
      destruct (assign_ids l1 _) as [l1' n1];
      destruct (assign_ids l2 n1); reflexivity.
Qed.

Lemma assign_ids_length l n : length (fst (assign_ids l n)) = length l.
Proof.
  revert n. induction l as [|obj l IH]; intros n; simpl; [reflexivity|].
  destruct (object_id obj).
  - specialize (IH n). destruct (assign_ids l n). simpl in *. now f_equal.
  - specialize (IH (n + 1)). destruct (assign_ids l (n + 1)).
    simpl in *. now f_equal.
Qed.

Lemma with_id_has_id obj key : has_id (with_id obj key).
Proof. destruct obj; simpl; unfold has_id; simpl; eauto. Qed.

Lemma assign_ids_has_id l n : Forall has_id (fst (assign_ids l n)).
Proof.
  revert n. induction l as [|obj l IH]; intros n; simpl; [constructor|].
  destruct (object_id obj) eqn:E.
  - specialize (IH n). destruct (assign_ids l n). simpl in *.
    constructor; [unfold has_id; rewrite E; eauto | assumption].
  - specialize (IH (n + 1)). destruct (assign_ids l (n + 1)). simpl in *.
    constructor; [apply with_id_has_id | assumption].
Qed.

Lemma assign_ids_fixed l n : Forall has_id l -> assign_ids l n = (l, n).
Proof.
  induction 1 as [|obj l [k Hk] _ IH]; simpl; [reflexivity|].
  now rewrite Hk, IH.
Qed.

(** Clauses without a key get consecutive keys and change in nothing
    else. *)
Lemma assign_ids_clauses rows n :
  Forall (fun c => Clause.id c = None) rows ->
  exists rows',
    assign_ids (map ClauseObj rows) n
    = (map ClauseObj rows', n + Z.of_nat (length rows))
    /\ Forall2 (fun c c' =>
         Clause.analysis_id c' = Clause.analysis_id c
         /\ Clause.clause_type c' = Clause.clause_type c
         /\ Clause.risk_level c' = Clause.risk_level c
         /\ Clause.title c' = Clause.title c
         /\ Clause.summary c' = Clause.summary c
         /\ Clause.original_text c' = Clause.original_text c
         /\ Clause.page_number c' = Clause.page_number c
         /\ Clause.confidence_score c' = Clause.confidence_score c) rows rows'.
Proof.
  intros Hnone. revert n.
  induction Hnone as [|c rows Hc _ IH]; intros n.
  - exists []. simpl. split; [f_equal; lia | constructor].
  - destruct (IH (n + 1)) as (rows' & Hrows & Hall).
    exists (Clause.mk (Some n) (Clause.analysis_id c) (Clause.clause_type c)
              (Clause.risk_level c) (Clause.title c) (Clause.summary c)
              (Clause.original_text c) (Clause.page_number c)
              (Clause.confidence_score c) :: rows').
    simpl. rewrite Hc, Hrows. split.
    + f_equal. lia.
    + constructor; [simpl; repeat split; reflexivity | assumption].
Qed.

Lemma alter_middle {A} (g : A -> A) (l1 : list A) x l2 :
  alter g (length l1) (l1 ++ x :: l2) = l1 ++ g x :: l2.
Proof. induction l1 as [|y l1 IH]; simpl; [reflexivity | now f_equal]. Qed.

Lemma lookup_middle {A} (l1 : list A) x l2 :
  (l1 ++ x :: l2) !! length l1 = Some x.
Proof. induction l1 as [|y l1 IH]; simpl; [reflexivity | assumption]. Qed.

Lemma drop_middle {A} (l1 l2 : list A) : drop (length l1) (l1 ++ l2) = l2.
Proof. induction l1 as [|y l1 IH]; simpl; [reflexivity | assumption]. Qed.

Section Execution.
Context {C : Type} `{AIClient C} `{PydanticCore} `{PromptText} `{Database}.

Lemma set_analysis_session (w : World C) s pre a rows f :
  set_analysis (length pre) f (world_with w (session_with s pre a rows))
  = world_with w (session_with s pre (f a) rows).
Proof.
  unfold set_analysis, with_db, world_with, session_with. simpl.
  now rewrite alter_middle.
Qed.

Lemma get_analysis_session (w : World C) s pre a rows :
  get_analysis (length pre) (world_with w (session_with s pre a rows))
  = (Ok a, world_with w (session_with s pre a rows)).
Proof.
  unfold get_analysis, world_with, session_with. simpl.
  now rewrite lookup_middle.
Qed.

Lemma db_add_clause_session (w : World C) s pre a rows c :
  db_add (ClauseObj c) (world_with w (session_with s pre a rows))
  = (Ok (length (pre ++ AnalysisObj a :: map ClauseObj rows)),
     world_with w (session_with s pre a (rows ++ [c]))).
Proof.
  unfold db_add, with_db, world_with, session_with. simpl.
  rewrite map_app, <- app_assoc. reflexivity.
Qed.

(** The loop adds one clause per validated entry. *)
Lemma add_clauses_session (w : World C) s pre a :
  forall cs rows,
    Forall (fun c =>
              (exists m, ClauseType_of (Schemas.clause_type c) = Some m
                         /\ ClauseType_value m = Schemas.clause_type c)
              /\ (exists m, RiskLevel_of (Schemas.risk_level c) = Some m
                            /\ RiskLevel_value m = Schemas.risk_level c)) cs ->
    exists new,
      add_clauses (length pre) cs (world_with w (session_with s pre a rows))
      = (Normal, world_with w (session_with s pre a (rows ++ new)))
      /\ Forall2 (clause_of a) cs new
      /\ Forall (fun c => Clause.id c = None) new.
Proof.
  induction cs as [|c cs IH]; intros rows Hmem.
  - exists []. rewrite app_nil_r. repeat split; constructor.
  - inversion Hmem as [|? ? [(ct & Hct & Hctv) (rl & Hrl & Hrlv)] Hrest]; subst.
    destruct (IH (rows ++ [Clause.mk None (Analysis.id a) ct rl
                             (Schemas.title c) (Schemas.summary c)
                             (Schemas.original_text c) (Schemas.page_number c)
                             (Schemas.confidence_score c)]) Hrest)
      as (new & Hrun & Hall & Hnone).
    eexists (_ :: new). split; [|split].
    + cbn [add_clauses]. unfold await at 1. rewrite get_analysis_session.
      unfold await at 1, lift, ClauseType_call. rewrite Hct.
      unfold await at 1, lift, RiskLevel_call. rewrite Hrl.
      unfold await at 1. rewrite db_add_clause_session.
      rewrite Hrun, <- app_assoc. reflexivity.
    + constructor; [|assumption].
      unfold clause_of. simpl. repeat split; assumption.
    + constructor; [reflexivity | assumption].
Qed.

Lemma commit_session_rows s pre a rows :
  Forall has_id pre ->
  is_Some (Analysis.id a) ->
  Forall (fun c => Clause.id c = None) rows ->
  exists rows' s',
    commit_session (session_with s pre a rows) = s'
    /\ added_objects s' = pre ++ AnalysisObj a :: map ClauseObj rows'
    /\ committed s' = committed s ++ [added_objects s']
    /\ documents s' = documents s
    /\ analysis_templates s' = analysis_templates s
    /\ length rows' = length rows
    /\ forall (entries : list ClauseExtraction),
         Forall2 (clause_of a) entries rows ->
         Forall2 (clause_of a) entries rows'.
Proof.
  intros Hpre Ha Hrows.
  destruct (assign_ids_clauses rows (next_uuid s) Hrows) as (rows' & Hassign & Hsame).
  exists rows'. eexists. split; [|split; [|split; [|split; [|split]]]].
  - unfold commit_session, session_with, flush_session. simpl.
    rewrite assign_ids_app, (assign_ids_fixed pre _ Hpre).
    change (AnalysisObj a :: map ClauseObj rows)
      with ([AnalysisObj a] ++ map ClauseObj rows).
    rewrite assign_ids_app, (assign_ids_fixed [AnalysisObj a]).
    2:{ constructor; [exact Ha | constructor]. }
    rewrite Hassign. simpl. reflexivity.
  - reflexivity.
  - reflexivity.
  - reflexivity.
  - reflexivity.
  - split.
    + symmetry. eapply Forall2_length; eauto.
    + intros entries Hent. clear Hassign Hrows. revert rows' Hsame.
      induction Hent as [|e c es cs Hec _ IH]; intros rows' Hsame.
      * inversion Hsame; subst. constructor.
      * inversion Hsame as [|? c' ? cs' Hcc Hrest]; subst.
        constructor; [|now apply IH].
        destruct Hcc as (E1 & E2 & E3 & E4 & E5 & E6 & E7 & E8).
        unfold clause_of in *.
        rewrite E1, E2, E3, E4, E5, E6, E7, E8. exact Hec.
Qed.

Lemma started_session (w : World C) d template mp mn :
  exists pre key s0,
    length pre = length (added_objects (db w))
    /\ Forall has_id pre
    /\ documents s0 = documents (db w)
    /\ analysis_templates s0 = analysis_templates (db w)
    /\ committed s0 = committed (db w)
    /\ started w d template mp mn
       = mk_world
           (session_with s0 pre
              (flushed_analysis d template mp mn (clock w (clock_reads w)) key)
              [])
           (ai w) 0 (clock w) (S (clock_reads w)) (sleeps w).
Proof.
  destruct (assign_ids (added_objects (db w)) (next_uuid (db w)))
    as [pre key] eqn:Hassign.
  exists pre, key,
    (mk_session (documents (db w)) (analysis_templates (db w)) []
       (key + 1) (S (flush_count (db w))) (committed (db w))).
  split; [|split].
  - rewrite <- (assign_ids_length (added_objects (db w)) (next_uuid (db w))).
    now rewrite Hassign.
  - pose proof (assign_ids_has_id (added_objects (db w)) (next_uuid (db w))) as Hh.
    now rewrite Hassign in Hh.
  - repeat split.
    unfold started, created, now, db_add, with_db, flush_session,
      set_attempt_counter, session_with. simpl.
    rewrite assign_ids_app, Hassign. simpl. reflexivity.
Qed.

Lemma call_ai_frame text template mn (w : World C) r w' :
  _call_ai text template mn w = (r, w') ->
  db w' = db w
  /\ attempt_counter w' = attempt_counter w + 1
  /\ clock w' = clock w
  /\ clock_reads w' = clock_reads w.
Proof.
  unfold _call_ai. cbv zeta.
  destruct (complete _ _ _) as [r0 c]. intros [= <- <-]. simpl. auto.
Qed.

(** The retried call leaves the session and the clock alone and
    counts its attempts: between one and three, and three when a
    retryable failure comes out. *)
Lemma retry_frame text template mn (w0 : World C) r w1 :
  retry_with_backoff (_call_ai text template mn) 3 1%Q
    default_retryable_exceptions w0 = (r, w1) ->
  db w1 = db w0
  /\ clock w1 = clock w0
  /\ clock_reads w1 = clock_reads w0
  /\ attempt_counter w0 + 1 <= attempt_counter w1 <= attempt_counter w0 + 3
  /\ (forall e, r = Raise e ->
       matches default_retryable_exceptions e = true ->
       attempt_counter w1 = attempt_counter w0 + 3).
Proof.
  intros Hrun. unfold retry_with_backoff in Hrun.
  destruct (retry_loop_invariant (_call_ai text template mn) 1%Q
              default_retryable_exceptions
              (fun n w =>
                 db w = db w0
                 /\ attempt_counter w = attempt_counter w0 + Z.of_nat n
                 /\ clock w = clock w0
                 /\ clock_reads w = clock_reads w0))
    with (remaining := Z.to_nat 3) (attempt := 0%nat) (last := @None exn)
         (n := 0%nat) (w := w0) (r := r) (w' := w1)
    as (m & (Hdb & Hcnt & Hclk & Hrd) & Hle & Hpos & Hall).
  - intros n w r0 w' (Hdb & Hcnt & Hclk & Hrd) Hcall.
    apply call_ai_frame in Hcall as (E1 & E2 & E3 & E4).
    rewrite E1, E2, E3, E4. repeat split; auto. lia.
  - intros n w d Hi. exact Hi.
  - change (Z.to_nat 3) with 3%nat. lia.
  - repeat split; auto. simpl. lia.
  - exact Hrun.
  - simpl in Hcnt. change (Z.to_nat 3) with 3%nat in *.
    specialize (Hpos ltac:(lia)).
    repeat split; auto; try lia.
    intros e He Hm. rewrite (Hall e He Hm ltac:(lia)) in Hcnt. lia.
Qed.

(** Each [except] clause sets the status and the message; one of the
    three always applies. *)
Lemma failure_handlers_run (w : World C) s pre a rows exc :
  exists h,
    find_handler (failure_handlers (length pre)) exc = Some h
    /\ h exc (world_with w (session_with s pre a rows))
       = (Normal,
          world_with w
            (session_with s pre
               (set_error_message (exn_str exc)
                  (set_status
                     (if isinstance exc AITimeoutError then TIMED_OUT
                      else FAILED) a))
               rows)).
Proof.
  unfold failure_handlers. cbn [find_handler].
  destruct (isinstance exc AITimeoutError).
  - eexists. split; [reflexivity|].
    unfold seq, exec. now rewrite !set_analysis_session.
  - destruct (isinstance exc AIResponseValidationError).
    + eexists. split; [reflexivity|].
      unfold seq, exec. now rewrite !set_analysis_session.
    + rewrite ExceptionFacts.isinstance_Exception.
      eexists. split; [reflexivity|].
      unfold seq, exec. now rewrite !set_analysis_session.
Qed.

(** The [finally] block on a session in which everything but the
    clauses has a key: [retry_count] is assigned and the commit is
    awaited, once. *)
Lemma finalize_session (w : World C) s pre b rows :
  1 <= attempt_counter w ->
  let b' := set_retry_count (attempt_counter w - 1) b in
  let wf := world_with w (session_with s pre b' rows) in
  finalize (length pre) (world_with w (session_with s pre b rows))
  = match commit_failure (db wf) with
    | Some exc => (Throw exc, wf)
    | None => (Normal, committed_world wf)
    end.
Proof.
  intros Hcnt b' wf.
  unfold finalize, seq, exec, await, skip.
  replace (attempt_counter (world_with w (session_with s pre b rows)))
    with (attempt_counter w) by reflexivity.
  rewrite Z.max_l by lia.
  rewrite set_analysis_session. fold b'. fold wf.
  unfold db_commit. fold (committed_world wf).
  now destruct (commit_failure (db wf)).
Qed.

Lemma now_session (w : World C) s :
  now (world_with w s) = (Ok (clock w (clock_reads w)), world_with (tick w) s).
Proof. reflexivity. Qed.

(** From the end of the body or of the [except] clause to the way
    out of the function. *)
Lemma run_to_return (w wx : World C) s pre b rows
    (body : stmt (World C) Analysis.t) :
  Forall has_id pre ->
  is_Some (Analysis.id b) ->
  Forall (fun c => Clause.id c = None) rows ->
  1 <= attempt_counter wx ->
  (body w = (Normal, world_with wx (session_with s pre b rows))
   \/ exists e w1 h,
        body w = (Throw e, w1)
        /\ find_handler (failure_handlers (length pre)) e = Some h
        /\ h e w1 = (Normal, world_with wx (session_with s pre b rows))) ->
  let b' := set_retry_count (attempt_counter wx - 1) b in
  let wf := world_with wx (session_with s pre b' rows) in
  call (try_except_finally body (failure_handlers (length pre))
          (finalize (length pre)) ;;;
        _ <~ db_refresh (length pre) ;;;
        x <~ get_analysis (length pre) ;;;
        return_ x)%stmt w
  = way_out b' wf
  /\ exists rows',
       added_objects (db (committed_world wf))
       = pre ++ AnalysisObj b' :: map ClauseObj rows'
       /\ committed (db (committed_world wf))
          = committed s ++ [added_objects (db (committed_world wf))]
       /\ (forall entries,
             Forall2 (clause_of b') entries rows ->
             Forall2 (clause_of b') entries rows').
Proof.
  intros Hpre Hb Hrows Hcnt Hbody b' wf.
  destruct (commit_session_rows s pre b' rows Hpre) as
    (rows' & s' & Hcommit & Hadded & Hcomm & _ & _ & _ & Hsame); auto.
  assert (db (committed_world wf) = s') as Hdb.
  { unfold committed_world, with_db, wf, world_with. cbn [db]. exact Hcommit. }
  split; [|exists rows'; rewrite Hdb; auto].
  assert (try_except_finally body (failure_handlers (length pre))
            (finalize (length pre)) w
          = match commit_failure (db wf) with
            | Some exc => (Throw exc, wf)
            | None => (Normal, committed_world wf)
            end) as Htry.
  { pose proof (finalize_session wx s pre b rows Hcnt) as Hfin.
    cbv zeta in Hfin. fold b' in Hfin. fold wf in Hfin.
    unfold try_except_finally.
    destruct Hbody as [Hn | (e & w1 & h & Hthrow & Hh & Hrun)].
    - rewrite Hn, Hfin. now destruct (commit_failure (db wf)).
    - rewrite Hthrow, Hh, Hrun, Hfin. now destruct (commit_failure (db wf)). }
  unfold way_out, call, seq at 1. rewrite Htry.
  destruct (commit_failure (db wf)); [reflexivity|].
  unfold await at 1, db_refresh.
  destruct (refresh_failure (db (committed_world wf))); [reflexivity|].
  unfold await at 1, get_analysis.
  rewrite Hdb, Hadded, lookup_middle. reflexivity.
Qed.

(** The statements up to the first flush. *)
Lemma analyze_document_created (w : World C)
    (document_id tenant_id : uuid) (template_id : option uuid)
    (mp mn : string) d c rest template :
  find_document document_id tenant_id (db w) = Ok (Some d) ->
  Document.extracted_text d = Some (String c rest) ->
  find_template template_id tenant_id (db w) = Ok template ->
  analyze_document document_id tenant_id template_id mp mn w
  = match flush_failure (db (created w d template mp mn)) with
    | Some exc => (Raise exc, created w d template mp mn)
    | None =>
        call (try_except_finally
                (ai_call_and_persist (length (added_objects (db w)))
                   (String c rest) template mn)
                (failure_handlers (length (added_objects (db w))))
                (finalize (length (added_objects (db w)))) ;;;
              _ <~ db_refresh (length (added_objects (db w))) ;;;
              x <~ get_analysis (length (added_objects (db w))) ;;;
              return_ x)%stmt (started w d template mp mn)
    end.
Proof.
  intros Hdoc Htext Htmpl.
  unfold analyze_document, call.
  unfold await at 1, select_document. rewrite Hdoc, Htext.
  unfold await at 1, select_template. rewrite Htmpl.
  unfold await at 1, now. unfold await at 1, db_add.
  unfold await at 1, db_flush.
  unfold started, created, now, db_add. cbn [fst snd].
  destruct (flush_failure _); [reflexivity|].
  unfold seq at 1, exec at 1. reflexivity.
Qed.

(** The preconditions hold, the first flush goes through and the
    retried call ends with [r] in world [w1]: the Analysis is in the
    state the branch for [r] leaves it in when the commit is awaited,
    in world [wf], and the invocation ends as [way_out] says. *)
Lemma analyze_document_to_commit (w : World C)
    (document_id tenant_id : uuid) (template_id : option uuid)
    (mp mn : string) d c rest template r w1 :
  find_document document_id tenant_id (db w) = Ok (Some d) ->
  Document.extracted_text d = Some (String c rest) ->
  find_template template_id tenant_id (db w) = Ok template ->
  flush_failure (db (created w d template mp mn)) = None ->
  retry_with_backoff (_call_ai (String c rest) template mn) 3 1%Q
    default_retryable_exceptions (started w d template mp mn) = (r, w1) ->
  exists a wf,
    analyze_document document_id tenant_id template_id mp mn w = way_out a wf
    /\ branch_taken r (clock w (S (clock_reads w))) a
         (added_since (length (added_objects (db w))) wf)
    /\ branch_taken r (clock w (S (clock_reads w))) a
         (added_since (length (added_objects (db w))) (committed_world wf))
    /\ Analysis.retry_count a = attempt_counter w1 - 1
    /\ 1 <= attempt_counter w1 <= 3
    /\ (forall e, r = Raise e ->
         matches default_retryable_exceptions e = true ->
         attempt_counter w1 = 3)
    /\ committed (db wf) = committed (db w)
    /\ committed (db (committed_world wf))
       = committed (db w) ++ [added_objects (db (committed_world wf))]
    /\ ai wf = ai w1
    /\ sleeps wf = sleeps w1.
Proof.
  intros Hdoc Htext Htmpl Hflush Hretry.
  destruct (started_session w d template mp mn)
    as (pre & key & s0 & Hlen & Hpre & Hdocs & Htmpls & Hcomm & Hstart).
  destruct (retry_frame _ _ _ _ _ _ Hretry) as (Hdb & Hclk & Hrd & Hcnt & Hex).
  rewrite Hstart in Hdb, Hclk, Hrd, Hcnt, Hex. simpl in Hdb, Hclk, Hrd, Hcnt.
  cbn [attempt_counter] in Hex.
  set (a0 := flushed_analysis d template mp mn (clock w (clock_reads w)) key) in *.
  assert (w1 = world_with w1 (session_with s0 pre a0 [])) as Hw1.
  { destruct w1. unfold world_with. simpl in *. now subst. }
  rewrite (analyze_document_created w document_id tenant_id template_id mp mn
             d c rest template Hdoc Htext Htmpl), Hflush.
  assert (is_Some (Analysis.id a0)) as Ha0 by (unfold a0; simpl; eauto).
  assert (1 <= attempt_counter w1) as Hge by lia.
  unfold added_since. rewrite <- Hlen.
  set (w0 := started w d template mp mn) in *.
  assert (forall exc : exn,
            ai_call_and_persist (length pre) (String c rest) template mn w0
            = (Throw exc, w1) ->
            exists a wf,
              call (try_except_finally
                      (ai_call_and_persist (length pre) (String c rest) template mn)
                      (failure_handlers (length pre)) (finalize (length pre)) ;;;
                    _ <~ db_refresh (length pre) ;;;
                    x <~ get_analysis (length pre) ;;;
                    return_ x)%stmt w0
              = way_out a wf
              /\ (Analysis.status a
                   = (if isinstance exc AITimeoutError then TIMED_OUT else FAILED)
                  /\ Analysis.completed_at a = None
                  /\ Analysis.error_message a = Some (exn_str exc)
                  /\ drop (length pre) (added_objects (db wf)) = [AnalysisObj a]
                  /\ drop (length pre) (added_objects (db (committed_world wf)))
                     = [AnalysisObj a])
              /\ Analysis.retry_count a = attempt_counter w1 - 1
              /\ committed (db wf) = committed (db w)
              /\ committed (db (committed_world wf))
                 = committed (db w) ++ [added_objects (db (committed_world wf))]
              /\ ai wf = ai w1
              /\ sleeps wf = sleeps w1) as Hfailed.
  { intros exc Hthrow.
    destruct (failure_handlers_run w1 s0 pre a0 [] exc) as (h & Hh & Hrun).
    rewrite <- Hw1 in Hrun.
    destruct (run_to_return w0 w1 s0 pre _ []
                (ai_call_and_persist (length pre) (String c rest) template mn)
                Hpre
                (ltac:(simpl; eauto) :
                   is_Some (Analysis.id
                     (set_error_message (exn_str exc)
                        (set_status
                           (if isinstance exc AITimeoutError then TIMED_OUT
                            else FAILED) a0))))
                (List.Forall_nil _) Hge
                (or_intror (ex_intro _ exc (ex_intro _ w1 (ex_intro _ h
                   (conj Hthrow (conj Hh Hrun)))))))
      as (Hcall & rows' & Hadded & Hcommitted & Hsame).
    specialize (Hsame [] (List.Forall2_nil _)). inversion Hsame; subst.
    eexists. eexists. split; [exact Hcall|].
    split; [|split; [reflexivity|split; [exact Hcomm|
             split; [now rewrite <- Hcomm | split; reflexivity]]]].
    repeat split; try reflexivity.
    - cbn [db world_with session_with added_objects map].
      now rewrite drop_middle.
    - rewrite Hadded, drop_middle. reflexivity. }
  destruct r as [raw | exc].
  - destruct (validate_ai_response raw) as [validated | exc] eqn:Hval.
    + destruct (add_clauses_session w1 s0 pre a0 (clauses validated) []
                  (validate_ai_response_members _ _ Hval))
        as (new & Hadd & Hnew & Hnone).
      rewrite <- Hw1 in Hadd. cbn [app] in Hadd.
      set (b := set_completed_at (clock w1 (clock_reads w1))
                  (set_status COMPLETED a0)).
      assert (ai_call_and_persist (length pre) (String c rest) template mn w0
              = (Normal, world_with (tick w1) (session_with s0 pre b new)))
        as Hbody.
      { unfold ai_call_and_persist, await at 1. rewrite Hretry.
        unfold await at 1, lift. rewrite Hval.
        unfold seq at 1. rewrite Hadd.
        unfold seq at 1, exec at 1. rewrite set_analysis_session.
        unfold await at 1. rewrite now_session.
        unfold exec. rewrite set_analysis_session. reflexivity. }
      destruct (run_to_return w0 (tick w1) s0 pre b new
                  (ai_call_and_persist (length pre) (String c rest) template mn)
                  Hpre (ltac:(simpl; eauto) : is_Some (Analysis.id b))
                  Hnone Hge (or_introl Hbody))
        as (Hcall & rows' & Hadded & Hcommitted & Hsame).
      eexists. eexists. split; [exact Hcall|].
      split; [|split; [|split; [reflexivity|split; [lia|split; [discriminate|
               split; [exact Hcomm|
               split; [now rewrite <- Hcomm | split; reflexivity]]]]]]].
      * unfold branch_taken. rewrite Hval.
        split; [reflexivity|]. split; [simpl; now rewrite Hclk, Hrd|].
        split; [reflexivity|].
        exists new. split.
        -- cbn [db world_with session_with added_objects].
           now rewrite drop_middle.
        -- eapply Forall2_impl; [exact Hnew|].
           intros e row Hrow. exact Hrow.
      * unfold branch_taken. rewrite Hval.
        split; [reflexivity|]. split; [simpl; now rewrite Hclk, Hrd|].
        split; [reflexivity|].
        exists rows'. split; [now rewrite Hadded, drop_middle|].
        apply Hsame.
        eapply Forall2_impl; [exact Hnew|].
        intros e row Hrow. exact Hrow.
    + destruct (Hfailed exc)
        as (a & wf & Hcall & Hbranch & Hrc & Hcm & Hcm' & Hai & Hsl).
      { unfold ai_call_and_persist, await at 1. rewrite Hretry.
        unfold await at 1, lift. now rewrite Hval. }
      exists a, wf. split; [exact Hcall|].
      destruct Hbranch as (Hst & Hc & Hm & Hobjs & Hobjs').
      apply validate_ai_response_raises in Hval as Hkind.
      unfold isinstance in Hst. rewrite Hkind in Hst. simpl in Hst.
      split; [unfold branch_taken; rewrite Hval; auto|].
      split; [unfold branch_taken; rewrite Hval; auto|].
      repeat split; auto; try lia; try discriminate.
  - destruct (Hfailed exc)
      as (a & wf & Hcall & Hbranch & Hrc & Hcm & Hcm' & Hai & Hsl).
    { unfold ai_call_and_persist, await at 1. now rewrite Hretry. }
    exists a, wf. split; [exact Hcall|].
    destruct Hbranch as (Hst & Hc & Hm & Hobjs & Hobjs').
    split; [unfold branch_taken; auto|].
    split; [unfold branch_taken; auto|].
    repeat split; auto; try lia.
Qed.

Lemma find_document_missing document_id tenant_id (s : AsyncSession) :
  (forall d, In d (documents s) ->
             Document.id d = document_id ->
             Document.tenant_id d <> tenant_id) ->
  find_document document_id tenant_id s = Ok None.
Proof.
  intros Hmissing. unfold find_document.
  replace (List.filter _ (documents s)) with (@nil Document.t); [reflexivity|].
  symmetry. induction (documents s) as [|d rows IH]; [reflexivity|].
  simpl. destruct (Z.eqb_spec (Document.id d) document_id) as [Hid|Hid]; simpl.
  - destruct (Z.eqb_spec (Document.tenant_id d) tenant_id) as [Ht|Ht].
    + exfalso. apply (Hmissing d); [now left | assumption | assumption].
    + apply IH. intros d' Hin. apply Hmissing. now right.
  - apply IH. intros d' Hin. apply Hmissing. now right.
Qed.

(** C5. Entry preconditions.  If no document row has both the given
    id and the given tenant id, the call raises [DocumentNotFoundError];
    if the lookup returns a document whose extracted text is [None] or
    empty, it raises [EmptyDocumentError].  In both cases the world is
    left exactly as it was: the client object was not used (no provider
    call), the session holds no new object (no Analysis record), and
    nothing was flushed or committed. *)
Theorem preconditions_abort_before_analysis (w : World C)
    (document_id tenant_id : uuid) (template_id : option uuid)
    (mp mn : string) :
  ((forall d, In d (documents (db w)) ->
              Document.id d = document_id ->
              Document.tenant_id d <> tenant_id) ->
   exists message,
     analyze_document document_id tenant_id template_id mp mn w
     = (Raise (new_exn DocumentNotFoundError message), w))
  /\
  (forall d,
     find_document document_id tenant_id (db w) = Ok (Some d) ->
     Document.extracted_text d = None
     \/ Document.extracted_text d = Some EmptyString ->
     exists message,
       analyze_document document_id tenant_id template_id mp mn w
       = (Raise (new_exn EmptyDocumentError message), w)).
Proof.
  split.
  - intros Hmissing. eexists.
    unfold analyze_document, call, await at 1, select_document.
    rewrite (find_document_missing _ _ _ Hmissing). reflexivity.
  - intros d Hdoc Hempty. eexists.
    unfold analyze_document, call, await at 1, select_document.
    rewrite Hdoc. destruct Hempty as [-> | ->]; reflexivity.
Qed.

Lemma drop_head {A} (l : list A) n x t : drop n l = x :: t -> l !! n = Some x.
Proof.
  intros Hd. rewrite <- (Nat.add_0_r n), <- lookup_drop, Hd. reflexivity.
Qed.

Lemma branch_taken_head r completed a objs :
  branch_taken r completed a objs -> exists t, objs = AnalysisObj a :: t.
Proof.
  unfold branch_taken. destruct r as [raw | exc].
  - destruct (validate_ai_response raw).
    + intros (_ & _ & _ & rows & -> & _). eauto.
    + intros (_ & _ & _ & ->). eauto.
  - intros (_ & _ & _ & ->). eauto.
Qed.

Lemma branch_taken_timed_out r completed a objs :
  branch_taken r completed a objs ->
  Analysis.status a = TIMED_OUT ->
  exists exc, r = Raise exc /\ isinstance exc AITimeoutError = true.
Proof.
  unfold branch_taken. destruct r as [raw | exc].
  - destruct (validate_ai_response raw); intros (Hst & _) Hto; congruence.
  - intros (Hst & _) Hto. exists exc. split; [reflexivity|].
    destruct (isinstance exc AITimeoutError); congruence.
Qed.

Lemma branch_taken_terminal r completed a objs :
  branch_taken r completed a objs ->
  In (Analysis.status a) [COMPLETED; FAILED; TIMED_OUT].
Proof.
  unfold branch_taken. destruct r as [raw | exc].
  - destruct (validate_ai_response raw); intros (-> & _); simpl; auto.
  - intros (-> & _). destruct (isinstance exc AITimeoutError); simpl; auto.
Qed.

(** C2. Both entry preconditions hold (and the optional template
    lookup returns).  If the first flush raises, the failure goes to
    the caller and the provider is not called.  Otherwise let [r] be
    what the retried provider call ends with, in world [w1] whose
    [attempt_counter] counts the attempts made.  When the commit of
    the [finally] block is awaited, in world [wf], the Analysis [a] is
    in the state of exactly the branch [r] selects ([branch_taken]):
    a completion that validates gives COMPLETED with [completed_at]
    set and one Clause per validated entry; a completion that fails
    validation gives FAILED with the validation message; a raised
    [AITimeoutError] gives TIMED_OUT with its message, and comes only
    after three attempts; any other exception gives FAILED with its
    message.  In every branch the status is terminal, [retry_count] is
    the number of attempts minus one, nothing has been committed yet,
    and the commit is awaited once ([way_out]): if it goes through
    and the refresh does, [a] is returned, and the one commit has
    written the session, the Analysis and its clauses included; a
    failure of the commit or of the refresh goes to the caller. *)
Theorem analysis_ends_in_one_branch (w : World C)
    (document_id tenant_id : uuid) (template_id : option uuid)
    (mp mn : string) (d : Document.t) (text : string)
    (template : option AnalysisTemplate.t)
    (Hdoc : find_document document_id tenant_id (db w) = Ok (Some d))
    (Htext : Document.extracted_text d = Some text)
    (Hnonempty : text <> EmptyString)
    (Htmpl : find_template template_id tenant_id (db w) = Ok template) :
  (forall exc,
     flush_failure (db (created w d template mp mn)) = Some exc ->
     analyze_document document_id tenant_id template_id mp mn w
     = (Raise exc, created w d template mp mn))
  /\
  (flush_failure (db (created w d template mp mn)) = None ->
   exists r w1 a wf,
     retry_with_backoff (_call_ai text template mn) 3 1%Q
       default_retryable_exceptions (started w d template mp mn) = (r, w1)
     /\ analyze_document document_id tenant_id template_id mp mn w
        = way_out a wf
     /\ branch_taken r (clock w (S (clock_reads w))) a
          (added_since (length (added_objects (db w))) wf)
     /\ In (Analysis.status a) [COMPLETED; FAILED; TIMED_OUT]
     /\ (Analysis.status a = TIMED_OUT ->
         attempt_counter w1 = 3
         /\ exists exc, r = Raise exc /\ isinstance exc AITimeoutError = true)
     /\ Analysis.retry_count a = attempt_counter w1 - 1
     /\ 1 <= attempt_counter w1 <= 3
     /\ committed (db wf) = committed (db w)
     /\ committed (db (committed_world wf))
        = committed (db w) ++ [added_objects (db (committed_world wf))]
     /\ branch_taken r (clock w (S (clock_reads w))) a
          (added_since (length (added_objects (db w))) (committed_world wf))).
Proof.
  destruct text as [|c rest]; [congruence|].
  split.
  - intros exc Hflush.
    rewrite (analyze_document_created w document_id tenant_id template_id
               mp mn d c rest template Hdoc Htext Htmpl).
    now rewrite Hflush.
  - intros Hflush.
    destruct (retry_with_backoff (_call_ai (String c rest) template mn) 3 1%Q
                default_retryable_exceptions (started w d template mp mn))
      as [r w1] eqn:Hretry.
    destruct (analyze_document_to_commit w document_id tenant_id template_id
                mp mn d c rest template r w1 Hdoc Htext Htmpl Hflush Hretry)
      as (a & wf & Hrun & Hbranch & Hwritten & Hrc & Hcnt & Hex & Hcomm
          & Hcomm' & _ & _).
    exists r, w1, a, wf.
    split; [reflexivity|]. split; [exact Hrun|]. split; [exact Hbranch|].
    split; [eapply branch_taken_terminal; eauto|].
    split.
    { intros Hto.
      destruct (branch_taken_timed_out _ _ _ _ Hbranch Hto) as (exc & -> & Hinst).
      split; [|eauto]. apply (Hex exc eq_refl).
      unfold default_retryable_exceptions, matches. simpl. now rewrite Hinst. }
    split; [exact Hrc|]. split; [exact Hcnt|]. split; [exact Hcomm|].
    split; [exact Hcomm' | exact Hwritten].
Qed.

End Execution.

(** With a database that accepts every statement ([reliable_database],
    the one the lemmas that follow are stated for): the invocation
    returns an Analysis in the state the branch for [r] leaves it in,
    after one commit. *)
Lemma analyze_document_runs {C : Type} `{AIClient C} `{PydanticCore}
    `{PromptText} (w : World C)
    (document_id tenant_id : uuid) (template_id : option uuid)
    (mp mn : string) d c rest template r w1 :
  find_document document_id tenant_id (db w) = Ok (Some d) ->
  Document.extracted_text d = Some (String c rest) ->
  find_template template_id tenant_id (db w) = Ok template ->
  retry_with_backoff (_call_ai (String c rest) template mn) 3 1%Q
    default_retryable_exceptions (started w d template mp mn) = (r, w1) ->
  exists a w',
    analyze_document document_id tenant_id template_id mp mn w
    = (Ok (Some a), w')
    /\ branch_taken r (clock w (S (clock_reads w))) a
         (added_since (length (added_objects (db w))) w')
    /\ Analysis.retry_count a = attempt_counter w1 - 1
    /\ 1 <= attempt_counter w1 <= 3
    /\ (forall e, r = Raise e ->
         matches default_retryable_exceptions e = true ->
         attempt_counter w1 = 3)
    /\ committed (db w') = committed (db w) ++ [added_objects (db w')]
    /\ ai w' = ai w1
    /\ sleeps w' = sleeps w1.
Proof.
  intros Hdoc Htext Htmpl Hretry.
  destruct (analyze_document_to_commit (H2 := reliable_database)
              w document_id tenant_id template_id
              mp mn d c rest template r w1 Hdoc Htext Htmpl eq_refl Hretry)
    as (a & wf & Hrun & _ & Hbranch & Hrc & Hcnt & Hex & _ & Hcomm & Hai & Hsl).
  exists a, (committed_world wf).
  split; [exact Hrun|]. split; [exact Hbranch|].
  split; [exact Hrc|]. split; [exact Hcnt|]. split; [exact Hex|].
  split; [exact Hcomm|]. split; [exact Hai | exact Hsl].
Qed.

(** *** HTTP status failures of the provider

    For a database that accepts every statement
    ([reliable_database]). *)

Section Anthropic.
Context `{PydanticCore} `{PromptText}.

Lemma raise_for_status_outside resp :
  status_outside_2xx resp ->
  raise_for_status resp = Raise (new_exn HTTPStatusError (status_error_text resp)).
Proof.
  intros Hout. unfold raise_for_status.
  destruct (Z.leb_spec 200 (status_code resp));
    destruct (Z.ltb_spec (status_code resp) 300); simpl; try reflexivity.
  destruct Hout; lia.
Qed.

(** One attempt against a connection whose next response has a status
    outside 2xx. *)
Lemma call_ai_status_error (w : World AnthropicClient) text template mn c resp :
  ai w = mk_anthropic c ->
  responses c (length (requests c)) = PostResponds resp ->
  status_outside_2xx resp ->
  _call_ai text template mn w
  = (Raise (new_exn HTTPStatusError (status_error_text resp)),
     mk_world (db w)
       (mk_anthropic
          (mk_async_client (responses c)
             (requests c ++
              [("/v1/messages",
                anthropic_body (build_extraction_prompt text template) mn)])))
       (attempt_counter w + 1) (clock w) (clock_reads w) (sleeps w)).
Proof.
  intros Hai Hresp Hout.
  unfold _call_ai. cbv zeta. cbn [ai set_attempt_counter]. rewrite Hai.
  cbn [complete AnthropicClient_AIClient anthropic_client].
  unfold anthropic_complete, post_checked, post. rewrite Hresp.
  rewrite (raise_for_status_outside resp Hout).
  reflexivity.
Qed.

(** Three responses outside 2xx in a row: three attempts, three
    delays, and the third failure comes out. *)
Lemma retry_three_status_errors (w0 : World AnthropicClient) text template mn
    c r0 r1 r2 :
  ai w0 = mk_anthropic c ->
  responses c (length (requests c)) = PostResponds r0 ->
  responses c (S (length (requests c))) = PostResponds r1 ->
  responses c (S (S (length (requests c)))) = PostResponds r2 ->
  status_outside_2xx r0 -> status_outside_2xx r1 -> status_outside_2xx r2 ->
  let p := ("/v1/messages",
            anthropic_body (build_extraction_prompt text template) mn) in
  retry_with_backoff (_call_ai text template mn) 3 1%Q
    default_retryable_exceptions w0
  = (Raise (new_exn HTTPStatusError (status_error_text r2)),
     mk_world (db w0)
       (mk_anthropic (mk_async_client (responses c) (requests c ++ [p; p; p])))
       (attempt_counter w0 + 3) (clock w0) (clock_reads w0)
       (sleeps w0 ++ delays 1%Q 0 3)).
Proof.
  intros Hai H0' H1' H2' Hs0 Hs1 Hs2 p.
  unfold retry_with_backoff. change (Z.to_nat 3) with 3%nat.
  cbn [retry_loop]. rewrite !(compute_delay_lt 1%Q) by lia.
  rewrite (call_ai_status_error w0 text template mn c r0 Hai H0' Hs0).
  change (matches default_retryable_exceptions
            (new_exn HTTPStatusError (status_error_text r0))) with true.
  cbv iota. fold p.
  cbn [asyncio_sleep World_loop db ai attempt_counter clock clock_reads sleeps].
  erewrite call_ai_status_error;
    [ | reflexivity
      | cbn [responses requests]; rewrite length_app, Nat.add_1_r; exact H1'
      | exact Hs1 ].
  change (matches default_retryable_exceptions
            (new_exn HTTPStatusError (status_error_text r1))) with true.
  cbv iota. fold p.
  cbn [asyncio_sleep World_loop db ai attempt_counter clock clock_reads sleeps
       responses requests].
  erewrite call_ai_status_error;
    [ | reflexivity
      | cbn [responses requests]; rewrite !length_app, !Nat.add_1_r; exact H2'
      | exact Hs2 ].
  change (matches default_retryable_exceptions
            (new_exn HTTPStatusError (status_error_text r2))) with true.
  cbv iota. fold p.
  cbn [asyncio_sleep World_loop db ai attempt_counter clock clock_reads sleeps
       responses requests raise_last].
  f_equal. f_equal.
  - rewrite <- !app_assoc. reflexivity.
  - lia.
  - rewrite <- !app_assoc. reflexivity.
Qed.

(** C10. The default retryable set is [AITimeoutError] and
    [httpx.HTTPStatusError], no more.  So when the provider answers
    three requests in a row with statuses outside 2xx (400 and 404
    among them), each failure is retried rather than raised at once:
    three requests are posted, the three backoff delays are slept, and
    the third status failure comes out of the wrapper.  The
    Orchestrator takes it in its last [except] clause: the Analysis is
    returned FAILED, not TIMED_OUT, with the message of that failure
    and [retry_count] 2. *)
Theorem http_status_failures_are_retried_then_failed
    (w : World AnthropicClient)
    (document_id tenant_id : uuid) (template_id : option uuid)
    (mp mn : string) (d : Document.t) (text : string)
    (template : option AnalysisTemplate.t)
    (c : AsyncClient) (r0 r1 r2 : Response)
    (Hdoc : find_document document_id tenant_id (db w) = Ok (Some d))
    (Htext : Document.extracted_text d = Some text)
    (Hnonempty : text <> EmptyString)
    (Htmpl : find_template template_id tenant_id (db w) = Ok template)
    (Hai : ai w = mk_anthropic c)
    (Hr0 : responses c (length (requests c)) = PostResponds r0)
    (Hr1 : responses c (S (length (requests c))) = PostResponds r1)
    (Hr2 : responses c (S (S (length (requests c)))) = PostResponds r2)
    (Hs0 : status_outside_2xx r0)
    (Hs1 : status_outside_2xx r1)
    (Hs2 : status_outside_2xx r2) :
  default_retryable_exceptions = [AITimeoutError; HTTPStatusError]
  /\
  exists a w',
    analyze_document document_id tenant_id template_id mp mn w
    = (Ok (Some a), w')
    /\ Analysis.status a = FAILED
    /\ Analysis.error_message a = Some (status_error_text r2)
    /\ Analysis.retry_count a = 2
    /\ requests (anthropic_client (ai w'))
       = requests c
         ++ repeat ("/v1/messages",
                    anthropic_body (build_extraction_prompt text template) mn) 3
    /\ sleeps w' = sleeps w ++ delays 1%Q 0 3.
Proof.
  split; [reflexivity|].
  destruct text as [|ch rest]; [congruence|].
  destruct (started_session w d template mp mn)
    as (pre & key & s0 & _ & _ & _ & _ & _ & Hstart).
  pose proof (retry_three_status_errors
                (mk_world
                   (session_with s0 pre
                      (flushed_analysis d template mp mn
                         (clock w (clock_reads w)) key) [])
                   (ai w) 0 (clock w) (S (clock_reads w)) (sleeps w))
                (String ch rest) template mn c r0 r1 r2
                Hai Hr0 Hr1 Hr2 Hs0 Hs1 Hs2) as Hretry.
  cbv zeta in Hretry.
  cbn [db ai attempt_counter clock clock_reads sleeps] in Hretry.
  rewrite <- Hstart in Hretry.
  destruct (analyze_document_runs w document_id tenant_id template_id mp mn
              d ch rest template _ _ Hdoc Htext Htmpl Hretry)
    as (a & w' & Hrun & Hbranch & Hrc & _ & _ & _ & Hai' & Hsl).
  exists a, w'. split; [exact Hrun|].
  destruct Hbranch as (Hst & _ & Hmsg & _).
  cbn [attempt_counter ai sleeps] in Hrc, Hai', Hsl.
  repeat split; try assumption.
  now rewrite Hai'.
Qed.

End Anthropic.

Import Conftest.

Lemma preconditions_abort_before_analysis_witness :
  (exists message,
     analyze_document 11 other_tenant None default_model_provider
       default_model_name retry_then_success_world
     = (Raise (new_exn DocumentNotFoundError message),
        retry_then_success_world))
  /\
  (exists message,
     analyze_document 11 22 None default_model_provider default_model_name
       empty_document_world
     = (Raise (new_exn EmptyDocumentError message), empty_document_world)).
Proof.
  split.
  - apply (proj1 (preconditions_abort_before_analysis retry_then_success_world
                    11 other_tenant None default_model_provider
                    default_model_name)).
    intros d [<- | []] _. discriminate.
  - apply (proj2 (preconditions_abort_before_analysis empty_document_world
                    11 22 None default_model_provider default_model_name)
             (make_document (Some EmptyString)));
      [reflexivity | now right].
Defined.

(** Against C2 as stated.  Both preconditions hold and the provider's
    completion validates, with a clause title of 256 characters.  The
    database refuses the row when the commit of the [finally] block
    writes it, and that failure reaches the caller: no record is
    returned and nothing is committed. *)
Lemma commit_failure_reaches_the_caller :
  find_document 11 22 (db (world_of [Ok LONG_TITLE_RESPONSE]))
  = Ok (Some contract)
  /\ Document.extracted_text contract = Some "Some contract text"
  /\ (exists validated,
        validate_ai_response LONG_TITLE_RESPONSE = Ok validated)
  /\ fst (analyze_document (H2 := postgres_columns) 11 22 None
            default_model_provider default_model_name
            (world_of [Ok LONG_TITLE_RESPONSE]))
     = Raise value_too_long
  /\ committed
       (db (snd (analyze_document (H2 := postgres_columns) 11 22 None
                   default_model_provider default_model_name
                   (world_of [Ok LONG_TITLE_RESPONSE]))))
     = [].
Proof.
  split; [reflexivity|]. split; [reflexivity|].
  split; [vm_compute; eexists; reflexivity|].
  split; vm_compute; reflexivity.
Qed.

Lemma analysis_ends_in_one_branch_witness :
  exists r w1 a wf,
    retry_with_backoff (_call_ai "Some contract text" None default_model_name)
      3 1%Q default_retryable_exceptions
      (started retry_then_success_world contract None
         default_model_provider default_model_name) = (r, w1)
    /\ analyze_document 11 22 None default_model_provider default_model_name
         retry_then_success_world
       = (Ok (Some a), committed_world wf)
    /\ branch_taken r
         (clock retry_then_success_world
            (S (clock_reads retry_then_success_world))) a
         (added_since (length (added_objects (db retry_then_success_world))) wf)
    /\ In (Analysis.status a) [COMPLETED; FAILED; TIMED_OUT]
    /\ (Analysis.status a = TIMED_OUT ->
        attempt_counter w1 = 3
        /\ exists exc, r = Raise exc /\ isinstance exc AITimeoutError = true)
    /\ Analysis.retry_count a = attempt_counter w1 - 1
    /\ 1 <= attempt_counter w1 <= 3
    /\ committed (db wf) = committed (db retry_then_success_world)
    /\ committed (db (committed_world wf))
       = committed (db retry_then_success_world)
         ++ [added_objects (db (committed_world wf))]
    /\ branch_taken r
         (clock retry_then_success_world
            (S (clock_reads retry_then_success_world))) a
         (added_since (length (added_objects (db retry_then_success_world)))
            (committed_world wf)).
Proof.
  apply (proj2 (analysis_ends_in_one_branch (H2 := reliable_database)
                  retry_then_success_world 11 22 None
                  default_model_provider default_model_name contract
                  "Some contract text" None
                  eq_refl eq_refl ltac:(discriminate) eq_refl)).
  reflexivity.
Defined.

Lemma http_status_failures_are_retried_then_failed_witness :
  default_retryable_exceptions = [AITimeoutError; HTTPStatusError]
  /\
  exists a w',
    analyze_document 11 22 None default_model_provider default_model_name
      refusing_world
    = (Ok (Some a), w')
    /\ Analysis.status a = FAILED
    /\ Analysis.error_message a = Some (status_error_text bad_request)
    /\ Analysis.retry_count a = 2
    /\ requests (anthropic_client (ai w'))
       = requests refusing_client
         ++ repeat ("/v1/messages",
                    anthropic_body
                      (build_extraction_prompt "Some contract text" None)
                      default_model_name) 3
    /\ sleeps w' = sleeps refusing_world ++ delays 1%Q 0 3.
Proof.
  apply (http_status_failures_are_retried_then_failed refusing_world 11 22 None
           default_model_provider default_model_name contract
           "Some contract text" None refusing_client
           bad_request not_found bad_request);
    try reflexivity; try discriminate;
    unfold status_outside_2xx; simpl; lia.
Defined.

End ServiceFacts.

(* --------------------------------------------------------------------- *)
(** ** Fence stripping *)
(* --------------------------------------------------------------------- *)

Module FenceFacts.

Lemma append_cons c s t : String c s +:+ t = String c (s +:+ t).
Proof. reflexivity. Qed.

Lemma append_nil_l t : EmptyString +:+ t = t.
Proof. reflexivity. Qed.

Lemma append_nil_r s : s +:+ EmptyString = s.
Proof. induction s as [|c s IH]; [reflexivity|]. now rewrite append_cons, IH. Qed.

Lemma append_assoc s t u : (s +:+ t) +:+ u = s +:+ (t +:+ u).
Proof.
  induction s as [|c s IH]; [reflexivity|]. now rewrite !append_cons, IH.
Qed.

Lemma length_append s t :
  String.length (s +:+ t) = (String.length s + String.length t)%nat.
Proof.
  induction s as [|c s IH]; [reflexivity|].
  rewrite ?append_cons. simpl. now rewrite IH.
Qed.

Lemma json_ws_is_space c : is_json_ws c = true -> is_space c = true.
Proof.
  unfold is_json_ws. rewrite !orb_true_iff.
  intros [[[Hc | Hc] | Hc] | Hc]; apply Ascii.eqb_eq in Hc; subst; reflexivity.
Qed.

Lemma all_json_ws_all_space s : all_json_ws s = true -> all_space s = true.
Proof.
  induction s as [|c s IH]; [reflexivity|]. simpl.
  rewrite !andb_true_iff. intros [Hc Hs]. split; [now apply json_ws_is_space | auto].
Qed.

(** *** Stripping *)

Section Strip.
Variable p : ascii -> bool.

Lemma lstrip_by_app a s :
  all_p p a = true -> lstrip_by p (a +:+ s) = lstrip_by p s.
Proof.
  induction a as [|c a IH]; [reflexivity|]. simpl.
  rewrite andb_true_iff. intros [Hc Ha]. rewrite ?append_cons. simpl.
  rewrite Hc. auto.
Qed.

Lemma lstrip_by_head c s : p c = false -> lstrip_by p (String c s) = String c s.
Proof. intros Hc. simpl. now rewrite Hc. Qed.

Lemma rstrip_by_all b : all_p p b = true -> rstrip_by p b = EmptyString.
Proof.
  induction b as [|c b IH]; [reflexivity|]. simpl.
  rewrite andb_true_iff. intros [Hc Hb]. now rewrite (IH Hb), Hc.
Qed.

(** A text that ends with a character outside [p] keeps its end; what
    follows of [p] is dropped. *)
Lemma rstrip_by_end s c b :
  p c = false -> all_p p b = true ->
  rstrip_by p (s +:+ String c b) = s +:+ String c EmptyString.
Proof.
  intros Hc Hb. induction s as [|x s IH].
  - rewrite ?append_nil_l. simpl. now rewrite (rstrip_by_all b Hb), Hc.
  - rewrite ?append_cons. simpl. rewrite IH.
    destruct s; reflexivity.
Qed.

End Strip.

Lemma all_p_space s : all_p is_space s = all_space s.
Proof. induction s as [|c s IH]; [reflexivity|]. simpl. now rewrite IH. Qed.

Lemma all_p_json_ws s : all_p is_json_ws s = all_json_ws s.
Proof. induction s as [|c s IH]; [reflexivity|]. simpl. now rewrite IH. Qed.

(** *** The closing fence *)

Lemma last_char_app s c t :
  last_char (s +:+ String c t) = last_char (String c t).
Proof.
  induction s as [|x s IH]; [reflexivity|].
  rewrite ?append_cons. cbn [last_char]. rewrite IH.
  destruct (s +:+ String c t) eqn:E; [|reflexivity].
  destruct s; discriminate.
Qed.

Lemma all_space_last r c :
  all_space r = true -> last_char r = Some c -> is_space c = true.
Proof.
  induction r as [|x r IH]; [discriminate|]. simpl.
  rewrite andb_true_iff. intros [Hx Hr].
  destruct r; [now intros [= <-] | auto].
Qed.

Lemma drop_prefix_Some lit s r : drop_prefix lit s = Some r -> s = lit +:+ r.
Proof.
  revert s. induction lit as [|a lit IH]; intros s; simpl.
  - now intros [= <-].
  - destruct s as [|b s]; [discriminate|].
    destruct (Ascii.eqb_spec a b) as [<- | _]; [|discriminate].
    intros Hd. rewrite ?append_cons. f_equal. auto.
Qed.

(** Before the end of a text that ends with the fence on a line of
    its own, the closing pattern matches nowhere. *)
Lemma no_early_closing_fence c x :
  closing_fence_here (String c (x +:+ nl +:+ "```")) = false.
Proof.
  assert (forall lit r,
            (String.length lit <= 4)%nat ->
            drop_prefix lit (String c (x +:+ nl +:+ "```")) = Some r ->
            all_space r = false) as Hno.
  { intros lit r Hlen Hd. apply drop_prefix_Some in Hd.
    destruct (all_space r) eqn:Hsp; [|reflexivity]. exfalso.
    assert (last_char (String c (x +:+ nl +:+ "```")) = Some "`"%char) as Hlast.
    { change (String c (x +:+ nl +:+ "```"))
        with (String c x +:+ String "010" "```").
      now rewrite last_char_app. }
    destruct r as [|y r].
    - apply (f_equal String.length) in Hd.
      rewrite append_nil_r in Hd. simpl in Hd.
      rewrite !length_append in Hd. simpl in Hd. lia.
    - rewrite Hd, last_char_app in Hlast.
      pose proof (all_space_last _ _ Hsp Hlast) as Hbad. discriminate. }
  unfold closing_fence_here.
  destruct (drop_prefix (nl +:+ "```") _) as [r1|] eqn:E1;
    destruct (drop_prefix "```" _) as [r2|] eqn:E2; try reflexivity.
  - rewrite (Hno (nl +:+ "```") r1 ltac:(simpl; lia) E1),
      (Hno "```" r2 ltac:(simpl; lia) E2).
    reflexivity.
  - now rewrite (Hno (nl +:+ "```") r1 ltac:(simpl; lia) E1).
  - now rewrite (Hno "```" r2 ltac:(simpl; lia) E2).
Qed.

Lemma sub_closing_fence_end x : sub_closing_fence (x +:+ nl +:+ "```") = x.
Proof.
  induction x as [|c x IH]; [reflexivity|].
  change (String c x +:+ nl +:+ "```") with (String c (x +:+ nl +:+ "```")).
  cbn [sub_closing_fence]. rewrite no_early_closing_fence. now rewrite IH.
Qed.

(** *** The brace search *)

Lemma up_to_last_brace_ws b : all_json_ws b = true -> up_to_last_brace b = None.
Proof.
  induction b as [|c b IH]; [reflexivity|]. simpl.
  rewrite andb_true_iff. intros [Hc Hb]. rewrite (IH Hb).
  destruct (Ascii.eqb_spec c "}") as [-> | _]; [discriminate | reflexivity].
Qed.

Lemma up_to_last_brace_end s b :
  all_json_ws b = true ->
  up_to_last_brace (s +:+ String "}" b) = Some (s +:+ String "}" EmptyString).
Proof.
  intros Hb. induction s as [|c s IH].
  - rewrite ?append_nil_l. simpl. now rewrite (up_to_last_brace_ws b Hb).
  - rewrite ?append_cons. simpl. now rewrite IH.
Qed.

(** *** Bare and fenced texts *)

Lemma fenced_shape tag a body b :
  fenced tag (a +:+ String "{" (body +:+ String "}" b))
  = "```" +:+ tag +:+ nl +:+ a
    +:+ String "{" ((body +:+ String "}" b) +:+ nl +:+ "```").
Proof.
  unfold fenced.
  repeat (first [rewrite append_assoc | rewrite append_cons]). reflexivity.
Qed.

Lemma fenced_end tag J :
  fenced tag J
  = ("```" +:+ tag +:+ nl +:+ J +:+ nl +:+ String "`" (String "`" EmptyString))
    +:+ String "`" EmptyString.
Proof.
  unfold fenced.
  repeat (first [rewrite append_assoc | rewrite append_cons]). reflexivity.
Qed.

Lemma strip_fenced tag J : strip (fenced tag J) = fenced tag J.
Proof.
  unfold strip, strip_by.
  change (lstrip_by is_space (fenced tag J)) with (fenced tag J).
  rewrite fenced_end at 1.
  rewrite rstrip_by_end by reflexivity.
  now rewrite <- fenced_end.
Qed.

Lemma unfenced_bare a body b :
  all_json_ws a = true ->
  all_json_ws b = true ->
  unfenced (a +:+ String "{" (body +:+ String "}" b))
  = String "{" (body +:+ String "}" EmptyString).
Proof.
  intros Ha Hb. unfold unfenced, strip, strip_by.
  rewrite lstrip_by_app by (rewrite all_p_space; now apply all_json_ws_all_space).
  rewrite lstrip_by_head by reflexivity.
  change (String "{" (body +:+ String "}" b))
    with (String "{" body +:+ String "}" b).
  rewrite rstrip_by_end;
    [| reflexivity | rewrite all_p_space; now apply all_json_ws_all_space].
  reflexivity.
Qed.

(** JSON whitespace after the closing brace changes neither attempt. *)
Lemma parse_attempts_trailing_ws body b :
  all_json_ws b = true ->
  parse_attempts (String "{" (body +:+ String "}" b))
  = parse_attempts (String "{" (body +:+ String "}" EmptyString)).
Proof.
  intros Hb.
  assert (forall t, all_json_ws t = true ->
            strip_by is_json_ws (String "{" (body +:+ String "}" t))
            = String "{" (body +:+ String "}" EmptyString)) as Htrim.
  { intros t Ht. unfold strip_by.
    rewrite lstrip_by_head by reflexivity.
    change (String "{" (body +:+ String "}" t))
      with (String "{" body +:+ String "}" t).
    rewrite rstrip_by_end; [reflexivity | reflexivity | now rewrite all_p_json_ws]. }
  assert (forall t, all_json_ws t = true ->
            search_braces (String "{" (body +:+ String "}" t))
            = Some (String "{" (body +:+ String "}" EmptyString))) as Hsearch.
  { intros t Ht. cbn [search_braces].
    change (Ascii.eqb "{" "{") with true. cbv iota.
    change (String "{" (body +:+ String "}" t))
      with (String "{" body +:+ String "}" t).
    now rewrite up_to_last_brace_end. }
  unfold parse_attempts, json_loads.
  rewrite (Htrim b Hb), (Htrim EmptyString eq_refl).
  rewrite (Hsearch b Hb), (Hsearch EmptyString eq_refl).
  reflexivity.
Qed.

(** *** What the decoder consumes *)

Lemma lstrip_by_split p s :
  exists a, s = a +:+ lstrip_by p s /\ all_p p a = true.
Proof.
  induction s as [|c s (a & Hs & Ha)]; [now exists EmptyString|].
  simpl. destruct (p c) eqn:Hc.
  - exists (String c a). split.
    + rewrite append_cons. now f_equal.
    + simpl. now rewrite Hc, Ha.
  - now exists EmptyString.
Qed.

Lemma rstrip_by_split p s :
  exists b, s = rstrip_by p s +:+ b /\ all_p p b = true.
Proof.
  induction s as [|c s (b & Hs & Hb)]; [now exists EmptyString|].
  simpl. destruct (rstrip_by p s) as [|c' r'] eqn:Hr.
  - rewrite append_nil_l in Hs. subst b. destruct (p c) eqn:Hc.
    + exists (String c s). split; [now rewrite append_nil_l|].
      simpl. now rewrite Hc, Hb.
    + exists s. split; [|assumption].
      now rewrite append_cons, append_nil_l.
  - exists b. split; [|assumption]. rewrite append_cons. now f_equal.
Qed.

Lemma is_suffix_refl s : is_suffix s s.
Proof. exists EmptyString. now rewrite append_nil_l. Qed.

Lemma is_suffix_trans a b c : is_suffix a b -> is_suffix b c -> is_suffix a c.
Proof.
  intros [p ->] [q ->]. exists (q +:+ p). now rewrite append_assoc.
Qed.

Lemma is_suffix_tail c s : is_suffix s (String c s).
Proof. exists (String c EmptyString). now rewrite append_cons, append_nil_l. Qed.

Lemma is_suffix_cons c rest s : is_suffix rest s -> is_suffix rest (String c s).
Proof. intros Hs. exact (is_suffix_trans _ _ _ Hs (is_suffix_tail c s)). Qed.

Lemma skip_ws_suffix s : is_suffix (skip_ws s) s.
Proof. destruct (lstrip_by_split is_json_ws s) as (a & Hs & _). now exists a. Qed.

Lemma drop_prefix_suffix lit s r : drop_prefix lit s = Some r -> is_suffix r s.
Proof. intros Hd. exists lit. now apply drop_prefix_Some. Qed.

Lemma closes_suffix P rest s : closes P rest s -> is_suffix rest s.
Proof.
  intros (c & _ & Hs). exact (is_suffix_trans _ _ _ (is_suffix_tail c rest) Hs).
Qed.

Lemma closes_within P rest s s' :
  closes P rest s -> is_suffix s s' -> closes P rest s'.
Proof.
  intros (c & Hc & Hs) Hs'. exists c. split; [assumption|].
  exact (is_suffix_trans _ _ _ Hs Hs').
Qed.

Lemma closes_impl (P Q : ascii -> Prop) rest s :
  (forall c, P c -> Q c) -> closes P rest s -> closes Q rest s.
Proof. intros HPQ (c & Hc & Hs). exists c. auto. Qed.

Lemma closes_here (P : ascii -> Prop) c rest :
  P c -> closes P rest (String c rest).
Proof. intros Hc. exists c. split; [assumption | apply is_suffix_refl]. Qed.

Lemma closes_cons P c rest s : closes P rest s -> closes P rest (String c s).
Proof. intros Hs. exact (closes_within _ _ _ _ Hs (is_suffix_tail c s)). Qed.

Lemma span_digits_split s ds rest :
  span_digits s = (ds, rest) -> s = ds +:+ rest /\ all_p is_digit ds = true.
Proof.
  revert ds rest. induction s as [|c s IH]; intros ds rest; simpl.
  - intros [= <- <-]. now split.
  - destruct (is_digit c) eqn:Hc.
    + destruct (span_digits s) as [ds' rest']. intros [= <- <-].
      destruct (IH _ _ eq_refl) as [Hs Hds]. split.
      * rewrite append_cons. now f_equal.
      * simpl. now rewrite Hc, Hds.
    + intros [= <- <-]. now split.
Qed.

Lemma digits_close ds rest :
  all_p is_digit ds = true -> ds <> EmptyString ->
  closes (fun c => is_digit c = true) rest (ds +:+ rest).
Proof.
  induction ds as [|c ds IH]; [congruence|]. simpl.
  rewrite andb_true_iff. intros [Hc Hds] _.
  rewrite append_cons. destruct ds as [|c' ds'].
  - rewrite append_nil_l. now apply closes_here.
  - apply closes_cons, IH; [assumption | discriminate].
Qed.

Lemma span_digits_closes s c ds rest :
  span_digits s = (String c ds, rest) ->
  closes (fun c => is_digit c = true) rest s.
Proof.
  intros Hd. apply span_digits_split in Hd as [-> Hds].
  apply digits_close; [assumption | discriminate].
Qed.

Lemma scan_string_closes s :
  forall t rest,
    scan_string s = Some (t, rest) -> closes (fun c => c = quote) rest s.
Proof.
  induction s as [s IH] using (induction_ltof1 _ String.length).
  unfold ltof in IH. intros t rest.
  destruct s as [|c r]; simpl; [discriminate|].
  destruct (Ascii.eqb c quote) eqn:Hq.
  { apply Ascii.eqb_eq in Hq. subst c. intros [= <- <-]. now apply closes_here. }
  destruct (Ascii.eqb c backslash).
  - destruct r as [|e r1]; [discriminate|].
    destruct (Ascii.eqb e "u").
    + destruct r1 as [|h1 [|h2 [|h3 [|h4 r2]]]]; try discriminate.
      destruct (unicode_escape h1 h2 h3 h4); [|discriminate].
      destruct (scan_string r2) as [[t' rest']|] eqn:Hr; [|discriminate].
      intros [= <- <-]. apply IH in Hr; [|simpl; lia].
      now repeat apply closes_cons.
    + destruct (unescape e); [|discriminate].
      destruct (scan_string r1) as [[t' rest']|] eqn:Hr; [|discriminate].
      intros [= <- <-]. apply IH in Hr; [|simpl; lia].
      now repeat apply closes_cons.
  - destruct (N_of_ascii c <? 32)%N; [discriminate|].
    destruct (scan_string r) as [[t' rest']|] eqn:Hr; [|discriminate].
    intros [= <- <-]. apply IH in Hr; [|simpl; lia].
    now apply closes_cons.
Qed.

Lemma scan_frac_closes s fs rest :
  scan_frac s = Some (fs, rest) -> closes (fun c => is_digit c = true) rest s.
Proof.
  destruct s as [|c r]; simpl; [discriminate|].
  destruct (Ascii.eqb c "."); [|discriminate].
  destruct (span_digits r) as [ds rest'] eqn:Hd.
  destruct ds; [discriminate|]. intros [= <- <-].
  apply closes_cons. now apply span_digits_closes in Hd.
Qed.

Lemma scan_exp_closes s e rest :
  scan_exp s = Some (e, rest) -> closes (fun c => is_digit c = true) rest s.
Proof.
  destruct s as [|c r]; simpl; [discriminate|].
  destruct (Ascii.eqb c "e" || Ascii.eqb c "E"); [|discriminate].
  assert (forall negative r1, is_suffix r1 r ->
            match span_digits r1 with
            | (EmptyString, _) => None
            | (ds, rest0) =>
                Some ((if negative : bool then - digits_value 0 ds
                       else digits_value 0 ds), rest0)
            end = Some (e, rest) ->
            closes (fun c => is_digit c = true) rest (String c r)) as Hdigits.
  { intros negative r1 Hr1.
    destruct (span_digits r1) as [ds rest'] eqn:Hd.
    destruct ds; [discriminate|]. intros [= <- <-].
    apply closes_cons. apply span_digits_closes in Hd.
    exact (closes_within _ _ _ _ Hd Hr1). }
  destruct r as [|sg r']; [exact (Hdigits false _ (is_suffix_refl _))|].
  destruct (Ascii.eqb sg "-"); [exact (Hdigits true _ (is_suffix_tail _ _))|].
  destruct (Ascii.eqb sg "+"); [exact (Hdigits false _ (is_suffix_tail _ _))|].
  exact (Hdigits false _ (is_suffix_refl _)).
Qed.

(** A number ends with a digit. *)
Lemma scan_number_closes s v rest :
  scan_number s = Some (v, rest) ->
  closes (fun c => is_digit c = true) rest s /\ scalar v.
Proof.
  unfold scan_number.
  assert (forall negative s1, is_suffix s1 s ->
            match
              match s1 with
              | String c r =>
                  if Ascii.eqb c "0" then Some (String c EmptyString, r)
                  else if is_digit c then Some (span_digits s1)
                  else None
              | EmptyString => None
              end
            with
            | None => None
            | Some (ds, r1) =>
                let sign (n : Z) := if negative : bool then - n else n in
                let '(frac, r2) :=
                  match scan_frac r1 with
                  | Some (fs, rest) => (Some fs, rest)
                  | None => (None, r1)
                  end in
                let '(ex, r3) :=
                  match scan_exp r2 with
                  | Some (e, rest) => (Some e, rest)
                  | None => (None, r2)
                  end in
                match frac, ex with
                | None, None => Some (JInt (sign (digits_value 0 ds)), r3)
                | _, _ =>
                    let fs :=
                      match frac with Some fs => fs | None => EmptyString end in
                    let e := match ex with Some e => e | None => 0 end in
                    let m := digits_value (digits_value 0 ds) fs in
                    Some (JFloat (decimal (sign m)
                                    (e - Z.of_nat (String.length fs))), r3)
                end
            end = Some (v, rest) ->
            closes (fun c => is_digit c = true) rest s /\ scalar v) as Hbody.
  { intros negative s1 Hs1.
    assert (forall ds r1, closes (fun c => is_digit c = true) r1 s1 ->
              (let sign (n : Z) := if negative : bool then - n else n in
               let '(frac, r2) :=
                 match scan_frac r1 with
                 | Some (fs, rest) => (Some fs, rest)
                 | None => (None, r1)
                 end in
               let '(ex, r3) :=
                 match scan_exp r2 with
                 | Some (e, rest) => (Some e, rest)
                 | None => (None, r2)
                 end in
               match frac, ex with
               | None, None => Some (JInt (sign (digits_value 0 ds)), r3)
               | _, _ =>
                   let fs :=
                     match frac with Some fs => fs | None => EmptyString end in
                   let e := match ex with Some e => e | None => 0 end in
                   let m := digits_value (digits_value 0 ds) fs in
                   Some (JFloat (decimal (sign m)
                                   (e - Z.of_nat (String.length fs))), r3)
               end) = Some (v, rest) ->
              closes (fun c => is_digit c = true) rest s /\ scalar v) as Htail.
    { intros ds r1 Hr1. cbv zeta.
      assert (closes (fun c => is_digit c = true) r1 s) as Hr1s
        by exact (closes_within _ _ _ _ Hr1 Hs1).
      pose proof (closes_suffix _ _ _ Hr1s) as Hsuf1.
      destruct (scan_frac r1) as [[fs r2]|] eqn:Hf.
      - apply scan_frac_closes in Hf.
        assert (closes (fun c => is_digit c = true) r2 s) as Hr2
          by exact (closes_within _ _ _ _ Hf Hsuf1).
        pose proof (closes_suffix _ _ _ Hr2) as Hsuf2.
        destruct (scan_exp r2) as [[e r3]|] eqn:He.
        + apply scan_exp_closes in He. intros [= <- <-]. split; [|exact I].
          exact (closes_within _ _ _ _ He Hsuf2).
        + intros [= <- <-]. now split.
      - destruct (scan_exp r1) as [[e r3]|] eqn:He.
        + apply scan_exp_closes in He. intros [= <- <-]. split; [|exact I].
          exact (closes_within _ _ _ _ He Hsuf1).
        + intros [= <- <-]. now split. }
    destruct s1 as [|c r]; [discriminate|].
    destruct (Ascii.eqb c "0") eqn:Hzero.
    { apply Ascii.eqb_eq in Hzero. subst c. apply Htail. now apply closes_here. }
    destruct (is_digit c) eqn:Hdig; [|discriminate].
    destruct (span_digits (String c r)) as [ds r1] eqn:Hd.
    assert (ds <> EmptyString) as Hne.
    { simpl in Hd. rewrite Hdig in Hd. destruct (span_digits r).
      injection Hd as <- _. discriminate. }
    apply span_digits_split in Hd as [Hs Hds].
    apply Htail. rewrite Hs. now apply digits_close. }
  destruct s as [|c r]; [exact (Hbody false _ (is_suffix_refl _))|].
  destruct (Ascii.eqb c "-");
    [exact (Hbody true _ (is_suffix_tail _ _))
    | exact (Hbody false _ (is_suffix_refl _))].
Qed.

Lemma drop_prefix_closes lit c s r :
  drop_prefix (lit +:+ String c EmptyString) s = Some r ->
  closes (fun x => x = c) r s.
Proof.
  intros Hd. apply drop_prefix_Some in Hd. exists c. split; [reflexivity|].
  exists lit. now rewrite Hd, append_assoc.
Qed.

(** A literal or a number does not end with a closing brace. *)
Lemma scan_literal_closes s v rest :
  scan_literal s = Some (v, rest) ->
  closes (fun c => c <> "}"%char) rest s /\ scalar v.
Proof.
  unfold scan_literal.
  destruct (drop_prefix "null" s) eqn:H1.
  { intros [= <- <-]. split; [|exact I].
    apply (closes_impl (fun x => x = "l"%char)); [now intros c -> |].
    exact (drop_prefix_closes "nul" _ _ _ H1). }
  destruct (drop_prefix "true" s) eqn:H2.
  { intros [= <- <-]. split; [|exact I].
    apply (closes_impl (fun x => x = "e"%char)); [now intros c -> |].
    exact (drop_prefix_closes "tru" _ _ _ H2). }
  destruct (drop_prefix "false" s) eqn:H3.
  { intros [= <- <-]. split; [|exact I].
    apply (closes_impl (fun x => x = "e"%char)); [now intros c -> |].
    exact (drop_prefix_closes "fals" _ _ _ H3). }
  intros Hn. apply scan_number_closes in Hn as [Hn Hv]. split; [|assumption].
  revert Hn. apply closes_impl. now intros c Hc ->.
Qed.

(** What a scan leaves is a suffix of its input.  A value that ends
    with a closing brace started with an opening one, and a dict that
    [scan_value] returns was read from an opening brace up to the
    closing brace right before what is left. *)
Lemma scan_consumes fuel :
  (forall s v rest,
     scan_value fuel s = Some (v, rest) ->
     closes (fun c => c = "}"%char -> exists s', s = String "{" s') rest s
     /\ forall fields, v = JDict fields ->
          exists body, s = String "{" (body +:+ String "}" rest))
  /\ (forall s acc v rest,
        scan_members fuel s acc = Some (v, rest) ->
        is_suffix (String "}" rest) s)
  /\ (forall s acc v rest,
        scan_elements fuel s acc = Some (v, rest) ->
        is_suffix (String "]" rest) s /\ exists items, v = JList items).
Proof.
  induction fuel as [|fuel (IHv & IHm & IHe)]; [repeat split; discriminate|].
  split; [|split].
  - intros s v rest. cbn [scan_value].
    destruct s as [|c r]; [discriminate|].
    destruct (Ascii.eqb c "{") eqn:Hc.
    { apply Ascii.eqb_eq in Hc. subst c.
      assert (is_suffix (String "}" rest) r ->
              closes (fun c => c = "}"%char ->
                               exists s', String "{" r = String "{" s')
                rest (String "{" r)
              /\ forall fields : list (string * json), v = JDict fields ->
                   exists body,
                     String "{" r = String "{" (body +:+ String "}" rest))
        as Hshape.
      { intros Hr. split.
        - exists "}"%char. split; [intros _; now exists r|].
          now apply is_suffix_cons.
        - destruct Hr as [body ->]. intros _ _. now exists body. }
      destruct (skip_ws r) as [|c1 r1] eqn:Hr; [discriminate|].
      pose proof (skip_ws_suffix r) as Hws. rewrite Hr in Hws.
      destruct (Ascii.eqb c1 "}") eqn:Hc1.
      - apply Ascii.eqb_eq in Hc1. subst c1. intros [= <- <-].
        now apply Hshape.
      - intros Hm. apply IHm in Hm. apply Hshape.
        exact (is_suffix_trans _ _ _ Hm Hws). }
    destruct (Ascii.eqb c "[") eqn:Hb.
    { destruct (skip_ws r) as [|c1 r1] eqn:Hr; [discriminate|].
      pose proof (skip_ws_suffix r) as Hws. rewrite Hr in Hws.
      assert (is_suffix (String "]" rest) r ->
              closes (fun x => x = "}"%char ->
                               exists s', String c r = String "{" s')
                rest (String c r)) as Hshape.
      { intros Hr'. exists "]"%char. split; [discriminate|].
        now apply is_suffix_cons. }
      destruct (Ascii.eqb c1 "]") eqn:Hc1.
      - apply Ascii.eqb_eq in Hc1. subst c1. intros [= <- <-].
        split; [now apply Hshape | discriminate].
      - intros He. apply IHe in He as (He & items & ->).
        split; [|discriminate]. apply Hshape.
        exact (is_suffix_trans _ _ _ He Hws). }
    destruct (Ascii.eqb c quote).
    { destruct (scan_string r) as [[t rest']|] eqn:Hs; [|discriminate].
      intros [= <- <-]. split; [|discriminate].
      apply closes_cons. apply scan_string_closes in Hs.
      revert Hs. apply closes_impl. intros x -> Hx. discriminate Hx. }
    intros Hl. apply scan_literal_closes in Hl as [Hl Hv]. split.
    + revert Hl. apply closes_impl. intros x Hx Hx'. contradiction.
    + intros fields ->. destruct Hv.
  - intros s acc v rest. cbn [scan_members].
    destruct s as [|c r]; [discriminate|].
    destruct (Ascii.eqb c quote); [|discriminate].
    destruct (scan_string r) as [[key r1]|] eqn:Hs; [|discriminate].
    apply scan_string_closes, closes_suffix in Hs.
    destruct (skip_ws r1) as [|c2 r2] eqn:Hr1; [discriminate|].
    pose proof (skip_ws_suffix r1) as Hws1. rewrite Hr1 in Hws1.
    destruct (Ascii.eqb c2 ":"); [|discriminate].
    destruct (scan_value fuel (skip_ws r2)) as [[v' r3]|] eqn:Hv; [|discriminate].
    apply IHv in Hv as [Hv _]. apply closes_suffix in Hv.
    destruct (skip_ws r3) as [|c4 r4] eqn:Hr3; [discriminate|].
    pose proof (skip_ws_suffix r3) as Hws3. rewrite Hr3 in Hws3.
    assert (is_suffix (String c4 r4) (String c r)) as Hhere.
    { apply is_suffix_cons.
      refine (is_suffix_trans _ _ _ _ Hs).
      refine (is_suffix_trans _ _ _ _ Hws1). apply is_suffix_cons.
      refine (is_suffix_trans _ _ _ _ (skip_ws_suffix r2)).
      exact (is_suffix_trans _ _ _ Hws3 Hv). }
    destruct (Ascii.eqb c4 ",").
    + intros Hm. apply IHm in Hm.
      refine (is_suffix_trans _ _ _ _ Hhere). apply is_suffix_cons.
      exact (is_suffix_trans _ _ _ Hm (skip_ws_suffix r4)).
    + destruct (Ascii.eqb c4 "}") eqn:Hc4; [|discriminate].
      apply Ascii.eqb_eq in Hc4. subst c4. intros [= <- <-]. exact Hhere.
  - intros s acc v rest. cbn [scan_elements].
    destruct (scan_value fuel s) as [[v' r1]|] eqn:Hv; [|discriminate].
    apply IHv in Hv as [Hv _]. apply closes_suffix in Hv.
    destruct (skip_ws r1) as [|c2 r2] eqn:Hr1; [discriminate|].
    pose proof (skip_ws_suffix r1) as Hws1. rewrite Hr1 in Hws1.
    assert (is_suffix (String c2 r2) s) as Hhere
      by exact (is_suffix_trans _ _ _ Hws1 Hv).
    destruct (Ascii.eqb c2 ",").
    + intros He. apply IHe in He as (He & items & ->). split; [|now exists items].
      refine (is_suffix_trans _ _ _ _ Hhere). apply is_suffix_cons.
      exact (is_suffix_trans _ _ _ He (skip_ws_suffix r2)).
    + destruct (Ascii.eqb c2 "]") eqn:Hc2; [|discriminate].
      apply Ascii.eqb_eq in Hc2. subst c2.
      intros [= <- <-]. split; [assumption | now eexists].
Qed.

(** Every text that [json.loads] decodes to a dict has the shape of
    an object text. *)
Lemma json_object_text J fields :
  json_loads J = Some (JDict fields) -> object_text J.
Proof.
  unfold json_loads, strip_by.
  destruct (lstrip_by_split is_json_ws J) as (a & HJ & Ha).
  destruct (rstrip_by_split is_json_ws (lstrip_by is_json_ws J)) as (b & Ht & Hb).
  destruct (scan_value _ _) as [[v rest]|] eqn:Hscan; [|discriminate].
  destruct rest; [|discriminate]. intros [= ->].
  apply scan_consumes in Hscan as [_ Hshape].
  destruct (Hshape fields eq_refl) as (body & Hbody).
  exists a, body, b. rewrite all_p_json_ws in Ha, Hb. split; [|now split].
  rewrite HJ at 1. rewrite Ht at 1. rewrite Hbody.
  now rewrite !append_cons, append_assoc, !append_cons, append_nil_l.
Qed.

(** A text that ends with a closing brace and does not start with an
    opening one is not decoded. *)
Lemma json_loads_needs_brace c x b :
  is_json_ws c = false -> c <> "{"%char -> all_json_ws b = true ->
  json_loads (String c x +:+ String "}" b) = None.
Proof.
  intros Hws Hc Hb. unfold json_loads, strip_by.
  rewrite append_cons, lstrip_by_head by assumption. rewrite <- append_cons.
  rewrite rstrip_by_end; [| reflexivity | now rewrite all_p_json_ws].
  destruct (scan_value _ _) as [[v rest]|] eqn:Hscan; [|reflexivity].
  destruct rest; [|reflexivity]. exfalso.
  apply scan_consumes in Hscan as [(c' & Hc' & pre & Hpre) _].
  assert (c' = "}"%char) as ->.
  { apply (f_equal last_char) in Hpre. rewrite !last_char_app in Hpre.
    simpl in Hpre. congruence. }
  destruct (Hc' eq_refl) as (s' & Hs'). rewrite append_cons in Hs'.
  injection Hs' as Hhead _. now apply Hc.
Qed.

(** *** Any language tag *)

Lemma all_p_app p s t : all_p p (s +:+ t) = all_p p s && all_p p t.
Proof.
  induction s as [|c s IH]; [reflexivity|].
  rewrite append_cons. simpl. now rewrite IH, andb_assoc.
Qed.

Lemma all_p_lstrip_by q p s :
  all_p q s = true -> all_p q (lstrip_by p s) = true.
Proof.
  induction s as [|c s IH]; [reflexivity|]. intros Hs. simpl.
  destruct (p c); [|assumption].
  simpl in Hs. apply andb_true_iff in Hs as [_ Hs]. auto.
Qed.

Lemma json_ws_not_open_brace a :
  all_json_ws a = true -> all_p not_open_brace a = true.
Proof.
  induction a as [|c a IH]; [reflexivity|]. simpl.
  rewrite !andb_true_iff. intros [Hc Ha]. split; [|auto].
  unfold not_open_brace.
  destruct (Ascii.eqb_spec c "{") as [-> | _]; [discriminate | reflexivity].
Qed.

Lemma drop_prefix_app lit s : drop_prefix lit (lit +:+ s) = Some s.
Proof.
  induction lit as [|c lit IH]; [reflexivity|].
  rewrite append_cons. simpl. now rewrite Ascii.eqb_refl.
Qed.

Lemma drop_prefix_app_l lit tag t1 u :
  drop_prefix lit tag = Some t1 -> drop_prefix lit (tag +:+ u) = Some (t1 +:+ u).
Proof.
  intros Hd. apply drop_prefix_Some in Hd. subst tag.
  now rewrite append_assoc, drop_prefix_app.
Qed.

(** A prefix that holds no [x] is not completed by a text that starts
    with [x]. *)
Lemma drop_prefix_app_None lit x u :
  all_p (fun l => negb (Ascii.eqb l x)) lit = true ->
  forall tag,
    drop_prefix lit tag = None -> drop_prefix lit (tag +:+ String x u) = None.
Proof.
  induction lit as [|l lit IH]; intros Hlit tag; [discriminate|].
  simpl in Hlit. apply andb_true_iff in Hlit as [Hl Hlit].
  destruct tag as [|t tag].
  - intros _. rewrite append_nil_l. simpl.
    apply negb_true_iff in Hl. now rewrite Hl.
  - rewrite append_cons. simpl. destruct (Ascii.eqb l t); [|reflexivity].
    now apply IH.
Qed.

Lemma lstrip_by_stop p W c rest :
  p c = false ->
  lstrip_by p (W +:+ String c rest) = lstrip_by p W +:+ String c rest.
Proof.
  intros Hc. induction W as [|w W IH].
  - rewrite !append_nil_l. simpl. now rewrite Hc.
  - rewrite append_cons. simpl. destruct (p w); [assumption | reflexivity].
Qed.

Lemma lstrip_by_first p s :
  lstrip_by p s = EmptyString
  \/ exists c r, lstrip_by p s = String c r /\ p c = false.
Proof.
  induction s as [|c s IH]; [now left|]. simpl.
  destruct (p c) eqn:Hc; [assumption|]. right. now exists c, s.
Qed.

(** What is left of the opening fence line: nothing when the tag is
    [json] or blank, otherwise the rest of the tag from its first
    character that is not whitespace. *)
Lemma sub_opening_fence_tagged tag a rest :
  all_p not_open_brace tag = true ->
  all_json_ws a = true ->
  exists pre,
    sub_opening_fence ("```" +:+ tag +:+ nl +:+ a +:+ String "{" rest)
    = pre +:+ String "{" rest
    /\ all_p not_open_brace pre = true
    /\ (pre = EmptyString \/ exists c p, pre = String c p /\ is_space c = false).
Proof.
  intros Htag Ha.
  assert (exists tag1,
            all_p not_open_brace tag1 = true
            /\ match drop_prefix "json" (tag +:+ nl +:+ a +:+ String "{" rest) with
               | Some r' => r'
               | None => tag +:+ nl +:+ a +:+ String "{" rest
               end = (tag1 +:+ nl +:+ a) +:+ String "{" rest)
    as (tag1 & Htag1 & Hr1).
  { destruct (drop_prefix "json" tag) as [t1|] eqn:Hd.
    - exists t1. split.
      + pose proof (drop_prefix_Some _ _ _ Hd) as Ht. subst tag.
        rewrite all_p_app in Htag. now apply andb_true_iff in Htag as [_ Htag].
      + rewrite (drop_prefix_app_l _ _ _ _ Hd). now rewrite !append_assoc.
    - exists tag. split; [assumption|].
      change (nl +:+ a +:+ String "{" rest)
        with (String "010" (a +:+ String "{" rest)).
      rewrite (drop_prefix_app_None "json" "010" _ eq_refl tag Hd).
      change (String "010" (a +:+ String "{" rest))
        with (nl +:+ a +:+ String "{" rest).
      now rewrite !append_assoc. }
  assert (all_p not_open_brace (tag1 +:+ nl +:+ a) = true) as HW.
  { rewrite !all_p_app, Htag1, (json_ws_not_open_brace a Ha). reflexivity. }
  unfold sub_opening_fence.
  change (drop_prefix "```" ("```" +:+ tag +:+ nl +:+ a +:+ String "{" rest))
    with (Some (tag +:+ nl +:+ a +:+ String "{" rest)).
  cbv beta iota zeta. rewrite Hr1.
  rewrite lstrip_by_stop by reflexivity.
  exists (lstrip_by is_space (tag1 +:+ nl +:+ a)).
  split; [|split; [now apply all_p_lstrip_by | apply lstrip_by_first]].
  destruct (lstrip_by_first is_space (tag1 +:+ nl +:+ a))
    as [-> | (c & p & -> & Hc)]; [reflexivity|].
  rewrite append_cons. unfold nl. cbn [drop_prefix].
  destruct (Ascii.eqb_spec "010" c) as [<- | _]; [discriminate | reflexivity].
Qed.

Lemma search_braces_skip pre r :
  all_p not_open_brace pre = true ->
  search_braces (pre +:+ String "{" r) = up_to_last_brace (String "{" r).
Proof.
  induction pre as [|c pre IH]; [reflexivity|]. cbn [all_p].
  rewrite andb_true_iff. intros [Hc Hpre].
  rewrite ?append_cons. cbn [search_braces].
  unfold not_open_brace in Hc. apply negb_true_iff in Hc. rewrite Hc. auto.
Qed.

Lemma unfenced_tagged tag a body b :
  all_p not_open_brace tag = true ->
  all_json_ws a = true ->
  exists pre,
    unfenced (fenced tag (a +:+ String "{" (body +:+ String "}" b)))
    = pre +:+ String "{" (body +:+ String "}" b)
    /\ all_p not_open_brace pre = true
    /\ (pre = EmptyString \/ exists c p, pre = String c p /\ is_space c = false).
Proof.
  intros Htag Ha. unfold unfenced. rewrite strip_fenced.
  assert (startswith (fenced tag (a +:+ String "{" (body +:+ String "}" b)))
            "```" = true) as -> by reflexivity.
  rewrite fenced_shape.
  destruct (sub_opening_fence_tagged tag a
              ((body +:+ String "}" b) +:+ nl +:+ "```") Htag Ha)
    as (pre & -> & Hpre & Hfirst).
  exists pre. split; [|now split].
  change (String "{" ((body +:+ String "}" b) +:+ nl +:+ "```"))
    with (String "{" (body +:+ String "}" b) +:+ nl +:+ "```").
  rewrite <- append_assoc. apply sub_closing_fence_end.
Qed.

(** What is left of a tag before the object is skipped by the brace
    search, the decoder having refused the text. *)
Lemma parse_attempts_after_tag pre body b :
  all_p not_open_brace pre = true ->
  pre = EmptyString \/ (exists c p, pre = String c p /\ is_space c = false) ->
  all_json_ws b = true ->
  parse_attempts (pre +:+ String "{" (body +:+ String "}" b))
  = parse_attempts (String "{" (body +:+ String "}" EmptyString)).
Proof.
  intros Hpre [-> | (c & p & -> & Hc)] Hb.
  - rewrite append_nil_l. now apply parse_attempts_trailing_ws.
  - assert (forall t, all_json_ws t = true ->
              search_braces (String "{" (body +:+ String "}" t))
              = Some (String "{" (body +:+ String "}" EmptyString))) as Hsearch.
    { intros t Ht. cbn [search_braces].
      change (Ascii.eqb "{" "{") with true. cbv iota.
      change (String "{" (body +:+ String "}" t))
        with (String "{" body +:+ String "}" t).
      now rewrite up_to_last_brace_end. }
    unfold parse_attempts.
    assert (json_loads (String c p +:+ String "{" (body +:+ String "}" b)) = None)
      as ->.
    { change (String "{" (body +:+ String "}" b))
        with (String "{" body +:+ String "}" b).
      rewrite <- append_assoc, append_cons.
      apply json_loads_needs_brace; [| |assumption].
      - destruct (is_json_ws c) eqn:Hws; [|reflexivity].
        apply json_ws_is_space in Hws. congruence.
      - intros ->. simpl in Hpre. discriminate. }
    rewrite (search_braces_skip _ _ Hpre).
    change (up_to_last_brace (String "{" (body +:+ String "}" b)))
      with (search_braces (String "{" (body +:+ String "}" b))).
    rewrite (Hsearch b Hb), (Hsearch EmptyString eq_refl).
    now destruct (json_loads _).
Qed.

Section Validation.
Context `{PydanticCore}.

(** C9. For a text [J] of the shape of a JSON object (braces around a
    body, JSON whitespace allowed outside; by [json_object_text] every
    text that [json.loads] decodes to a dict is one) and the fence
    written with any language tag that holds no opening brace (no tag,
    [json], or another word): the fenced text and the bare text are
    parsed to the same data, a typed result of one is the typed result
    of the other, and a failure of one is the failure of the other, of
    the same kind and with the same message (each carries its own
    input as [raw_response]). *)
Theorem fence_stripping_is_transparent (J tag : string)
    (Hobject : object_text J)
    (Htag : all_p not_open_brace tag = true) :
  parse_attempts (unfenced (fenced tag J)) = parse_attempts (unfenced J)
  /\ (forall validated,
        validate_ai_response J = Ok validated <->
        validate_ai_response (fenced tag J) = Ok validated)
  /\ (forall kind message,
        validate_ai_response J = Raise (mk_exn kind message (Some J)) <->
        validate_ai_response (fenced tag J)
        = Raise (mk_exn kind message (Some (fenced tag J)))).
Proof.
  destruct Hobject as (a & body & b & -> & Ha & Hb).
  assert (parse_attempts
            (unfenced (fenced tag (a +:+ String "{" (body +:+ String "}" b))))
          = parse_attempts
              (unfenced (a +:+ String "{" (body +:+ String "}" b)))) as Hsame.
  { destruct (unfenced_tagged tag a body b Htag Ha) as (pre & -> & Hpre & Hfirst).
    rewrite (unfenced_bare a body b Ha Hb).
    now apply parse_attempts_after_tag. }
  split; [exact Hsame|].
  unfold validate_ai_response, validate_payload. rewrite Hsame. clear Hsame.
  destruct (parse_attempts
              (unfenced (a +:+ String "{" (body +:+ String "}" b))))
    as [[| ? | ? | ? | ? | ? | fields]|];
    try (split; [intros validated | intros kind message];
         unfold parse_failed, new_validation_error;
         split; intros [=]; subst; reflexivity).
  destruct (model_validate (JDict fields)) as [validated | errs].
  - split; [intros v | intros kind message]; split; intros [=]; subst; reflexivity.
  - split; [intros v | intros kind message];
      unfold schema_failed, new_validation_error;
      split; intros [=]; subst; reflexivity.
Qed.

End Validation.

Import Conftest.

Lemma fence_stripping_is_transparent_witness :
  parse_attempts (unfenced (fenced "json" NON_CONTRACT_RESPONSE))
  = parse_attempts (unfenced NON_CONTRACT_RESPONSE)
  /\ (forall validated,
        validate_ai_response NON_CONTRACT_RESPONSE = Ok validated <->
        validate_ai_response (fenced "json" NON_CONTRACT_RESPONSE) = Ok validated)
  /\ (forall kind message,
        validate_ai_response NON_CONTRACT_RESPONSE
        = Raise (mk_exn kind message (Some NON_CONTRACT_RESPONSE)) <->
        validate_ai_response (fenced "json" NON_CONTRACT_RESPONSE)
        = Raise (mk_exn kind message
                   (Some (fenced "json" NON_CONTRACT_RESPONSE)))).
Proof.
  apply fence_stripping_is_transparent; [|reflexivity].
  apply (json_object_text _ (items_of NON_CONTRACT_RESPONSE)).
  vm_compute. reflexivity.
Defined.

End FenceFacts.

(* --------------------------------------------------------------------- *)
(** ** The provider clients *)
(* --------------------------------------------------------------------- *)

Module ClientFacts.

Lemma last_cons {A} (x : A) l d : List.last (x :: l) d = List.last l x.
Proof.
  revert x d. induction l as [|y l IH]; intros x d; [reflexivity|].
  change (List.last (x :: y :: l) d) with (List.last (y :: l) d).
  now rewrite (IH y d), (IH y x).
Qed.

Lemma split_messages_spec messages :
  forall system non_system,
    split_messages messages system non_system
    = (List.last (map content (List.filter is_system messages)) system,
       non_system ++ List.filter is_not_system messages).
Proof.
  induction messages as [|msg rest IH]; intros system non_system.
  - cbn. now rewrite app_nil_r.
  - cbn [split_messages List.filter]. unfold is_not_system at 1.
    change (String.eqb (role msg) "system") with (is_system msg).
    destruct (is_system msg); cbn [negb map].
    + rewrite IH. f_equal. now rewrite last_cons.
    + rewrite IH, <- app_assoc. reflexivity.
Qed.

(** C6, as the code has it.  The body posted by Variant A carries the
    model, [max_tokens], and in [messages] exactly the messages whose
    role is not [system], in their order.  Of the system-role messages
    only the last one reaches the body: its content is the top-level
    [system] field, which is left out when there is no system message
    or that content is empty.  One request is posted, with this body. *)
Theorem anthropic_request_body (messages : list message) (model : string)
    (c : AsyncClient) :
  anthropic_body messages model
  = JDict ([("model", JStr model);
            ("max_tokens", JInt 4096);
            ("messages",
             JList (map message_to_json (List.filter is_not_system messages)))]
           ++ (if (0 <? String.length (last_system_content messages))%nat
               then [("system", JStr (last_system_content messages))]
               else []))
  /\ requests (snd (anthropic_complete messages model c))
     = requests c ++ [("/v1/messages", anthropic_body messages model)].
Proof.
  split.
  - unfold anthropic_body. rewrite split_messages_spec. simpl app.
    fold (last_system_content messages).
    destruct (0 <? String.length (last_system_content messages))%nat;
      reflexivity.
  - unfold anthropic_complete, post_checked, post.
    destruct (responses c (length (requests c))) as [e | r].
    + destruct (isinstance e TimeoutException); reflexivity.
    + destruct (raise_for_status r) as [r' | e].
      * reflexivity.
      * destruct (isinstance e TimeoutException); reflexivity.
Qed.

(** Against C6 as stated: with two system-role messages the [system]
    field is the content of the second, the content of the first
    occurs nowhere in it, and the body is the one posted without the
    first message. *)
Lemma system_messages_are_not_merged :
  anthropic_body two_system_messages "m"
  = JDict [("model", JStr "m");
           ("max_tokens", JInt 4096);
           ("messages", JList [message_to_json (mk_message "user" "Hello")]);
           ("system", JStr "Answer in French.")]
  /\ occurs_in "Be terse." "Answer in French." = false
  /\ anthropic_body two_system_messages "m"
     = anthropic_body (tl two_system_messages) "m".
Proof. repeat split. Qed.

End ClientFacts.

(* --------------------------------------------------------------------- *)
(** ** The Job Worker *)
(* --------------------------------------------------------------------- *)

Module WorkerFacts.
Import Worker.

Section Jobs.
Context {S : Type} `{Services S}.
Variable analyze : uuid -> uuid -> expr S (option Analysis.t).

(** C1, as the code has it.  The dedup [SET] has gone through, the
    marker is new and the document's lock is held: the job is
    re-queued with delay 30 and the Orchestrator is not invoked; the
    acknowledgment of the [finally] block is made all the same, after
    the requeue, and then processing leaves by the early [return] of
    the handler (or, if one of the two calls on the queue raises, with
    that failure, the one of the acknowledgment first).  In every
    other branch too, once the [SET] has gone through, the
    acknowledgment is the last call made on the queue. *)
Theorem lock_contention_requeues_then_acks (job : Job) (w : WorkerWorld S)
    (Hset : redis_failure (SetNx (dedup_key_of job) "1") w = None)
    (Hnew : redis_keys w !! dedup_key_of job = None)
    (Hheld : lock_key_of job ∈ held_locks w) :
  _process_job analyze job w
  = (match queue_failure (Ack job)
             (called (Requeue job 30) (marked (dedup_key_of job) w)) with
     | Some exc => Throw exc
     | None =>
         match queue_failure (Requeue job 30) (marked (dedup_key_of job) w) with
         | Some exc => Throw exc
         | None => Return tt
         end
     end,
     called (Ack job) (called (Requeue job 30) (marked (dedup_key_of job) w)))
  /\
  (forall w0 : WorkerWorld S,
     redis_failure (SetNx (dedup_key_of job) "1") w0 = None ->
     exists before,
       queue_calls (snd (_process_job analyze job w0))
       = queue_calls w0 ++ before ++ [Ack job]
       /\ (before = [] \/ before = [Requeue job 30])).
Proof.
  assert (forall w1 : WorkerWorld S,
            exists c',
              ((_ <~ queue_ack job ;;; skip)%stmt : stmt (WorkerWorld S) unit) w1
              = (c', called (Ack job) w1)
              /\ (queue_failure (Ack job) w1 = None -> c' = Normal)
              /\ (forall exc, queue_failure (Ack job) w1 = Some exc ->
                              c' = Throw exc)) as Hack.
  { intros w1. unfold await, queue_ack, queue_do, skip, called.
    destruct (queue_failure (Ack job) w1) as [exc|].
    - eexists. split; [reflexivity|]. split; [discriminate|].
      now intros ? [= <-].
    - eexists. split; [reflexivity|]. split; [reflexivity | discriminate]. }
  split.
  - unfold _process_job. cbv zeta.
    unfold await at 1, redis_set_nx. rewrite Hset, Hnew. cbn [negb].
    unfold try_except_finally, async_with_lock. cbn [held_locks].
    destruct (decide (lock_key_of job ∈ held_locks w)); [|contradiction].
    cbn [find_handler].
    change (isinstance (new_exn LockAcquisitionError "lock is held")
              LockAcquisitionError) with true. cbv iota.
    unfold await at 1, queue_requeue, queue_do at 1.
    fold (marked (dedup_key_of job) w).
    fold (called (Requeue job 30) (marked (dedup_key_of job) w)).
    destruct (Hack (called (Requeue job 30) (marked (dedup_key_of job) w)))
      as (c' & Hrun & Hok & Hfail).
    destruct (queue_failure (Ack job) _) as [exc|].
    + rewrite (Hfail exc eq_refl) in Hrun.
      destruct (queue_failure (Requeue job 30) _);
        unfold return_; rewrite Hrun; reflexivity.
    + rewrite (Hok eq_refl) in Hrun.
      destruct (queue_failure (Requeue job 30) _);
        unfold return_; rewrite Hrun; reflexivity.
  - intros w0 Hset0. unfold _process_job. cbv zeta.
    unfold await at 1, redis_set_nx. rewrite Hset0.
    destruct (redis_keys w0 !! dedup_key_of job) eqn:Hkey; cbn [negb].
    + exists []. split; [|now left].
      unfold await, queue_ack, queue_do.
      destruct (queue_failure (Ack job) w0); reflexivity.
    + fold (marked (dedup_key_of job) w0).
      unfold try_except_finally.
      match goal with
      | |- context [async_with_lock ?k ?inner ?w1] =>
          destruct (async_with_lock k inner w1) as [c1 w1'] eqn:Hbody;
          assert (queue_calls w1' = queue_calls w0) as Hsame
      end.
      { unfold async_with_lock in Hbody.
        destruct (decide _) in Hbody; [now injection Hbody as <- <-|].
        unfold await at 1, run_analysis, set_locks in Hbody.
        cbn [service_world marked] in Hbody.
        destruct (analyze _ _ _) as [[a | exc] s'] in Hbody.
        - unfold await, lift, skip in Hbody.
          destruct (read_outcome a); now injection Hbody as <- <-.
        - now injection Hbody as <- <-. }
      assert (exists c2 w2 before,
                match c1 with
                | Throw e =>
                    match
                      find_handler
                        [((fun exc : exn => isinstance exc LockAcquisitionError),
                          (fun _ : exn =>
                             (_ <~ queue_requeue job 30 ;;; return_ tt)%stmt));
                         ((fun exc : exn => isinstance exc Exception),
                          (fun _ : exn =>
                             (_ <~ redis_delete (dedup_key_of job) ;;;
                              skip)%stmt))] e
                    with
                    | Some h => h e w1'
                    | None => (Throw e, w1')
                    end
                | other => (other, w1')
                end = (c2, w2)
                /\ queue_calls w2 = queue_calls w0 ++ before
                /\ (before = [] \/ before = [Requeue job 30]))
        as (c2 & w2 & before & Hhandled & Hcalls & Hbefore).
      { destruct c1 as [| r | e].
        - exists Normal, w1', []. rewrite app_nil_r. auto.
        - exists (Return r), w1', []. rewrite app_nil_r. auto.
        - cbn [find_handler]. destruct (isinstance e LockAcquisitionError).
          + unfold await, queue_requeue, queue_do, return_.
            destruct (queue_failure (Requeue job 30) w1');
              do 2 eexists; exists [Requeue job 30];
              (split; [reflexivity|]); cbn [queue_calls];
              rewrite Hsame; auto.
          + rewrite ExceptionFacts.isinstance_Exception.
            unfold await, redis_delete, skip.
            destruct (redis_failure (Delete (dedup_key_of job)) w1');
              do 2 eexists; exists [];
              (split; [reflexivity|]); cbn [queue_calls];
              rewrite Hsame, app_nil_r; auto. }
      exists before. split; [|exact Hbefore].
      match goal with
      | |- context [let '(c, w) := ?m in _] =>
          replace m with (c2, w2)
      end.
      2:{ rewrite <- Hhandled. now destruct c1. }
      destruct (Hack w2) as (c' & Hrun & _ & _).
      rewrite Hrun. unfold called.
      destruct c'; cbn [snd queue_calls]; rewrite Hcalls;
        now rewrite <- app_assoc.
Qed.

End Jobs.

(** Against C1 as stated: with the lock held, the calls made on the
    queue are the requeue and then the acknowledgment. *)
Lemma lock_contention_is_acknowledged :
  fst (_process_job no_service contended_job contended_world) = Return tt
  /\ queue_calls (snd (_process_job no_service contended_job contended_world))
     = [Requeue contended_job 30; Ack contended_job]
  /\ analyze_calls (snd (_process_job no_service contended_job contended_world))
     = [].
Proof. vm_compute. repeat split. Qed.

Lemma lock_contention_requeues_then_acks_witness :
  _process_job no_service contended_job contended_world
  = (Return tt,
     mk_worker_world (<[dedup_key_of contended_job := "1"]> ∅)
       {[lock_key_of contended_job]}
       [Requeue contended_job 30; Ack contended_job] [] tt).
Proof.
  apply (proj1 (lock_contention_requeues_then_acks (H := reliable_services)
                  no_service contended_job
                  contended_world eq_refl (lookup_empty _)
                  (proj2 (elem_of_singleton _ _) eq_refl))).
Defined.

End WorkerFacts.

(* --------------------------------------------------------------------- *)
(** ** Backoff: what the wrapper sleeps and when it stops *)
(* --------------------------------------------------------------------- *)

Module BackoffFacts.
Import Retry.

Lemma total_delay_app ds1 ds2 :
  total_delay (ds1 ++ ds2) == total_delay ds1 + total_delay ds2.
Proof.
  induction ds1 as [|d ds1 IH]; simpl.
  - now rewrite Qplus_0_l.
  - rewrite IH. now rewrite Qplus_assoc.
Qed.

(** The delays of [n] attempts from attempt [from] on add up to
    [base_delay * (2^(from+n) - 2^from)]. *)
Lemma total_delay_delays base_delay from n :
  total_delay (delays base_delay from n)
  == base_delay * (inject_Z (2 ^ Z.of_nat (from + n))
                   - inject_Z (2 ^ Z.of_nat from)).
Proof.
  revert from. induction n as [|n IH]; intros from.
  - rewrite Nat.add_0_r. simpl. ring.
  - change (delays base_delay from (S n))
      with (backoff_delay base_delay from :: delays base_delay (S from) n).
    cbn [total_delay fold_right]. fold (total_delay (delays base_delay (S from) n)).
    rewrite IH. unfold backoff_delay.
    replace (S from + n)%nat with (from + S n)%nat by lia.
    replace (Z.of_nat (S from)) with (Z.succ (Z.of_nat from)) by lia.
    rewrite Z.pow_succ_r by lia.
    rewrite inject_Z_mult. ring.
Qed.

(** X1. Retryable failures on the first [j] attempts, whose delays
    are finite floats, and then a failure outside the retryable set,
    with attempts left: that failure is raised at once, after [j + 1]
    invocations and the [j] delays slept before; the attempts that
    remain are not used. *)
Theorem retry_stops_at_first_non_retryable {T}
    (f : nat -> result T) (e : exn) (j : nat)
    (max_retries : Z) (base_delay : Q) (retryable : list exn_class)
    (Hfail : forall i, (i < j)%nat -> retryable_failure retryable f i)
    (Hfloat : finite_delays base_delay j = true)
    (Hstop : f j = Raise e)
    (Hkind : matches retryable e = false)
    (Hleft : Z.of_nat j < max_retries) :
  retry_with_backoff probe_call max_retries base_delay retryable (probe_start f)
  = (Raise e, mk_probe f (S j) (delays base_delay 0 j)).
Proof.
  apply RetryFacts.finite_delays_bound in Hfloat.
  unfold retry_with_backoff, probe_start.
  rewrite (RetryFacts.retry_loop_propagates base_delay retryable f e j);
    simpl; auto; lia.
Qed.

Lemma retry_stops_at_first_non_retryable_witness :
  retry_with_backoff probe_call 3 1%Q default_retryable_exceptions
    (probe_start timeout_then_broken)
  = (Raise (new_exn ValueError "boom"),
     mk_probe timeout_then_broken 2 (delays 1%Q 0 1)).
Proof.
  apply (retry_stops_at_first_non_retryable timeout_then_broken
           (new_exn ValueError "boom") 1 3 1%Q default_retryable_exceptions).
  - intros i Hi. assert (i = 0%nat) as -> by lia.
    exists (new_exn AITimeoutError "timeout"). split; reflexivity.
  - reflexivity.
  - reflexivity.
  - reflexivity.
  - lia.
Defined.

(** X2. When every attempt fails with a retryable kind and the
    delays are finite floats, the wrapper sleeps after each attempt,
    the last one included: [max_retries] delays, the last of
    [base_delay * 2^(max_retries-1)], adding up to
    [base_delay * (2^max_retries - 1)], before it raises. *)
Theorem exhausted_retries_sleep_after_every_attempt {T}
    (f : nat -> result T)
    (max_retries : Z) (base_delay : Q) (retryable : list exn_class)
    (Hpos : 0 < max_retries)
    (Hfloat : finite_delays base_delay (Z.to_nat max_retries) = true)
    (Hfail : forall i, (i < Z.to_nat max_retries)%nat ->
                       retryable_failure retryable f i) :
  exists e p,
    retry_with_backoff probe_call max_retries base_delay retryable
      (probe_start f) = (Raise e, p)
    /\ call_count p = Z.to_nat max_retries
    /\ length (slept p) = Z.to_nat max_retries
    /\ List.last (slept p) 0%Q
       = backoff_delay base_delay (Z.to_nat max_retries - 1)
    /\ total_delay (slept p)
       == base_delay * (inject_Z (2 ^ max_retries) - 1).
Proof.
  apply RetryFacts.finite_delays_bound in Hfloat.
  unfold retry_with_backoff, probe_start.
  destruct (RetryFacts.retry_loop_exhausts base_delay retryable f
              (Z.to_nat max_retries) 0 0 None [])
    as (r & Hrun & _ & Hlast).
  { intros i Hi. simpl. now apply Hfail. }
  { simpl. exact Hfloat. }
  destruct (Hlast ltac:(lia)) as (e & _ & _ & ->).
  exists e. eexists. split; [exact Hrun|].
  cbn [call_count slept app]. split; [lia|].
  split; [unfold delays; now rewrite length_map, length_seq|].
  split.
  - destruct (Z.to_nat max_retries) as [|n] eqn:Hn; [lia|].
    unfold delays. replace (S n) with (n + 1)%nat by lia.
    rewrite seq_app, map_app. simpl. rewrite last_last.
    f_equal. lia.
  - rewrite total_delay_delays. simpl.
    rewrite Z2Nat.id by lia. reflexivity.
Qed.

Lemma exhausted_retries_sleep_after_every_attempt_witness :
  exists e p,
    retry_with_backoff probe_call 3 1%Q default_retryable_exceptions
      (probe_start always_timeout) = (Raise e, p)
    /\ call_count p = Z.to_nat 3
    /\ length (slept p) = Z.to_nat 3
    /\ List.last (slept p) 0%Q = backoff_delay 1%Q (Z.to_nat 3 - 1)
    /\ total_delay (slept p) == 1 * (inject_Z (2 ^ 3) - 1).
Proof.
  apply (exhausted_retries_sleep_after_every_attempt always_timeout 3 1%Q
           default_retryable_exceptions); [lia | reflexivity |].
  intros i _. exists (new_exn AITimeoutError "timeout"). split; reflexivity.
Defined.

(** X3. With [max_retries <= 0] the loop body never runs, whatever the
    callable and the world: the callable is not awaited, nothing is
    slept, and the final [raise last_exception] raises [None], a
    [TypeError]. *)
Theorem retry_without_attempts_raises_type_error {W T} `{EventLoop W}
    (func : expr W T) (max_retries : Z) (base_delay : Q)
    (retryable : list exn_class) (w : W)
    (Hnone : max_retries <= 0) :
  retry_with_backoff func max_retries base_delay retryable w
  = (Raise (new_exn TypeError "exceptions must derive from BaseException"), w).
Proof.
  unfold retry_with_backoff.
  replace (Z.to_nat max_retries) with 0%nat by lia. reflexivity.
Qed.

Lemma retry_without_attempts_raises_type_error_witness :
  retry_with_backoff probe_call 0 1%Q default_retryable_exceptions
    (probe_start flaky)
  = (Raise (new_exn TypeError "exceptions must derive from BaseException"),
     probe_start flaky).
Proof.
  apply retry_without_attempts_raises_type_error. lia.
Defined.

End BackoffFacts.

(* --------------------------------------------------------------------- *)
(** ** The provider clients: failures, answers, requests *)
(* --------------------------------------------------------------------- *)

Module ProviderFacts.

Lemma raise_for_status_inside resp :
  200 <= status_code resp < 300 -> raise_for_status resp = Ok resp.
Proof.
  intros [Hlo Hhi]. unfold raise_for_status.
  destruct (Z.leb_spec 200 (status_code resp)); [|lia].
  destruct (Z.ltb_spec (status_code resp) 300); [reflexivity | lia].
Qed.

Lemma post_checked_responds provider path body c resp :
  responses c (length (requests c)) = PostResponds resp ->
  200 <= status_code resp < 300 ->
  post_checked provider path body c
  = (Ok resp, mk_async_client (responses c) (requests c ++ [(path, body)])).
Proof.
  intros Hresp Hok. unfold post_checked, post.
  now rewrite Hresp, (raise_for_status_inside resp Hok).
Qed.

Lemma post_checked_raises provider path body c e :
  responses c (length (requests c)) = PostRaises e ->
  post_checked provider path body c
  = (Raise (if isinstance e TimeoutException
            then new_exn AITimeoutError
                   (provider +:+ " request timed out: " +:+ exn_str e)
            else e),
     mk_async_client (responses c) (requests c ++ [(path, body)])).
Proof.
  intros Hresp. unfold post_checked, post. rewrite Hresp.
  now destruct (isinstance e TimeoutException).
Qed.

(** X4. When the request itself fails, both clients turn an
    [httpx.TimeoutException] into an [AITimeoutError] whose message
    names the provider and quotes the original one, and let every
    other exception through as it is.  The translated timeout is in
    the default retryable set; a connection failure that is let
    through is not. *)
Theorem request_failures_of_the_clients
    (messages : list message) (model : string) (c : AsyncClient) (e : exn)
    (Hpost : responses c (length (requests c)) = PostRaises e) :
  fst (anthropic_complete messages model c)
  = Raise (if isinstance e TimeoutException
           then new_exn AITimeoutError
                  ("Anthropic request timed out: " +:+ exn_str e)
           else e)
  /\ fst (openai_complete messages model c)
     = Raise (if isinstance e TimeoutException
              then new_exn AITimeoutError
                     ("OpenAI request timed out: " +:+ exn_str e)
              else e)
  /\ (forall text,
        matches default_retryable_exceptions (new_exn AITimeoutError text) = true)
  /\ (exn_type e = TransportError \/ exn_type e = RequestError ->
      isinstance e TimeoutException = false
      /\ matches default_retryable_exceptions e = false).
Proof.
  split; [|split; [|split]].
  - unfold anthropic_complete. rewrite (post_checked_raises _ _ _ _ _ Hpost).
    reflexivity.
  - unfold openai_complete. rewrite (post_checked_raises _ _ _ _ _ Hpost).
    reflexivity.
  - reflexivity.
  - unfold matches, isinstance, default_retryable_exceptions.
    intros [-> | ->]; split; reflexivity.
Qed.

Lemma request_failures_of_the_clients_witness :
  fst (anthropic_complete greeting "m" timing_out_client)
  = Raise (new_exn AITimeoutError
             "Anthropic request timed out: The read operation timed out")
  /\ fst (openai_complete greeting "m" timing_out_client)
     = Raise (new_exn AITimeoutError
                "OpenAI request timed out: The read operation timed out").
Proof.
  destruct (request_failures_of_the_clients greeting "m" timing_out_client
              read_timeout eq_refl) as (Ha & Ho & _).
  split; [exact Ha | exact Ho].
Defined.

(** X5. On a 2xx response whose body decodes to an object, Variant A
    returns the [text] of the first block of [content], whatever else
    the object and the list hold.  Without [content] the call raises a
    [KeyError], with an empty [content] an [IndexError]; neither is
    translated, and neither is in the default retryable set. *)
Theorem anthropic_answer_extraction
    (messages : list message) (model : string) (c : AsyncClient)
    (resp : Response) (items : list (string * json))
    (Hresp : responses c (length (requests c)) = PostResponds resp)
    (Hok : 200 <= status_code resp < 300)
    (Hbody : json_body resp = Some (JDict items)) :
  (forall block more text,
     dict_get "content" items = Some (JList (JDict block :: more)) ->
     dict_get "text" block = Some (JStr text) ->
     fst (anthropic_complete messages model c) = Ok text)
  /\ (dict_get "content" items = None ->
      exists e, fst (anthropic_complete messages model c) = Raise e
                /\ exn_type e = KeyError
                /\ matches default_retryable_exceptions e = false)
  /\ (dict_get "content" items = Some (JList []) ->
      exists e, fst (anthropic_complete messages model c) = Raise e
                /\ exn_type e = IndexError
                /\ matches default_retryable_exceptions e = false).
Proof.
  unfold anthropic_complete.
  rewrite (post_checked_responds _ _ _ _ _ Hresp Hok).
  unfold response_json. rewrite Hbody. cbn [fst then_ getitem_key].
  split; [|split].
  - intros block more text Hcontent Htext. rewrite Hcontent.
    cbn [then_ getitem_0 getitem_key]. now rewrite Htext.
  - intros ->. eexists. split; [reflexivity|]. split; reflexivity.
  - intros ->. eexists. split; [reflexivity|]. split; reflexivity.
Qed.

Lemma anthropic_answer_extraction_witness :
  fst (anthropic_complete greeting "m" (answering_client (anthropic_answer "Hi")))
  = Ok "Hi".
Proof.
  refine (proj1 (anthropic_answer_extraction greeting "m"
                   (answering_client (anthropic_answer "Hi"))
                   (mk_response 200 EmptyString (Some (anthropic_answer "Hi")))
                   _ eq_refl _ eq_refl) _ _ "Hi" eq_refl eq_refl).
  simpl. lia.
Defined.

(** X6. Variant B posts every message it is given, the system-role
    ones included, in their order under [messages], to
    [/v1/chat/completions]; on a 2xx response whose body decodes to an
    object it returns [choices[0].message.content]. *)
Theorem openai_passes_messages_through
    (messages : list message) (model : string) (c : AsyncClient)
    (resp : Response) (items : list (string * json))
    (Hresp : responses c (length (requests c)) = PostResponds resp)
    (Hok : 200 <= status_code resp < 300)
    (Hbody : json_body resp = Some (JDict items)) :
  requests (snd (openai_complete messages model c))
  = requests c
    ++ [("/v1/chat/completions",
         JDict [("model", JStr model);
                ("messages", JList (map message_to_json messages))])]
  /\ (forall choice more msg text,
        dict_get "choices" items = Some (JList (JDict choice :: more)) ->
        dict_get "message" choice = Some (JDict msg) ->
        dict_get "content" msg = Some (JStr text) ->
        fst (openai_complete messages model c) = Ok text).
Proof.
  unfold openai_complete.
  rewrite (post_checked_responds _ _ _ _ _ Hresp Hok).
  split; [reflexivity|].
  intros choice more msg text Hchoices Hmsg Htext.
  unfold response_json. rewrite Hbody. cbn [fst then_ getitem_key].
  rewrite Hchoices. cbn [then_ getitem_0 getitem_key]. rewrite Hmsg.
  cbn [then_ getitem_key]. now rewrite Htext.
Qed.

Lemma openai_passes_messages_through_witness :
  requests (snd (openai_complete greeting "m"
                   (answering_client (openai_answer "Hi"))))
  = [("/v1/chat/completions",
      JDict [("model", JStr "m");
             ("messages", JList (map message_to_json greeting))])]
  /\ fst (openai_complete greeting "m" (answering_client (openai_answer "Hi")))
     = Ok "Hi".
Proof.
  destruct (openai_passes_messages_through greeting "m"
              (answering_client (openai_answer "Hi"))
              (mk_response 200 EmptyString (Some (openai_answer "Hi")))
              _ eq_refl ltac:(simpl; lia) eq_refl) as [Hreq Hret].
  split; [exact Hreq|].
  exact (Hret _ _ _ "Hi" eq_refl eq_refl eq_refl).
Defined.

(** X7. One call of [complete] is one request: whatever the network
    does and whatever the response holds, both clients append exactly
    one entry to the connection's log, and a failed call is not
    repeated inside the client. *)
Theorem complete_posts_exactly_one_request
    (messages : list message) (model : string) (c : AsyncClient) :
  requests (snd (anthropic_complete messages model c))
  = requests c ++ [("/v1/messages", anthropic_body messages model)]
  /\ requests (snd (openai_complete messages model c))
     = requests c ++ [("/v1/chat/completions", openai_body messages model)]
  /\ responses (snd (anthropic_complete messages model c)) = responses c
  /\ responses (snd (openai_complete messages model c)) = responses c.
Proof.
  unfold anthropic_complete, openai_complete, post_checked, post.
  destruct (responses c (length (requests c))) as [e | r].
  - destruct (isinstance e TimeoutException); repeat split.
  - destruct (raise_for_status r) as [r' | e].
    + repeat split.
    + destruct (isinstance e TimeoutException); repeat split.
Qed.

End ProviderFacts.

(* --------------------------------------------------------------------- *)
(** ** The prompt and what the clients make of it *)
(* --------------------------------------------------------------------- *)

Module PromptFacts.

Section Prompt.
Context `{PromptText}.

(** X8. The prompt is always a system message followed by one user
    message that holds the document after a fixed heading.  A
    template's non-empty [prompt_override] is the system content;
    without a template, or with an override that is [None] or empty,
    it is [SYSTEM_PROMPT].  In Variant A's request the system content
    is the top-level [system] field and the user message is the only
    message; Variant B's request carries both messages. *)
Theorem extraction_prompt_in_the_requests
    (document_text model : string) (template : option AnalysisTemplate.t)
    (Hprompt : SYSTEM_PROMPT <> EmptyString) :
  let user :=
    mk_message "user" ("Analyze this document:" +:+ nl +:+ nl +:+ document_text) in
  exists system_content,
    build_extraction_prompt document_text template
    = [mk_message "system" system_content; user]
    /\ system_content <> EmptyString
    /\ (forall t p,
          template = Some t ->
          AnalysisTemplate.prompt_override t = Some p ->
          p <> EmptyString -> system_content = p)
    /\ (template = None
        \/ (exists t, template = Some t
                      /\ (AnalysisTemplate.prompt_override t = None
                          \/ AnalysisTemplate.prompt_override t = Some EmptyString)) ->
        system_content = SYSTEM_PROMPT)
    /\ anthropic_body (build_extraction_prompt document_text template) model
       = JDict [("model", JStr model);
                ("max_tokens", JInt 4096);
                ("messages", JList [message_to_json user]);
                ("system", JStr system_content)]
    /\ openai_body (build_extraction_prompt document_text template) model
       = JDict [("model", JStr model);
                ("messages",
                 JList [message_to_json (mk_message "system" system_content);
                        message_to_json user])].
Proof.
  intros user.
  assert (forall sc, sc <> EmptyString ->
            anthropic_body [mk_message "system" sc; user] model
            = JDict [("model", JStr model);
                     ("max_tokens", JInt 4096);
                     ("messages", JList [message_to_json user]);
                     ("system", JStr sc)]) as Hbody.
  { intros sc Hsc. unfold anthropic_body. cbn [split_messages role content].
    change (String.eqb "system" "system") with true.
    change (String.eqb "user" "system") with false. cbv iota.
    cbn [split_messages app]. destruct sc; [congruence | reflexivity]. }
  unfold build_extraction_prompt. fold user.
  destruct template as [t|].
  - destruct (AnalysisTemplate.prompt_override t) as [p|] eqn:Hp.
    + destruct p as [|c p].
      * exists SYSTEM_PROMPT. simpl. repeat split; auto.
        intros t' p' [= <-] Hp' Hne. rewrite Hp in Hp'. congruence.
      * exists (String c p). simpl. split; [reflexivity|].
        split; [discriminate|]. split.
        { intros t' p' [= <-] Hp' _. rewrite Hp in Hp'. congruence. }
        split.
        { intros [Hnone | (t' & [= <-] & [Hn | Hn])];
            [discriminate | rewrite Hp in Hn; discriminate
            | rewrite Hp in Hn; discriminate]. }
        split; [now apply Hbody | reflexivity].
    + exists SYSTEM_PROMPT. repeat split; auto.
      intros t' p' [= <-] Hp' _. rewrite Hp in Hp'. discriminate.
  - exists SYSTEM_PROMPT. repeat split; auto. intros t p [=].
Qed.

End Prompt.

Import Conftest.

Lemma extraction_prompt_in_the_requests_witness :
  exists system_content,
    build_extraction_prompt "Some contract text" (Some custom_template)
    = [mk_message "system" system_content;
       mk_message "user"
         ("Analyze this document:" +:+ nl +:+ nl +:+ "Some contract text")]
    /\ system_content = "Extract only the penalty clauses.".
Proof.
  assert (SYSTEM_PROMPT <> EmptyString) as Hprompt by (cbn; discriminate).
  destruct (extraction_prompt_in_the_requests "Some contract text" "m"
              (Some custom_template) Hprompt)
    as (sc & Hbuild & _ & Hover & _).
  exists sc. split; [exact Hbuild|].
  apply (Hover custom_template); [reflexivity | reflexivity | discriminate].
Defined.

End PromptFacts.

(* --------------------------------------------------------------------- *)
(** ** The validator: what it refuses, recovers and promises *)
(* --------------------------------------------------------------------- *)

Module ValidatorFacts.
Import FenceFacts.

Lemma lstrip_by_all p s : all_p p s = true -> lstrip_by p s = EmptyString.
Proof.
  induction s as [|c s IH]; [reflexivity|]. simpl.
  rewrite andb_true_iff. intros [-> Hs]. auto.
Qed.

Lemma rstrip_by_keep p s c t :
  p c = false ->
  rstrip_by p (s +:+ String c t) = s +:+ String c (rstrip_by p t).
Proof.
  intros Hc. induction s as [|x s IH].
  - rewrite !append_nil_l. cbn [rstrip_by]. rewrite Hc.
    now destruct (rstrip_by p t).
  - rewrite !append_cons. cbn [rstrip_by]. rewrite IH.
    destruct s; reflexivity.
Qed.

Lemma all_p_rstrip_by q p s :
  all_p q s = true -> all_p q (rstrip_by p s) = true.
Proof.
  induction s as [|c s IH]; [reflexivity|]. cbn [all_p rstrip_by].
  rewrite andb_true_iff. intros [Hc Hs]. specialize (IH Hs).
  destruct (rstrip_by p s) as [|c' r'].
  - destruct (p c); [reflexivity|]. cbn [all_p]. now rewrite Hc.
  - cbn [all_p] in *. now rewrite Hc.
Qed.

Lemma up_to_last_brace_none t :
  all_p not_close_brace t = true -> up_to_last_brace t = None.
Proof.
  induction t as [|c t IH]; [reflexivity|]. cbn [all_p up_to_last_brace].
  rewrite andb_true_iff. intros [Hc Ht]. rewrite (IH Ht).
  unfold not_close_brace in Hc. apply negb_true_iff in Hc. now rewrite Hc.
Qed.

Lemma up_to_last_brace_last s t :
  all_p not_close_brace t = true ->
  up_to_last_brace (s +:+ String "}" t) = Some (s +:+ String "}" EmptyString).
Proof.
  intros Ht. induction s as [|c s IH].
  - rewrite !append_nil_l. cbn [up_to_last_brace].
    now rewrite (up_to_last_brace_none t Ht).
  - rewrite !append_cons. cbn [up_to_last_brace]. now rewrite IH.
Qed.

(** No JSON value starts with a character outside [starts_value]. *)
Lemma scan_value_needs_start fuel c r :
  starts_value c = false -> scan_value fuel (String c r) = None.
Proof.
  unfold starts_value. cbn [existsb]. rewrite !orb_false_iff.
  intros (Hd & Hb & Hk & Hq & Hm & Hn & Ht & Hf & _).
  destruct fuel as [|fuel]; [reflexivity|]. cbn [scan_value].
  rewrite Hb, Hk, Hq. unfold scan_literal. cbn [drop_prefix].
  rewrite (Ascii.eqb_sym "n" c), Hn, (Ascii.eqb_sym "t" c), Ht,
    (Ascii.eqb_sym "f" c), Hf.
  unfold scan_number. rewrite Hm.
  destruct (Ascii.eqb c "0") eqn:H0.
  - apply Ascii.eqb_eq in H0. subst c. discriminate.
  - now rewrite Hd.
Qed.

Lemma rstrip_by_first p c r :
  p c = false -> exists r', rstrip_by p (String c r) = String c r'.
Proof.
  intros Hc. cbn [rstrip_by]. rewrite Hc.
  destruct (rstrip_by p r); eauto.
Qed.

Lemma json_loads_needs_start c r :
  is_json_ws c = false -> starts_value c = false ->
  json_loads (String c r) = None.
Proof.
  intros Hws Hstart. unfold json_loads, strip_by.
  rewrite lstrip_by_head by assumption.
  destruct (rstrip_by_first is_json_ws c r Hws) as (r' & ->).
  now rewrite scan_value_needs_start.
Qed.

(** On a text that is one pair of braces the second attempt is the
    first one again. *)
Lemma parse_attempts_object body :
  parse_attempts (String "{" (body +:+ String "}" EmptyString))
  = json_loads (String "{" (body +:+ String "}" EmptyString)).
Proof.
  unfold parse_attempts.
  destruct (json_loads (String "{" (body +:+ String "}" EmptyString))) eqn:E;
    [reflexivity|].
  cbn [search_braces]. change (Ascii.eqb "{" "{") with true. cbv iota.
  change (String "{" (body +:+ String "}" EmptyString))
    with (String "{" body +:+ String "}" EmptyString).
  rewrite up_to_last_brace_end by reflexivity.
  change (String "{" body +:+ String "}" EmptyString)
    with (String "{" (body +:+ String "}" EmptyString)).
  now rewrite E.
Qed.

Section Validation.
Context `{PydanticCore}.

(** Two raw texts that are parsed to the same data get the same typed
    result or the same failure, each failure with its own raw text. *)
Lemma same_data_same_outcome r1 r2 :
  parse_attempts (unfenced r1) = parse_attempts (unfenced r2) ->
  (forall validated,
     validate_ai_response r1 = Ok validated <->
     validate_ai_response r2 = Ok validated)
  /\ (forall kind message,
        validate_ai_response r1 = Raise (mk_exn kind message (Some r1)) <->
        validate_ai_response r2 = Raise (mk_exn kind message (Some r2))).
Proof.
  intros Hsame. unfold validate_ai_response, validate_payload. rewrite Hsame.
  destruct (parse_attempts (unfenced r2)) as [[| ? | ? | ? | ? | ? | fields]|];
    try (split; [intros validated | intros kind message];
         unfold parse_failed, new_validation_error;
         split; intros [=]; subst; reflexivity).
  destruct (model_validate (JDict fields)) as [validated | errs].
  - split; [intros v | intros kind message]; split; intros [=]; subst; reflexivity.
  - split; [intros v | intros kind message];
      unfold schema_failed, new_validation_error;
      split; intros [=]; subst; reflexivity.
Qed.

(** X9. An empty or blank completion is refused as unparseable: the
    failure is the validator's own, says [Failed to parse AI response
    as JSON.] and carries the raw text. *)
Theorem blank_response_is_a_parse_failure (raw : string)
    (Hblank : all_space raw = true) :
  validate_ai_response raw
  = Raise (mk_exn AIResponseValidationError
             "Failed to parse AI response as JSON." (Some raw)).
Proof.
  unfold validate_ai_response, validate_payload, unfenced, strip, strip_by.
  rewrite lstrip_by_all by now rewrite all_p_space.
  reflexivity.
Qed.

(** X10. A completion that is valid JSON but not an object (an array,
    a string, a number, a literal) is refused as unparseable, also
    when an object stands inside it: the brace search of the second
    attempt is made only after the decoder has failed. *)
Theorem non_object_json_is_a_parse_failure (raw : string) (v : json)
    (Hdecodes : json_loads (unfenced raw) = Some v)
    (Hkind : forall fields, v <> JDict fields) :
  validate_ai_response raw
  = Raise (mk_exn AIResponseValidationError
             "Failed to parse AI response as JSON." (Some raw)).
Proof.
  unfold validate_ai_response, validate_payload, parse_attempts. rewrite Hdecodes.
  destruct v; try reflexivity. now destruct (Hkind items).
Qed.

(** X11. An object with prose around it is recovered by the second
    attempt.  When the text starts with a character of prose, holds
    no opening brace before the object and no closing brace after it,
    the completion is validated exactly as the object alone is: the
    same data, the same typed result, the same failure. *)
Theorem object_in_prose_is_recovered (c : ascii) (pre body post : string)
    (Hfirst : starts_prose c = true)
    (Hpre : all_p not_open_brace pre = true)
    (Hpost : all_p not_close_brace post = true) :
  parse_attempts
    (unfenced (String c pre +:+ String "{" (body +:+ String "}" post)))
  = json_loads (String "{" (body +:+ String "}" EmptyString))
  /\ (forall validated,
        validate_ai_response
          (String c pre +:+ String "{" (body +:+ String "}" post))
        = Ok validated <->
        validate_ai_response (String "{" (body +:+ String "}" EmptyString))
        = Ok validated)
  /\ (forall kind message,
        validate_ai_response
          (String c pre +:+ String "{" (body +:+ String "}" post))
        = Raise (mk_exn kind message
                   (Some (String c pre +:+ String "{" (body +:+ String "}" post))))
        <->
        validate_ai_response (String "{" (body +:+ String "}" EmptyString))
        = Raise (mk_exn kind message
                   (Some (String "{" (body +:+ String "}" EmptyString))))).
Proof.
  unfold starts_prose in Hfirst. rewrite !andb_true_iff, !negb_true_iff in Hfirst.
  destruct Hfirst as [[Hsp Hst] Htick].
  assert (is_json_ws c = false) as Hws.
  { destruct (is_json_ws c) eqn:E; [|reflexivity].
    apply json_ws_is_space in E. congruence. }
  assert (not_open_brace c = true) as Hbr.
  { unfold not_open_brace. apply negb_true_iff.
    unfold starts_value in Hst. cbn [existsb] in Hst.
    rewrite !orb_false_iff in Hst. tauto. }
  assert (unfenced (String c pre +:+ String "{" (body +:+ String "}" post))
          = String c pre
            +:+ String "{" (body +:+ String "}" (rstrip_by is_space post)))
    as Hunf.
  { unfold unfenced, strip, strip_by.
    rewrite append_cons, lstrip_by_head by assumption.
    assert (String c (pre +:+ String "{" (body +:+ String "}" post))
            = (String c pre +:+ String "{" body) +:+ String "}" post) as ->
      by now rewrite append_assoc, !append_cons.
    rewrite rstrip_by_keep by reflexivity.
    rewrite append_assoc, !append_cons.
    unfold startswith. cbn [drop_prefix].
    now rewrite (Ascii.eqb_sym "`" c), Htick. }
  assert (parse_attempts
            (unfenced (String c pre +:+ String "{" (body +:+ String "}" post)))
          = json_loads (String "{" (body +:+ String "}" EmptyString))) as Hparse.
  { rewrite Hunf. unfold parse_attempts.
    rewrite append_cons, json_loads_needs_start by assumption.
    rewrite <- append_cons, search_braces_skip
      by (cbn [all_p]; now rewrite Hbr, Hpre).
    change (String "{" (body +:+ String "}" (rstrip_by is_space post)))
      with (String "{" body +:+ String "}" (rstrip_by is_space post)).
    rewrite up_to_last_brace_last by now apply all_p_rstrip_by.
    reflexivity. }
  split; [exact Hparse|].
  apply same_data_same_outcome. rewrite Hparse.
  pose proof (unfenced_bare EmptyString body EmptyString eq_refl eq_refl) as Hbare.
  rewrite append_nil_l in Hbare. rewrite Hbare.
  now rewrite parse_attempts_object.
Qed.

(** What a validated clause promises. *)
Lemma validate_ClauseExtraction_sound x c :
  validate_ClauseExtraction x = inl c -> well_formed_clause c.
Proof.
  destruct x; try discriminate. unfold validate_ClauseExtraction. cbv zeta.
  intros Hb.
  apply SchemaFacts.both_inl_inv in Hb as (g7 & a7 & Hb & H7 & ->).
  apply SchemaFacts.both_inl_inv in Hb as (g6 & a6 & Hb & _ & ->).
  apply SchemaFacts.both_inl_inv in Hb as (g5 & a5 & Hb & H5 & ->).
  apply SchemaFacts.both_inl_inv in Hb as (g4 & a4 & Hb & H4 & ->).
  apply SchemaFacts.both_inl_inv in Hb as (g3 & a3 & Hb & H3 & ->).
  apply SchemaFacts.both_inl_inv in Hb as (g2 & a2 & Hb & H2 & ->).
  apply SchemaFacts.both_inl_inv in Hb as (g1 & a1 & Hb & H1 & ->).
  injection Hb as <-.
  apply SchemaFacts.required_inl in H1 as (v1 & _ & H1).
  apply SchemaFacts.and_then_inl in H1 as (s1 & _ & H1).
  apply SchemaFacts.required_inl in H2 as (v2 & _ & H2).
  apply SchemaFacts.and_then_inl in H2 as (s2 & _ & H2).
  apply SchemaFacts.required_inl in H3 as (v3 & _ & H3).
  apply SchemaFacts.and_then_inl in H3 as (s3 & _ & H3).
  apply SchemaFacts.required_inl in H4 as (v4 & _ & H4).
  apply SchemaFacts.and_then_inl in H4 as (s4 & _ & H4).
  apply SchemaFacts.required_inl in H5 as (v5 & _ & H5).
  apply SchemaFacts.and_then_inl in H5 as (s5 & _ & H5).
  apply SchemaFacts.required_inl in H7 as (v7 & _ & H7).
  apply SchemaFacts.and_then_inl in H7 as (q7 & _ & H7).
  unfold validate_clause_type in H1. unfold validate_risk_level in H2.
  destruct (str_in s1 _VALID_CLAUSE_TYPES) eqn:E1; [|discriminate].
  destruct (str_in s2 _VALID_RISK_LEVELS) eqn:E2; [|discriminate].
  injection H1 as <-. injection H2 as <-.
  unfold min_length_1 in H3, H4, H5.
  destruct s3; [discriminate|]. destruct s4; [discriminate|].
  destruct s5; [discriminate|].
  injection H3 as <-. injection H4 as <-. injection H5 as <-.
  unfold ge_0_le_1 in H7.
  destruct (Qle_bool 0 q7) eqn:Q0; [|discriminate].
  destruct (Qle_bool q7 1) eqn:Q1; [|discriminate].
  injection H7 as <-.
  constructor.
  - now apply (proj1 (SchemaFacts.str_in_In _ _)).
  - now apply (proj1 (SchemaFacts.str_in_In _ _)).
  - simpl. discriminate.
  - simpl. discriminate.
  - simpl. discriminate.
  - simpl. split; now apply Qle_bool_iff.
Qed.

Lemma validate_ai_response_sound (raw : string)
    (validated : AIExtractionResponse) :
  validate_ai_response raw = Ok validated ->
  Forall well_formed_clause (clauses validated)
  /\ 0 <= total_clauses_found (metadata validated)
  /\ (is_contract validated = false -> clauses validated = []).
Proof.
  intros Hvalid. unfold validate_ai_response, validate_payload in Hvalid.
  destruct (parse_attempts (unfenced raw)) as [[| | | | | | fields]|];
    try discriminate.
  destruct (model_validate (JDict fields)) as [r|] eqn:Hmv; [|discriminate].
  injection Hvalid as <-.
  unfold model_validate in Hmv.
  apply SchemaFacts.and_then_inl in Hmv as (r0 & Hvf & Hcheck).
  unfold check_clauses_consistent_with_contract_flag in Hcheck.
  destruct (negb (is_contract r0) && negb (length (clauses r0) =? 0)%nat)
    eqn:Hcross; [discriminate|].
  injection Hcheck as <-.
  destruct (SchemaFacts.validate_fields_inl _ _ Hvf) as (_ & _ & Hcl & Hmeta).
  split; [|split].
  - apply SchemaFacts.required_inl in Hcl as (v & _ & Hv).
    destruct v; try discriminate. unfold validate_list in Hv.
    apply SchemaFacts.validate_items_inl in Hv.
    eapply Forall_impl; [exact Hv|].
    intros c (x & Hx). now apply (validate_ClauseExtraction_sound x).
  - apply SchemaFacts.required_inl in Hmeta as (v & _ & Hv).
    destruct v; try discriminate.
    unfold validate_ExtractionMetadata in Hv. cbv zeta in Hv.
    apply SchemaFacts.both_inl_inv in Hv as (g4 & a4 & Hv & H4 & ->).
    apply SchemaFacts.both_inl_inv in Hv as (g3 & a3 & Hv & _ & ->).
    apply SchemaFacts.both_inl_inv in Hv as (g2 & a2 & Hv & _ & ->).
    apply SchemaFacts.both_inl_inv in Hv as (g1 & a1 & Hv & _ & ->).
    injection Hv as <-. cbn.
    apply SchemaFacts.required_inl in H4 as (v4 & _ & H4).
    apply SchemaFacts.and_then_inl in H4 as (n & _ & H4).
    unfold ge_0 in H4. destruct (Z.leb_spec 0 n); [|discriminate].
    now injection H4 as <-.
  - intros Hno. rewrite Hno in Hcross. cbn in Hcross.
    apply negb_false_iff, Nat.eqb_eq in Hcross.
    now destruct (clauses r0).
Qed.

(** X12. Whatever the validator returns meets the schema: every clause
    has a type and a risk level of the enumerations, non-empty title,
    summary and original text and a confidence between 0 and 1; the
    clause count of the metadata is not negative; and a document
    marked as no contract has no clauses. *)
Theorem validated_responses_meet_the_schema (raw : string)
    (validated : AIExtractionResponse)
    (Hvalid : validate_ai_response raw = Ok validated) :
  Forall well_formed_clause (clauses validated)
  /\ 0 <= total_clauses_found (metadata validated)
  /\ (is_contract validated = false -> clauses validated = []).
Proof. exact (validate_ai_response_sound raw validated Hvalid). Qed.

Lemma dict_get_without key value name l1 l2 :
  name <> key ->
  dict_get name (l1 ++ (key, value) :: l2) = dict_get name (l1 ++ l2).
Proof.
  intros Hne. induction l1 as [|[k v] l1 IH]; cbn [app dict_get].
  - destruct (String.eqb_spec name key); [contradiction | reflexivity].
  - now rewrite IH.
Qed.

(** X13. A key the models do not declare is ignored wherever it
    stands: with or without it the response, a clause entry and the
    metadata validate to the same value or the same errors. *)
Theorem undeclared_keys_are_ignored (key : string) (value : json)
    (l1 l2 : list (string * json)) :
  (~ In key response_fields ->
   model_validate (JDict (l1 ++ (key, value) :: l2))
   = model_validate (JDict (l1 ++ l2)))
  /\ (~ In key clause_fields ->
      validate_ClauseExtraction (JDict (l1 ++ (key, value) :: l2))
      = validate_ClauseExtraction (JDict (l1 ++ l2)))
  /\ (~ In key metadata_fields ->
      validate_ExtractionMetadata (JDict (l1 ++ (key, value) :: l2))
      = validate_ExtractionMetadata (JDict (l1 ++ l2))).
Proof.
  assert (forall names, ~ In key names ->
            forall name, In name names ->
              dict_get name (l1 ++ (key, value) :: l2)
              = dict_get name (l1 ++ l2)) as Hget.
  { intros names Hkey name Hin. apply dict_get_without.
    intros ->. contradiction. }
  split; [|split]; intros Hkey; specialize (Hget _ Hkey).
  - unfold model_validate, validate_fields, required.
    rewrite !Hget by (cbn; tauto). reflexivity.
  - unfold validate_ClauseExtraction, required, optional.
    rewrite !Hget by (cbn; tauto). reflexivity.
  - unfold validate_ExtractionMetadata, required, optional.
    rewrite !Hget by (cbn; tauto). reflexivity.
Qed.

End Validation.

(** X14. The enumerations and the schema agree.  [ClauseType(v)] and
    [RiskLevel(v)] return the member whose value is [v] and nothing
    else, a member's value gives the member back, and the schema's
    field validators accept exactly the strings the enumerations
    accept, so a validated clause never fails the conversion the
    Orchestrator makes. *)
Theorem enumerations_and_schema_agree :
  (forall m, ClauseType_call (ClauseType_value m) = Ok m)
  /\ (forall m, RiskLevel_call (RiskLevel_value m) = Ok m)
  /\ (forall v m, ClauseType_call v = Ok m -> ClauseType_value m = v)
  /\ (forall v m, RiskLevel_call v = Ok m -> RiskLevel_value m = v)
  /\ (forall v, validate_clause_type v = inl v <->
                exists m, ClauseType_call v = Ok m)
  /\ (forall v, validate_risk_level v = inl v <->
                exists m, RiskLevel_call v = Ok m).
Proof.
  assert (forall v m, ClauseType_call v = Ok m -> ClauseType_value m = v) as Hc.
  { intros v m. unfold ClauseType_call.
    destruct (ClauseType_of v) as [m'|] eqn:E; [|discriminate].
    intros [= <-]. apply find_some in E as [_ E]. now apply String.eqb_eq in E. }
  assert (forall v m, RiskLevel_call v = Ok m -> RiskLevel_value m = v) as Hr.
  { intros v m. unfold RiskLevel_call.
    destruct (RiskLevel_of v) as [m'|] eqn:E; [|discriminate].
    intros [= <-]. apply find_some in E as [_ E]. now apply String.eqb_eq in E. }
  split; [intros []; reflexivity|].
  split; [intros []; reflexivity|].
  split; [exact Hc|]. split; [exact Hr|]. split.
  - intros v. unfold validate_clause_type. split.
    + destruct (str_in v _VALID_CLAUSE_TYPES) eqn:E; [|discriminate].
      intros _. destruct (SchemaFacts.ClauseType_of_member v E) as (m & Hm & _).
      exists m. unfold ClauseType_call. now rewrite Hm.
    + intros (m & Hm). apply Hc in Hm. subst v.
      now destruct m.
  - intros v. unfold validate_risk_level. split.
    + destruct (str_in v _VALID_RISK_LEVELS) eqn:E; [|discriminate].
      intros _. destruct (SchemaFacts.RiskLevel_of_member v E) as (m & Hm & _).
      exists m. unfold RiskLevel_call. now rewrite Hm.
    + intros (m & Hm). apply Hr in Hm. subst v.
      now destruct m.
Qed.

Import Conftest.

Lemma blank_response_is_a_parse_failure_witness :
  validate_ai_response (" " +:+ nl)
  = Raise (mk_exn AIResponseValidationError
             "Failed to parse AI response as JSON." (Some (" " +:+ nl))).
Proof. apply blank_response_is_a_parse_failure. reflexivity. Defined.

Lemma non_object_json_is_a_parse_failure_witness :
  validate_ai_response wrapped_in_array
  = Raise (mk_exn AIResponseValidationError
             "Failed to parse AI response as JSON." (Some wrapped_in_array)).
Proof.
  apply (non_object_json_is_a_parse_failure wrapped_in_array
           (JList [JDict (items_of NON_CONTRACT_RESPONSE)])).
  - vm_compute. reflexivity.
  - discriminate.
Defined.

Lemma object_in_prose_is_recovered_witness :
  parse_attempts
    (unfenced (String "H" "ere it is: "
               +:+ String "{" (json_text "'is_contract': false"
                               +:+ String "}" " Thanks.")))
  = json_loads (String "{" (json_text "'is_contract': false"
                            +:+ String "}" EmptyString)).
Proof.
  apply (proj1 (object_in_prose_is_recovered "H" "ere it is: "
                  (json_text "'is_contract': false") " Thanks."
                  eq_refl eq_refl eq_refl)).
Defined.

Lemma validated_responses_meet_the_schema_witness :
  exists validated,
    validate_ai_response VALID_AI_RESPONSE = Ok validated
    /\ Forall well_formed_clause (clauses validated)
    /\ 0 <= total_clauses_found (metadata validated)
    /\ (is_contract validated = false -> clauses validated = []).
Proof.
  destruct (validate_ai_response VALID_AI_RESPONSE) as [validated | exc] eqn:E.
  - exists validated. split; [reflexivity|].
    exact (validated_responses_meet_the_schema _ _ E).
  - vm_compute in E. discriminate.
Defined.

End ValidatorFacts.

(* --------------------------------------------------------------------- *)
(** ** The Orchestrator: templates, attempts, the record returned *)
(* --------------------------------------------------------------------- *)

Module OrchestratorFacts.

(** The properties of this module are stated for a database that
    accepts every statement ([reliable_database]); what a failing
    flush, commit or refresh does is settled in [ServiceFacts]. *)

Section Runs.
Context {C : Type} `{AIClient C} `{PydanticCore} `{PromptText}.

Lemma find_template_missing tid tenant_id (s : AsyncSession) :
  (forall t, In t (analysis_templates s) ->
             AnalysisTemplate.id t = tid ->
             AnalysisTemplate.tenant_id t <> tenant_id) ->
  find_template (Some tid) tenant_id s = Ok None.
Proof.
  intros Hmissing. unfold find_template.
  replace (List.filter _ (analysis_templates s)) with (@nil AnalysisTemplate.t);
    [reflexivity|].
  symmetry. induction (analysis_templates s) as [|t rows IH]; [reflexivity|].
  simpl. destruct (Z.eqb_spec (AnalysisTemplate.id t) tid) as [Hid|Hid]; simpl.
  - destruct (Z.eqb_spec (AnalysisTemplate.tenant_id t) tenant_id) as [Ht|Ht].
    + exfalso. apply (Hmissing t); [now left | assumption | assumption].
    + apply IH. intros t' Hin. apply Hmissing. now right.
  - apply IH. intros t' Hin. apply Hmissing. now right.
Qed.

(** X15. A template id that names no template of the requesting
    tenant (none at all, or one of another tenant) changes nothing:
    the invocation runs exactly as without a template id, with the
    default prompt and no [template_id] on the Analysis. *)
Theorem foreign_template_is_ignored (w : World C)
    (document_id tenant_id tid : uuid) (mp mn : string)
    (Hforeign : forall t, In t (analysis_templates (db w)) ->
                          AnalysisTemplate.id t = tid ->
                          AnalysisTemplate.tenant_id t <> tenant_id) :
  analyze_document document_id tenant_id (Some tid) mp mn w
  = analyze_document document_id tenant_id None mp mn w.
Proof.
  unfold analyze_document, call, await, select_document, select_template.
  cbv beta.
  destruct (find_document document_id tenant_id (db w)) as [[d|]|e];
    [|reflexivity|reflexivity].
  destruct (Document.extracted_text d) as [[|c rest]|];
    [reflexivity| |reflexivity].
  rewrite (find_template_missing tid tenant_id (db w) Hforeign).
  reflexivity.
Qed.

(** One attempt, seen from the world. *)
Lemma call_ai_runs text template mn (w : World C) r c' :
  complete (build_extraction_prompt text template) mn (ai w) = (r, c') ->
  _call_ai text template mn w
  = (r, mk_world (db w) c' (attempt_counter w + 1) (clock w) (clock_reads w)
          (sleeps w)).
Proof.
  intros Hc. unfold _call_ai. cbv zeta. cbn [ai set_attempt_counter].
  now rewrite Hc.
Qed.

(** A first attempt that returns, or fails outside the retryable set,
    is the only one. *)
Lemma retry_settles_at_once text template mn (w0 : World C) r c' :
  complete (build_extraction_prompt text template) mn (ai w0) = (r, c') ->
  (forall e, r = Raise e -> matches default_retryable_exceptions e = false) ->
  retry_with_backoff (_call_ai text template mn) 3 1%Q
    default_retryable_exceptions w0
  = (r, mk_world (db w0) c' (attempt_counter w0 + 1) (clock w0) (clock_reads w0)
          (sleeps w0)).
Proof.
  intros Hc Hkind. unfold retry_with_backoff. change (Z.to_nat 3) with 3%nat.
  cbn [retry_loop]. rewrite (call_ai_runs _ _ _ _ _ _ Hc).
  destruct r as [v | e]; [reflexivity|].
  now rewrite (Hkind e eq_refl).
Qed.

(** Three attempts that fail with retryable kinds. *)
Lemma retry_three_failures text template mn (w0 : World C)
    e1 e2 e3 c1 c2 c3 :
  complete (build_extraction_prompt text template) mn (ai w0) = (Raise e1, c1) ->
  complete (build_extraction_prompt text template) mn c1 = (Raise e2, c2) ->
  complete (build_extraction_prompt text template) mn c2 = (Raise e3, c3) ->
  matches default_retryable_exceptions e1 = true ->
  matches default_retryable_exceptions e2 = true ->
  matches default_retryable_exceptions e3 = true ->
  retry_with_backoff (_call_ai text template mn) 3 1%Q
    default_retryable_exceptions w0
  = (Raise e3,
     mk_world (db w0) c3 (attempt_counter w0 + 3) (clock w0) (clock_reads w0)
       (sleeps w0 ++ delays 1%Q 0 3)).
Proof.
  intros Hcall1 Hcall2 Hcall3 Hkind1 Hkind2 Hkind3.
  unfold retry_with_backoff. change (Z.to_nat 3) with 3%nat.
  cbn [retry_loop]. rewrite !(RetryFacts.compute_delay_lt 1%Q) by lia.
  rewrite (call_ai_runs text template mn w0 (Raise e1) c1 Hcall1), Hkind1.
  cbn [asyncio_sleep World_loop db ai attempt_counter clock clock_reads sleeps].
  rewrite (call_ai_runs text template mn
             (mk_world (db w0) c1 (attempt_counter w0 + 1) (clock w0)
                (clock_reads w0) (sleeps w0 ++ [backoff_delay 1 0]))
             (Raise e2) c2 Hcall2), Hkind2.
  cbn [asyncio_sleep World_loop db ai attempt_counter clock clock_reads sleeps].
  rewrite (call_ai_runs text template mn
             (mk_world (db w0) c2 (attempt_counter w0 + 1 + 1) (clock w0)
                (clock_reads w0)
                ((sleeps w0 ++ [backoff_delay 1 0]) ++ [backoff_delay 1 1]))
             (Raise e3) c3 Hcall3), Hkind3.
  cbn [asyncio_sleep World_loop db ai attempt_counter clock clock_reads sleeps
       raise_last].
  f_equal. f_equal; [lia|]. rewrite <- !app_assoc. reflexivity.
Qed.

(** X16. When the first call of the provider returns, it is the only
    call: the completion is validated once and never asked for again,
    nothing is slept and [retry_count] is 0.  A completion that fails
    validation leaves the Analysis FAILED with the validator's message
    and no Clause; one that validates leaves it COMPLETED with as many
    Clause objects as validated entries. *)
Theorem first_completion_is_never_retried (w : World C)
    (document_id tenant_id : uuid) (template_id : option uuid)
    (mp mn : string) (d : Document.t) (text : string)
    (template : option AnalysisTemplate.t) (raw : string) (c' : C)
    (Hdoc : find_document document_id tenant_id (db w) = Ok (Some d))
    (Htext : Document.extracted_text d = Some text)
    (Hnonempty : text <> EmptyString)
    (Htmpl : find_template template_id tenant_id (db w) = Ok template)
    (Hfirst : complete (build_extraction_prompt text template) mn (ai w)
              = (Ok raw, c')) :
  exists a w',
    analyze_document document_id tenant_id template_id mp mn w
    = (Ok (Some a), w')
    /\ ai w' = c'
    /\ sleeps w' = sleeps w
    /\ Analysis.retry_count a = 0
    /\ (forall exc,
          validate_ai_response raw = Raise exc ->
          Analysis.status a = FAILED
          /\ Analysis.error_message a = Some (exn_str exc)
          /\ added_since (length (added_objects (db w))) w' = [AnalysisObj a])
    /\ (forall validated,
          validate_ai_response raw = Ok validated ->
          Analysis.status a = COMPLETED
          /\ exists rows,
               added_since (length (added_objects (db w))) w'
               = AnalysisObj a :: map ClauseObj rows
               /\ length rows = length (clauses validated)).
Proof.
  destruct text as [|ch rest]; [congruence|].
  destruct (ServiceFacts.started_session w d template mp mn)
    as (pre & key & s0 & _ & _ & _ & _ & _ & Hstart).
  assert (retry_with_backoff (_call_ai (String ch rest) template mn) 3 1%Q
            default_retryable_exceptions (started w d template mp mn)
          = (Ok raw,
             mk_world (db (started w d template mp mn)) c' 1 (clock w)
               (S (clock_reads w)) (sleeps w))) as Hretry.
  { rewrite (retry_settles_at_once (String ch rest) template mn
               (started w d template mp mn) (Ok raw) c').
    - rewrite Hstart. reflexivity.
    - rewrite Hstart. exact Hfirst.
    - discriminate. }
  destruct (ServiceFacts.analyze_document_runs w document_id tenant_id
              template_id mp mn d ch rest template _ _ Hdoc Htext Htmpl Hretry)
    as (a & w' & Hrun & Hbranch & Hrc & _ & _ & _ & Hai & Hsl).
  cbn [attempt_counter ai sleeps] in Hrc, Hai, Hsl.
  exists a, w'. split; [exact Hrun|]. split; [exact Hai|].
  split; [exact Hsl|]. split; [lia|].
  unfold branch_taken in Hbranch. split.
  - intros exc Hval. rewrite Hval in Hbranch.
    destruct Hbranch as (Hst & _ & Hmsg & Hobjs). auto.
  - intros validated Hval. rewrite Hval in Hbranch.
    destruct Hbranch as (Hst & _ & _ & rows & Hobjs & Hrows).
    split; [exact Hst|]. exists rows. split; [exact Hobjs|].
    symmetry. eapply Forall2_length; eauto.
Qed.

(** X17. When three calls in a row fail with retryable kinds, timeouts
    and HTTP status failures in any mix, the provider is called three
    times, the delays 1, 2 and 4 are slept, and the last failure alone
    decides: TIMED_OUT if it is a timeout, FAILED otherwise, with its
    message; [retry_count] is 2 and no Clause is added. *)
Theorem last_failure_decides_the_status (w : World C)
    (document_id tenant_id : uuid) (template_id : option uuid)
    (mp mn : string) (d : Document.t) (text : string)
    (template : option AnalysisTemplate.t)
    (e1 e2 e3 : exn) (c1 c2 c3 : C)
    (Hdoc : find_document document_id tenant_id (db w) = Ok (Some d))
    (Htext : Document.extracted_text d = Some text)
    (Hnonempty : text <> EmptyString)
    (Htmpl : find_template template_id tenant_id (db w) = Ok template)
    (Hcall1 : complete (build_extraction_prompt text template) mn (ai w)
              = (Raise e1, c1))
    (Hcall2 : complete (build_extraction_prompt text template) mn c1
              = (Raise e2, c2))
    (Hcall3 : complete (build_extraction_prompt text template) mn c2
              = (Raise e3, c3))
    (Hkind1 : matches default_retryable_exceptions e1 = true)
    (Hkind2 : matches default_retryable_exceptions e2 = true)
    (Hkind3 : matches default_retryable_exceptions e3 = true) :
  exists a w',
    analyze_document document_id tenant_id template_id mp mn w
    = (Ok (Some a), w')
    /\ Analysis.status a
       = (if isinstance e3 AITimeoutError then TIMED_OUT else FAILED)
    /\ Analysis.error_message a = Some (exn_str e3)
    /\ Analysis.retry_count a = 2
    /\ ai w' = c3
    /\ sleeps w' = sleeps w ++ delays 1%Q 0 3
    /\ added_since (length (added_objects (db w))) w' = [AnalysisObj a].
Proof.
  destruct text as [|ch rest]; [congruence|].
  destruct (ServiceFacts.started_session w d template mp mn)
    as (pre & key & s0 & _ & _ & _ & _ & _ & Hstart).
  assert (retry_with_backoff (_call_ai (String ch rest) template mn) 3 1%Q
            default_retryable_exceptions (started w d template mp mn)
          = (Raise e3,
             mk_world (db (started w d template mp mn)) c3 3 (clock w)
               (S (clock_reads w)) (sleeps w ++ delays 1%Q 0 3))) as Hretry.
  { rewrite (retry_three_failures (String ch rest) template mn
               (started w d template mp mn) e1 e2 e3 c1 c2 c3);
      try assumption.
    rewrite Hstart. reflexivity. }
  destruct (ServiceFacts.analyze_document_runs w document_id tenant_id
              template_id mp mn d ch rest template _ _ Hdoc Htext Htmpl Hretry)
    as (a & w' & Hrun & Hbranch & Hrc & _ & _ & _ & Hai & Hsl).
  cbn [attempt_counter ai sleeps] in Hrc, Hai, Hsl.
  exists a, w'. split; [exact Hrun|].
  destruct Hbranch as (Hst & _ & Hmsg & Hobjs).
  repeat split; auto.
Qed.

(** X18. The record returned is consistent: [completed_at] is set
    exactly when the status is COMPLETED, and [error_message] is set
    exactly when it is not. *)
Theorem completion_time_and_error_message_exclude_each_other (w : World C)
    (document_id tenant_id : uuid) (template_id : option uuid)
    (mp mn : string) (d : Document.t) (text : string)
    (template : option AnalysisTemplate.t)
    (Hdoc : find_document document_id tenant_id (db w) = Ok (Some d))
    (Htext : Document.extracted_text d = Some text)
    (Hnonempty : text <> EmptyString)
    (Htmpl : find_template template_id tenant_id (db w) = Ok template) :
  exists a w',
    analyze_document document_id tenant_id template_id mp mn w
    = (Ok (Some a), w')
    /\ (is_Some (Analysis.completed_at a) <-> Analysis.status a = COMPLETED)
    /\ (Analysis.error_message a = None <-> Analysis.status a = COMPLETED).
Proof.
  destruct text as [|ch rest]; [congruence|].
  destruct (retry_with_backoff (_call_ai (String ch rest) template mn) 3 1%Q
              default_retryable_exceptions (started w d template mp mn))
    as [r w1] eqn:Hretry.
  destruct (ServiceFacts.analyze_document_runs w document_id tenant_id
              template_id mp mn d ch rest template r w1 Hdoc Htext Htmpl Hretry)
    as (a & w' & Hrun & Hbranch & _).
  exists a, w'. split; [exact Hrun|].
  unfold branch_taken in Hbranch. destruct r as [raw | exc].
  - destruct (validate_ai_response raw).
    + destruct Hbranch as (-> & -> & -> & _).
      split; split; intros Hx; eauto.
    + destruct Hbranch as (-> & -> & -> & _).
      split; split; intros Hx; try discriminate.
      destruct Hx as [x Hx]. discriminate.
  - destruct Hbranch as (-> & -> & -> & _).
    destruct (isinstance exc AITimeoutError);
      split; split; intros Hx; try discriminate;
      destruct Hx as [x Hx]; discriminate.
Qed.

(** X19. What the Orchestrator stores for a clause passes the checks
    of the table [clauses]: every Clause object added during an
    invocation has a confidence within the range of
    [ck_clauses_confidence_score_range], non-empty title, summary and
    original text, and the Analysis returned as its owner. *)
Theorem stored_clauses_pass_the_table_checks (w : World C)
    (document_id tenant_id : uuid) (template_id : option uuid)
    (mp mn : string) (d : Document.t) (text : string)
    (template : option AnalysisTemplate.t)
    (Hdoc : find_document document_id tenant_id (db w) = Ok (Some d))
    (Htext : Document.extracted_text d = Some text)
    (Hnonempty : text <> EmptyString)
    (Htmpl : find_template template_id tenant_id (db w) = Ok template) :
  exists a w',
    analyze_document document_id tenant_id template_id mp mn w
    = (Ok (Some a), w')
    /\ forall row,
         In (ClauseObj row) (added_since (length (added_objects (db w))) w') ->
         ck_clauses_confidence_score_range row = true
         /\ Clause.title row <> EmptyString
         /\ Clause.summary row <> EmptyString
         /\ Clause.original_text row <> EmptyString
         /\ Clause.analysis_id row = Analysis.id a.
Proof.
  destruct text as [|ch rest]; [congruence|].
  destruct (retry_with_backoff (_call_ai (String ch rest) template mn) 3 1%Q
              default_retryable_exceptions (started w d template mp mn))
    as [r w1] eqn:Hretry.
  destruct (ServiceFacts.analyze_document_runs w document_id tenant_id
              template_id mp mn d ch rest template r w1 Hdoc Htext Htmpl Hretry)
    as (a & w' & Hrun & Hbranch & _).
  exists a, w'. split; [exact Hrun|].
  assert (forall row, In (ClauseObj row) [AnalysisObj a] -> False) as Hnone.
  { intros row [Hin | []]. discriminate. }
  unfold branch_taken in Hbranch. destruct r as [raw | exc].
  - destruct (validate_ai_response raw) as [validated | exc] eqn:Hval.
    + destruct Hbranch as (_ & _ & _ & rows & -> & Hrows).
      destruct (ValidatorFacts.validate_ai_response_sound raw validated Hval)
        as (Hwf & _).
      intros row [Hin | Hin]; [discriminate|].
      apply in_map_iff in Hin as (row' & [= ->] & Hin).
      revert Hwf Hin. induction Hrows as [|entry r0 entries rows0 Hc _ IH];
        intros Hwf Hin; [destruct Hin|].
      inversion Hwf as [|? ? Hentry Hrest]; subst.
      destruct Hin as [<- | Hin]; [|now apply IH].
      destruct Hc as (Hid & _ & _ & Hti & Hsu & Hor & _ & Hcs).
      destruct Hentry as [_ _ Ht Hs Ho [Hc0 Hc1]].
      unfold ck_clauses_confidence_score_range. rewrite Hcs, Hti, Hsu, Hor.
      apply Qle_bool_iff in Hc0, Hc1. rewrite Hc0, Hc1. auto.
    + destruct Hbranch as (_ & _ & _ & ->).
      intros row Hin. destruct (Hnone row Hin).
  - destruct Hbranch as (_ & _ & _ & ->).
    intros row Hin. destruct (Hnone row Hin).
Qed.

End Runs.

Import Conftest.

Lemma foreign_template_is_ignored_witness :
  analyze_document 11 22 (Some 7) default_model_provider default_model_name
    (world_of [Ok VALID_AI_RESPONSE])
  = analyze_document 11 22 None default_model_provider default_model_name
      (world_of [Ok VALID_AI_RESPONSE]).
Proof.
  apply foreign_template_is_ignored.
  intros t [<- | []] _. discriminate.
Defined.

Lemma first_completion_is_never_retried_witness :
  exists a w',
    analyze_document 11 22 None default_model_provider default_model_name
      (world_of [Ok MALFORMED_JSON])
    = (Ok (Some a), w')
    /\ ai w' = mk_mock [] 1
    /\ sleeps w' = []
    /\ Analysis.retry_count a = 0.
Proof.
  destruct (first_completion_is_never_retried (world_of [Ok MALFORMED_JSON])
              11 22 None default_model_provider default_model_name contract
              "Some contract text" None MALFORMED_JSON (mk_mock [] 1)
              eq_refl eq_refl ltac:(discriminate) eq_refl eq_refl)
    as (a & w' & Hrun & Hai & Hsl & Hrc & _).
  exists a, w'. auto.
Defined.

Lemma last_failure_decides_the_status_witness :
  exists a w',
    analyze_document 11 22 None default_model_provider default_model_name
      (world_of [timeout "t1"; timeout "t2"; Raise status_503])
    = (Ok (Some a), w')
    /\ Analysis.status a = FAILED
    /\ Analysis.error_message a
       = Some "Server error '503 Service Unavailable'"
    /\ Analysis.retry_count a = 2.
Proof.
  destruct (last_failure_decides_the_status
              (world_of [timeout "t1"; timeout "t2"; Raise status_503])
              11 22 None default_model_provider default_model_name contract
              "Some contract text" None
              (new_exn AITimeoutError "t1") (new_exn AITimeoutError "t2")
              status_503
              (mk_mock [timeout "t2"; Raise status_503] 1)
              (mk_mock [Raise status_503] 2) (mk_mock [] 3)
              eq_refl eq_refl ltac:(discriminate) eq_refl
              eq_refl eq_refl eq_refl eq_refl eq_refl eq_refl)
    as (a & w' & Hrun & Hst & Hmsg & Hrc & _).
  exists a, w'. auto.
Defined.

Lemma completion_time_and_error_message_exclude_each_other_witness :
  exists a w',
    analyze_document 11 22 None default_model_provider default_model_name
      retry_then_success_world
    = (Ok (Some a), w')
    /\ (is_Some (Analysis.completed_at a) <-> Analysis.status a = COMPLETED)
    /\ (Analysis.error_message a = None <-> Analysis.status a = COMPLETED).
Proof.
  apply (completion_time_and_error_message_exclude_each_other
           retry_then_success_world 11 22 None default_model_provider
           default_model_name contract "Some contract text" None);
    [reflexivity | reflexivity | discriminate | reflexivity].
Defined.

Lemma stored_clauses_pass_the_table_checks_witness :
  exists a w',
    analyze_document 11 22 None default_model_provider default_model_name
      retry_then_success_world
    = (Ok (Some a), w')
    /\ forall row,
         In (ClauseObj row)
            (added_since
               (length (added_objects (db retry_then_success_world))) w') ->
         ck_clauses_confidence_score_range row = true
         /\ Clause.title row <> EmptyString
         /\ Clause.summary row <> EmptyString
         /\ Clause.original_text row <> EmptyString
         /\ Clause.analysis_id row = Analysis.id a.
Proof.
  apply (stored_clauses_pass_the_table_checks
           retry_then_success_world 11 22 None default_model_provider
           default_model_name contract "Some contract text" None);
    [reflexivity | reflexivity | discriminate | reflexivity].
Defined.

End OrchestratorFacts.

(* --------------------------------------------------------------------- *)
(** ** The worker: one job, and the loop *)
(* --------------------------------------------------------------------- *)

Module JobFacts.
Import Worker.

(** The properties of this module are those of a worker whose Redis
    and queue are up ([reliable_services]): every command and every
    call goes through. *)

Section OneJob.
Context {S : Type} (analyze : uuid -> uuid -> expr S (option Analysis.t)).

Lemma released (key : string) (locks : gset string) :
  key ∉ locks -> ({[key]} ∪ locks) ∖ {[key]} = locks.
Proof.
  intros Hfree. apply set_eq. intros x.
  rewrite elem_of_difference, elem_of_union, elem_of_singleton.
  split; [intros [[-> | Hx] Hne]; [now destruct Hne | exact Hx] |].
  intros Hx. split; [now right | now intros ->].
Qed.

(** What [_process_job] does on each of its ways, in one equation. *)
Lemma process_job_runs (job : Job) (w : WorkerWorld S) :
  _process_job analyze job w
  = match redis_keys w !! dedup_key_of job with
    | Some _ =>
        (Return tt,
         mk_worker_world (redis_keys w) (held_locks w)
           (queue_calls w ++ [Ack job]) (analyze_calls w) (service_world w))
    | None =>
        if decide (lock_key_of job ∈ held_locks w) then
          (Return tt,
           mk_worker_world (<[dedup_key_of job := "1"]> (redis_keys w))
             (held_locks w) (queue_calls w ++ [Requeue job 30; Ack job])
             (analyze_calls w) (service_world w))
        else
          let '(r, s) :=
            analyze (document_id job) (tenant_id job) (service_world w) in
          let calls := analyze_calls w ++ [(document_id job, tenant_id job)] in
          match r with
          | Ok (Some _) =>
              (Normal,
               mk_worker_world (<[dedup_key_of job := "1"]> (redis_keys w))
                 (held_locks w) (queue_calls w ++ [Ack job]) calls s)
          | Ok None =>
              (Normal,
               mk_worker_world (redis_keys w) (held_locks w)
                 (queue_calls w ++ [Ack job]) calls s)
          | Raise e =>
              if isinstance e LockAcquisitionError then
                (Return tt,
                 mk_worker_world (<[dedup_key_of job := "1"]> (redis_keys w))
                   (held_locks w) (queue_calls w ++ [Requeue job 30; Ack job])
                   calls s)
              else
                (Normal,
                 mk_worker_world (redis_keys w) (held_locks w)
                   (queue_calls w ++ [Ack job]) calls s)
          end
    end.
Proof.
  unfold _process_job. cbv zeta.
  unfold await at 1, redis_set_nx.
  cbn [redis_failure reliable_services].
  destruct (redis_keys w !! dedup_key_of job) eqn:Hkey; cbn [negb].
  { reflexivity. }
  unfold try_except_finally, async_with_lock. cbn [held_locks].
  destruct (decide (lock_key_of job ∈ held_locks w)) as [Hheld | Hfree].
  { simpl. now rewrite <- app_assoc. }
  unfold await at 1, run_analysis, set_locks. cbn [service_world].
  destruct (analyze (document_id job) (tenant_id job) (service_world w))
    as [[[a|] | e] s'].
  - simpl. now rewrite (released _ _ Hfree).
  - simpl. rewrite (released _ _ Hfree).
    now rewrite (delete_insert_id _ _ _ Hkey).
  - cbn [find_handler]. destruct (isinstance e LockAcquisitionError).
    + simpl. rewrite (released _ _ Hfree). now rewrite <- app_assoc.
    + rewrite ExceptionFacts.isinstance_Exception. simpl.
      rewrite (released _ _ Hfree).
      now rewrite (delete_insert_id _ _ _ Hkey).
Qed.

(** X20. A message whose dedup marker exists is a duplicate: it is
    acknowledged and nothing else happens; no lock is taken, the
    Orchestrator is not invoked, the key space is untouched. *)
Theorem duplicate_message_is_only_acknowledged (job : Job) (w : WorkerWorld S)
    (marker : string)
    (Hseen : redis_keys w !! dedup_key_of job = Some marker) :
  _process_job analyze job w
  = (Return tt,
     mk_worker_world (redis_keys w) (held_locks w)
       (queue_calls w ++ [Ack job]) (analyze_calls w) (service_world w)).
Proof. rewrite process_job_runs, Hseen. reflexivity. Qed.


(** X22. A job re-queued because its lock was held is not analysed
    when it comes back.  The pass that re-queues it leaves its dedup
    marker set, so in any later world that still has the marker the
    same job is taken for a duplicate, whether the lock is free by
    then or not: it is acknowledged, and the Orchestrator is not
    invoked. *)
Theorem requeued_job_is_skipped_as_duplicate (job : Job)
    (w later : WorkerWorld S)
    (Hnew : redis_keys w !! dedup_key_of job = None)
    (Hheld : lock_key_of job ∈ held_locks w)
    (Hkept : redis_keys later = redis_keys (snd (_process_job analyze job w))) :
  In (Requeue job 30) (queue_calls (snd (_process_job analyze job w)))
  /\ _process_job analyze job later
     = (Return tt,
        mk_worker_world (redis_keys later) (held_locks later)
          (queue_calls later ++ [Ack job]) (analyze_calls later)
          (service_world later)).
Proof.
  rewrite process_job_runs, Hnew in Hkept |- *.
  destruct (decide (lock_key_of job ∈ held_locks w)); [|contradiction].
  cbn [snd redis_keys queue_calls] in Hkept |- *. split.
  - apply in_or_app. right. now left.
  - rewrite process_job_runs, Hkept, lookup_insert_eq. reflexivity.
Qed.

(** X23. Whatever way a job takes, the worker leaves the set of held
    locks as it found it (its own lock is released on every way out),
    invokes the Orchestrator at most once and only for the job's own
    document and tenant, and touches no Redis key other than the
    job's dedup marker. *)
Theorem process_job_frame (job : Job) (w : WorkerWorld S) :
  held_locks (snd (_process_job analyze job w)) = held_locks w
  /\ (analyze_calls (snd (_process_job analyze job w)) = analyze_calls w
      \/ analyze_calls (snd (_process_job analyze job w))
         = analyze_calls w ++ [(document_id job, tenant_id job)])
  /\ (forall key, key <> dedup_key_of job ->
        redis_keys (snd (_process_job analyze job w)) !! key
        = redis_keys w !! key).
Proof.
  assert (forall key, key <> dedup_key_of job ->
            <[dedup_key_of job := "1"]> (redis_keys w) !! key
            = redis_keys w !! key) as Hother.
  { intros key Hkey. now apply lookup_insert_ne. }
  rewrite process_job_runs.
  destruct (redis_keys w !! dedup_key_of job).
  { cbn. auto. }
  destruct (decide (lock_key_of job ∈ held_locks w)).
  { cbn. auto. }
  destruct (analyze (document_id job) (tenant_id job) (service_world w))
    as [[[a|] | e] s'].
  - cbn. auto.
  - cbn. auto.
  - destruct (isinstance e LockAcquisitionError); cbn; auto.
Qed.

End OneJob.

Section Loop.
Context {S : Type} (analyze : uuid -> uuid -> expr S (option Analysis.t)).
Variable environment : nat -> pass.

Lemma acknowledged_app calls more :
  acknowledged (calls ++ more) = acknowledged calls ++ acknowledged more.
Proof.
  induction calls as [|[j | j d] calls IH]; simpl;
    [reflexivity | now rewrite IH | assumption].
Qed.

Lemma process_job_acknowledges (job : Job) (w : WorkerWorld S) :
  acknowledged (queue_calls (snd (_process_job analyze job w)))
  = acknowledged (queue_calls w) ++ [job].
Proof.
  rewrite process_job_runs.
  destruct (redis_keys w !! dedup_key_of job).
  { cbn. now rewrite acknowledged_app. }
  destruct (decide (lock_key_of job ∈ held_locks w)).
  { cbn. now rewrite acknowledged_app. }
  destruct (analyze (document_id job) (tenant_id job) (service_world w))
    as [[[a|] | e] s'].
  - cbn. now rewrite acknowledged_app.
  - cbn. now rewrite acknowledged_app.
  - destruct (isinstance e LockAcquisitionError); cbn;
      now rewrite acknowledged_app.
Qed.

(** One pass: the pass counter, the event and the acknowledgments. *)
Lemma loop_body_runs (w : LoopWorld S) :
  passes_made (loop_body analyze environment w) = Datatypes.S (passes_made w)
  /\ shutdown_event (loop_body analyze environment w)
     = shutdown_event w || signalled (environment (passes_made w))
  /\ acknowledged (queue_calls (worker_world (loop_body analyze environment w)))
     = acknowledged (queue_calls (worker_world w))
       ++ delivered_jobs environment (passes_made w) 1.
Proof.
  unfold loop_body. cbv zeta. cbn [delivered_jobs].
  destruct (environment (passes_made w)) as [dq sig]. cbn [delivery signalled].
  assert (forall w1 : LoopWorld S,
            shutdown_event (if sig then _request_shutdown w1 else w1)
            = shutdown_event w1 || sig
            /\ passes_made (if sig then _request_shutdown w1 else w1)
               = passes_made w1
            /\ worker_world (if sig then _request_shutdown w1 else w1)
               = worker_world w1) as Hsig.
  { intros w1. destruct sig; cbn; rewrite ?orb_true_r, ?orb_false_r; auto. }
  set (w1 := mk_loop_world (worker_world w) (shutdown_event w)
               (Datatypes.S (passes_made w)) (pauses w)).
  destruct (Hsig w1) as (Hev & Hpm & Hww).
  destruct dq as [job | | e].
  - pose proof (process_job_acknowledges job (worker_world w)) as Hack.
    rewrite Hww. cbn [worker_world w1].
    destruct (_process_job analyze job (worker_world w)) as [[| r | e] ww];
      cbn [passes_made shutdown_event worker_world snd] in *;
      rewrite Hev, Hpm, Hack; auto.
  - rewrite Hev, Hpm, Hww. cbn. now rewrite app_nil_r.
  - cbn [passes_made shutdown_event worker_world].
    rewrite Hev, Hpm, Hww. cbn. now rewrite app_nil_r.
Qed.

Lemma delivered_jobs_S from n :
  delivered_jobs environment from (Datatypes.S n)
  = delivered_jobs environment from 1
    ++ delivered_jobs environment (Datatypes.S from) n.
Proof.
  cbn [delivered_jobs].
  destruct (delivery (environment from)); reflexivity.
Qed.


End Loop.

Lemma duplicate_message_is_only_acknowledged_witness :
  _process_job no_service first_job seen_world
  = (Return tt,
     mk_worker_world (redis_keys seen_world) (held_locks seen_world)
       [Ack first_job] [] tt).
Proof.
  apply (duplicate_message_is_only_acknowledged no_service first_job
           seen_world "1").
  apply lookup_singleton_eq.
Defined.


Lemma requeued_job_is_skipped_as_duplicate_witness :
  In (Requeue contended_job 30)
     (queue_calls (snd (_process_job no_service contended_job contended_world)))
  /\ _process_job no_service contended_job redelivery_world
     = (Return tt,
        mk_worker_world (redis_keys redelivery_world)
          (held_locks redelivery_world)
          (queue_calls redelivery_world ++ [Ack contended_job])
          (analyze_calls redelivery_world) (service_world redelivery_world)).
Proof.
  apply (requeued_job_is_skipped_as_duplicate no_service contended_job
           contended_world redelivery_world).
  - apply lookup_empty.
  - now apply elem_of_singleton.
  - vm_compute. reflexivity.
Defined.


End JobFacts.

(* --------------------------------------------------------------------- *)
(** ** The demo's printout of a validated response *)
(* --------------------------------------------------------------------- *)

Module DemoFacts.
Import Conftest FenceFacts.

Lemma nonempty_true (s : string) : nonempty s = true <-> s <> EmptyString.
Proof. destruct s; simpl; split; congruence. Qed.

Lemma nonempty_snoc (word : string) (c : ascii) :
  nonempty (word +:+ String c EmptyString) = true.
Proof. destruct word; reflexivity. Qed.

(** *** [str.split] *)

Lemma split_run_words (s word : string) :
  Forall (fun w => nonempty w = true) (split_run word s).
Proof.
  revert word. induction s as [|c r IH]; intros word; cbn [split_run].
  - destruct word; constructor; [reflexivity | constructor].
  - destruct (is_space c); [|apply IH].
    destruct word; [apply IH|]. constructor; [reflexivity | apply IH].
Qed.

Lemma split_run_nil (s word : string) :
  split_run word s = [] <-> word = EmptyString /\ all_p is_space s = true.
Proof.
  revert word. induction s as [|c r IH]; intros word; cbn [split_run all_p].
  - destruct word; split; try easy.
  - destruct (is_space c); cbn [andb].
    + destruct word; [apply IH|]. split; [discriminate | now intros [? _]].
    + rewrite IH. split; [|now intros [_ ?]].
      intros [Hword _]. pose proof (nonempty_snoc word c) as Hne.
      rewrite Hword in Hne. discriminate.
Qed.

(** *** [str.join] *)

Lemma join_cons (sep part next : string) (rest : list string) :
  join sep (part :: next :: rest) = part +:+ sep +:+ join sep (next :: rest).
Proof. reflexivity. Qed.

Lemma join_merge (sep a b : string) (before after : list string) :
  join sep (before ++ (a +:+ sep +:+ b) :: after)
  = join sep (before ++ a :: b :: after).
Proof.
  induction before as [|x before IH].
  - cbn [app]. destruct after as [|y after].
    + reflexivity.
    + rewrite !join_cons. now rewrite !append_assoc.
  - cbn [app].
    destruct before as [|y before]; cbn [app] in *.
    + rewrite !join_cons. now rewrite IH.
    + rewrite !join_cons. now rewrite IH.
Qed.

(** *** The loop of the word-wrap *)



Lemma wrap_word_filling state w :
  nonempty w = true -> nonempty (snd (wrap_word state w)) = true.
Proof.
  intros Hw. destruct state as [lines line]. unfold wrap_word.
  destruct (nonempty line) eqn:Hline; cbn [andb].
  - destruct (64 <? _)%nat; cbn [snd]; [exact Hw|].
    destruct line; [discriminate | reflexivity].
  - exact Hw.
Qed.

Lemma wrap_loop_text (words : list string) (state : list string * string) :
  Forall (fun w => nonempty w = true) words ->
  filling state ->
  join " " (flushed (fold_left wrap_word words state))
  = join " " (flushed state ++ words).
Proof.
  intros Hwords. revert state.
  induction Hwords as [|w words Hw Hwords IH]; intros state Hstate.
  - cbn [fold_left]. now rewrite app_nil_r.
  - cbn [fold_left]. rewrite IH by (left; now apply wrap_word_filling).
    destruct state as [lines line]. unfold wrap_word, flushed, filling in *.
    cbn [fst snd] in *.
    destruct (nonempty line) eqn:Hline; cbn [andb].
    + destruct (64 <? _)%nat; cbn [fst snd].
      * rewrite Hw. now rewrite <- !app_assoc.
      * replace (nonempty (line +:+ " " +:+ w)) with true
          by (destruct line; [discriminate | reflexivity]).
        rewrite <- !app_assoc. cbn [app]. apply join_merge.
    + destruct Hstate as [Hne | ->]; [discriminate|].
      cbn [fst snd]. now rewrite Hw.
Qed.


Lemma wrap_loop_fits (all words : list string) (state : list string * string) :
  Forall (fun w => nonempty w = true) words ->
  (forall w, In w words -> In w all) ->
  Forall (fits all) (flushed state) ->
  Forall (fits all) (flushed (fold_left wrap_word words state)).
Proof.
  intros Hwords. revert state.
  induction Hwords as [|w words Hw Hwords IH]; intros state Hall Hstate.
  - exact Hstate.
  - cbn [fold_left]. apply IH; [intros x Hx; apply Hall; now right|].
    assert (fits all w) as Hfw.
    { split; [exact Hw | right; apply Hall; now left]. }
    destruct state as [lines line]. unfold wrap_word, flushed in *.
    cbn [fst snd] in *.
    destruct (nonempty line) eqn:Hline; cbn [andb].
    + destruct (64 <? _)%nat eqn:Hlong; cbn [fst snd].
      * rewrite Hw. apply Forall_app. split; [exact Hstate|].
        constructor; [exact Hfw | constructor].
      * replace (nonempty (line +:+ " " +:+ w)) with true
          by (destruct line; [discriminate | reflexivity]).
        apply Forall_app in Hstate as [Hlines _].
        apply Forall_app. split; [exact Hlines|].
        constructor; [|constructor]. split.
        -- destruct line; [discriminate | reflexivity].
        -- left. apply Nat.ltb_ge in Hlong.
           rewrite !length_append. cbn [String.length]. lia.
    + cbn [fst snd]. rewrite Hw.
      apply Forall_app. split; [exact Hstate|].
      constructor; [exact Hfw | constructor].
Qed.

Lemma wrap_flushed (words : list string) :
  wrap words = flushed (fold_left wrap_word words ([], EmptyString)).
Proof.
  unfold wrap, flushed.
  now destruct (fold_left wrap_word words ([], EmptyString)) as [lines line].
Qed.

Lemma wrap_nil (words : list string) :
  Forall (fun w => nonempty w = true) words ->
  wrap words = [] -> words = [].
Proof.
  intros Hwords Hwrap. destruct Hwords as [|w words Hw Hwords]; [reflexivity|].
  exfalso. rewrite wrap_flushed in Hwrap. cbn [fold_left] in Hwrap.
  assert (forall ws state,
            Forall (fun w => nonempty w = true) ws ->
            nonempty (snd state) = true ->
            nonempty (snd (fold_left wrap_word ws state)) = true) as Hkeep.
  { intros ws state Hws. revert state.
    induction Hws as [|x ws Hx Hws IH]; intros state Hstate; [exact Hstate|].
    cbn [fold_left]. apply IH. now apply wrap_word_filling. }
  pose proof (Hkeep words (wrap_word ([], EmptyString) w) Hwords
                (wrap_word_filling _ _ Hw)) as Hline.
  unfold flushed in Hwrap. rewrite Hline in Hwrap.
  now destruct (fst (fold_left wrap_word words (wrap_word ([], EmptyString) w))).
Qed.

(** X25. The word-wrap of the demo loses nothing: the lines printed
    for a summary, joined by single spaces, are the words of the
    summary joined by single spaces; only the runs of whitespace
    between the words are changed. *)
Theorem wrapped_summary_keeps_the_words (summary : string) :
  join " " (wrap (split summary)) = join " " (split summary).
Proof.
  rewrite wrap_flushed.
  rewrite wrap_loop_text; [reflexivity | apply split_run_words | now right].
Qed.

(** X26. No line of the wrapped summary is empty, and a line is
    longer than 64 characters only when it is a single word of the
    summary that is itself longer. *)
Theorem wrapped_lines_fit_the_column (summary line : string) :
  In line (wrap (split summary)) ->
  line <> EmptyString
  /\ ((String.length line <= 64)%nat
      \/ (In line (split summary) /\ (64 < String.length line)%nat)).
Proof.
  intros Hline.
  pose proof (wrap_loop_fits (split summary) (split summary)
                ([], EmptyString) (split_run_words _ _)
                (fun _ H => H) (List.Forall_nil _)) as Hfits.
  rewrite <- wrap_flushed in Hfits.
  rewrite List.Forall_forall in Hfits.
  destruct (Hfits line Hline) as [Hne Hlen].
  split; [now apply nonempty_true|].
  destruct (le_lt_dec (String.length line) 64) as [Hle | Hgt]; [now left|].
  right. split; [|exact Hgt]. destruct Hlen as [Hle | Hin]; [lia | exact Hin].
Qed.

(** X27. Printing the summary of a clause fails exactly on a blank
    one: a summary of whitespace only has no words, no line is built,
    and [lines[0]] raises IndexError; any other summary is printed,
    the first line after the label.  The schema does not exclude the
    failure: its [min_length=1] accepts a summary of spaces. *)
Theorem blank_summary_breaks_the_printout (summary : string) :
  (all_p is_space summary = true ->
     print_summary summary
     = Raise (new_exn IndexError "list index out of range"))
  /\ (all_p is_space summary = false ->
        exists first rest,
          wrap (split summary) = first :: rest
          /\ print_summary summary
             = Ok (("      Summary:    " +:+ first)
                     :: map (fun ln => "                  " +:+ ln) rest))
  /\ (summary <> EmptyString -> min_length_1 summary = inl summary).
Proof.
  split; [|split].
  - intros Hblank. unfold print_summary, split.
    now rewrite (proj2 (split_run_nil summary EmptyString) (conj eq_refl Hblank)).
  - intros Hword. unfold print_summary.
    destruct (wrap (split summary)) as [|first rest] eqn:Hwrap.
    + apply wrap_nil in Hwrap; [|apply split_run_words].
      apply split_run_nil in Hwrap as [_ Hblank]. congruence.
    + now exists first, rest.
  - apply SchemaFacts.min_length_1_nonempty.
Qed.

(** *** The risk summary *)

Lemma risk_counts_lookup (clauses : list ClauseExtraction)
    (risk_counts : gmap string Z) (level : string) :
  default 0 (fold_left count_risk clauses risk_counts !! level)
  = default 0 (risk_counts !! level) + with_level level clauses.
Proof.
  revert risk_counts.
  induction clauses as [|c clauses IH]; intros risk_counts;
    cbn [fold_left with_level]; [lia|].
  rewrite IH. unfold count_risk.
  destruct (String.eqb_spec (Schemas.risk_level c) level) as [-> | Hne].
  - rewrite lookup_insert_eq. simpl. symmetry. apply Z.add_assoc.
  - rewrite lookup_insert_ne by exact Hne. now rewrite Z.add_0_l.
Qed.

Lemma with_level_nonneg level clauses : 0 <= with_level level clauses.
Proof.
  induction clauses as [|c clauses IH]; cbn [with_level]; [lia|].
  destruct (String.eqb _ level); lia.
Qed.

Lemma risk_summary_total (clauses : list ClauseExtraction) :
  rows_total (risk_summary clauses)
  = with_level "CRITICAL" clauses + with_level "HIGH" clauses
    + with_level "MEDIUM" clauses + with_level "LOW" clauses.
Proof.
  unfold risk_summary, risk_counts_of. cbv zeta. cbn [flat_map].
  rewrite !risk_counts_lookup, !lookup_empty. cbn [default].
  rewrite !Z.add_0_l, app_nil_r.
  unfold rows_total.
  repeat match goal with
         | |- context [?n =? 0] => destruct (Z.eqb_spec n 0) as [-> | _]
         end; cbn [app fold_right snd]; lia.
Qed.

Lemma with_level_total (clauses : list ClauseExtraction) :
  Forall well_formed_clause clauses ->
  with_level "CRITICAL" clauses + with_level "HIGH" clauses
  + with_level "MEDIUM" clauses + with_level "LOW" clauses
  = total_analysed clauses.
Proof.
  unfold total_analysed.
  induction 1 as [|c clauses Hc Hclauses IH]; [reflexivity|].
  cbn [with_level length]. rewrite Nat2Z.inj_succ, <- IH.
  destruct (wf_risk_level c Hc) as [<- | [<- | [<- | [<- | []]]]];
    cbn; lia.
Qed.

Section Printout.
Context `{PydanticCore}.

(** X28. The risk summary accounts for every clause of a validated
    response: the counts of the rows printed (the levels CRITICAL,
    HIGH, MEDIUM and LOW with a count other than zero) add up to the
    total printed under them, no row has a count of zero, and the
    rows are in that order of the levels. *)
Theorem risk_summary_accounts_for_every_clause (raw : string)
    (validated : AIExtractionResponse)
    (Hvalid : validate_ai_response raw = Ok validated) :
  rows_total (risk_summary (clauses validated))
  = total_analysed (clauses validated)
  /\ (forall level count,
        In (level, count) (risk_summary (clauses validated)) ->
        0 < count /\ count = with_level level (clauses validated)).
Proof.
  destruct (ValidatorFacts.validate_ai_response_sound raw validated Hvalid)
    as (Hwf & _ & _).
  split.
  - rewrite risk_summary_total. now apply with_level_total.
  - intros level count. unfold risk_summary, risk_counts_of. cbv zeta.
    cbn [flat_map]. rewrite !risk_counts_lookup, !lookup_empty.
    cbn [default]. rewrite !Z.add_0_l, app_nil_r.
    pose proof (with_level_nonneg "CRITICAL" (clauses validated)).
    pose proof (with_level_nonneg "HIGH" (clauses validated)).
    pose proof (with_level_nonneg "MEDIUM" (clauses validated)).
    pose proof (with_level_nonneg "LOW" (clauses validated)).
    repeat match goal with
           | |- context [?n =? 0] => destruct (Z.eqb_spec n 0)
           end; cbn [app In];
      intros Hin;
      repeat match type of Hin with
             | _ \/ _ => destruct Hin as [Hin | Hin]
             | False => destruct Hin
             end;
      injection Hin as <- <-; lia.
Qed.

End Printout.

Lemma wrapped_lines_fit_the_column_witness :
  "Either party may terminate with 30 days notice." <> EmptyString
  /\ ((String.length "Either party may terminate with 30 days notice." <= 64)%nat
      \/ (In "Either party may terminate with 30 days notice."
            (split "Either party  may terminate with 30 days notice. ")
          /\ (64 < String.length "Either party may terminate with 30 days notice.")%nat)).
Proof.
  apply (wrapped_lines_fit_the_column
           "Either party  may terminate with 30 days notice. ").
  vm_compute. now left.
Defined.

Lemma blank_summary_breaks_the_printout_witness :
  (exists validated,
     validate_ai_response BLANK_SUMMARY_RESPONSE = Ok validated
     /\ map Schemas.summary (clauses validated) = [" "])
  /\ print_summary " " = Raise (new_exn IndexError "list index out of range").
Proof.
  split.
  - vm_compute. eexists. split; reflexivity.
  - apply (proj1 (blank_summary_breaks_the_printout " ")). reflexivity.
Defined.

Lemma risk_summary_accounts_for_every_clause_witness :
  exists validated,
    validate_ai_response VALID_AI_RESPONSE = Ok validated
    /\ rows_total (risk_summary (clauses validated)) = 3
    /\ risk_summary (clauses validated)
       = [("CRITICAL", 1); ("HIGH", 1); ("MEDIUM", 1)].
Proof.
  destruct (validate_ai_response VALID_AI_RESPONSE) as [validated | exc] eqn:E.
  - exists validated. split; [reflexivity|].
    destruct (risk_summary_accounts_for_every_clause _ _ E) as [Htotal _].
    split.
    + rewrite Htotal. vm_compute in E. injection E as <-. reflexivity.
    + vm_compute in E. injection E as <-. vm_compute. reflexivity.
  - vm_compute in E. discriminate.
Defined.

End DemoFacts.
